(** * Bach: expressions, typed columns and savepoints

    A shallow embedding of [bach/expression.py], [bach/series/series.py],
    [bach/series/series_boolean.py], [bach/series/series_uuid.py] and
    [bach/savepoints.py], with the properties of the specification stated
    over it. *)

From Stdlib Require Import ZArith Lia Ascii.
From stdpp Require Import base option list strings gmap pretty.

Local Open Scope string_scope.
Local Open Scope list_scope.

(** ** Python runtime: exceptions, results, truth values *)

Module Py.

(** The exception classes that the modelled code raises, with their message. *)
Inductive exn : Type :=
| ValueError (msg : string)
| TypeError (msg : string)
| NotImplementedError (msg : string)
| KeyError (key : string)
| AttributeError (msg : string)
| RecursionError.

(** A call either returns a value or raises. *)
Inductive result (A : Type) : Type :=
| Ok (a : A)
| Raise (e : exn).
Arguments Ok {A} a.
Arguments Raise {A} e.

#[global] Instance result_ret : MRet result := fun A a => Ok a.
#[global] Instance result_bind : MBind result := fun A B f m =>
  match m with Ok a => f a | Raise e => Raise e end.
#[global] Instance result_fmap : FMap result := fun A B f m =>
  match m with Ok a => Ok (f a) | Raise e => Raise e end.

Definition is_ok {A} (r : result A) : bool :=
  match r with Ok _ => true | Raise _ => false end.

(** The values that the flag properties of an expression return: [len(l) and
    all(l)] is an [int] when [l] is empty and a [bool] otherwise. *)
Inductive pyval : Type :=
| PyBool (b : bool)
| PyInt (n : Z).

Definition truthy (v : pyval) : bool :=
  match v with
  | PyBool b => b
  | PyInt n => negb (n =? 0)%Z
  end.

(** [a and b] *)
Definition py_and (a b : pyval) : pyval := if truthy a then b else a.

(** [len(l)] *)
Definition py_len {A} (l : list A) : pyval := PyInt (Z.of_nat (length l)).

(** [all(l)] *)
Definition py_all (l : list pyval) : bool := forallb truthy l.

(** [any(l)] *)
Definition py_any (l : list bool) : bool := existsb id l.

(** [''.join(l)] *)
Definition join (l : list string) : string := fold_right String.append EmptyString l.

(** [sep.join(l)] *)
Fixpoint join_with (sep : string) (l : list string) : string :=
  match l with
  | [] => EmptyString
  | [x] => x
  | x :: l' => x +:+ sep +:+ join_with sep l'
  end.

(** The double quote and the single quote, as strings. *)
Definition dq : string := String (ascii_of_nat 34) EmptyString.
Definition sq : string := String (ascii_of_nat 39) EmptyString.

(** [str(n)] for an integer. *)
Definition str_of_Z (n : Z) : string := pretty n.
Definition str_of_nat (n : nat) : string := pretty n.

(** [str(b)] for a boolean. *)
Definition str_of_bool (b : bool) : string := if b then "True" else "False".

(** [s.lower()], on ASCII letters. *)
Definition lower_char (c : Ascii.ascii) : Ascii.ascii :=
  let n := nat_of_ascii c in
  if (65 <=? n)%nat && (n <=? 90)%nat then ascii_of_nat (n + 32) else c.

Fixpoint lower (s : string) : string :=
  match s with
  | EmptyString => EmptyString
  | String c tl => String (lower_char c) (lower tl)
  end.

(** A string is truthy when it is not empty; [None] is falsy. *)
Definition str_truthy (o : option string) : bool :=
  match o with
  | Some (String _ _) => true
  | _ => false
  end.

(** [s.split('{}')]: the pieces between the non-overlapping occurrences of
    the two characters, found from the left. *)
Definition cons_head (c : Ascii.ascii) (l : list string) : list string :=
  match l with
  | seg :: segs => String c seg :: segs
  | [] => [String c EmptyString]
  end.

Fixpoint split_braces (s : string) : list string :=
  match s with
  | EmptyString => [EmptyString]
  | String c tl =>
      match tl with
      | String c2 tl2 =>
          if Ascii.eqb c "{"%char && Ascii.eqb c2 "}"%char
          then EmptyString :: split_braces tl2
          else cons_head c (split_braces tl)
      | EmptyString => cons_head c (split_braces tl)
      end
  end.

(** [d] in front of the first piece of a split. *)
Definition prepend (d : string) (l : list string) : list string :=
  match l with
  | seg :: segs => (d +:+ seg) :: segs
  | [] => [d]
  end.

(** No character of [s] is an opening brace. *)
Fixpoint no_open_brace (s : string) : bool :=
  match s with
  | EmptyString => true
  | String c tl => negb (Ascii.eqb c "{"%char) && no_open_brace tl
  end.

End Py.
Import Py.

(** ** sql_models: the graph node *)

(** Modelled from the spec: the node of the SQL-model graph, which lives in
    the [sql_models] package; its identity is its structural hash, and that
    is all the code below reads from it. *)
Record SqlModel : Type := mkSqlModel { model_hash : string }.

#[global] Instance SqlModel_eq_dec : EqDecision SqlModel.
Proof. solve_decision. Defined.

(** ** bach/expression.py *)

Inductive ExpressionToken : Type :=
| RawToken (raw : string)
| PlaceHolderToken (dtype : string) (name : string)
| ColumnReferenceToken (column_name : string)
| ModelReferenceToken (model : SqlModel)
| StringValueToken (value : string)
| VariableStringValueToken (value : string) (reference_name : string).

#[global] Instance ExpressionToken_eq_dec : EqDecision ExpressionToken.
Proof. solve_decision. Defined.

(** The class of an expression object: the base class or a marker subclass. *)
Inductive ExpressionClass : Type :=
| K_Expression
| K_NonAtomicExpression
| K_IndependentSubqueryExpression
| K_SingleValueExpression
| K_ConstValueExpression
| K_AggregateFunctionExpression
| K_WindowFunctionExpression.

#[global] Instance ExpressionClass_eq_dec : EqDecision ExpressionClass.
Proof. solve_decision. Defined.

(** An expression object: its class, the [name] attribute (set by
    [ConstValueExpression.__init__] only) and the tuple [_data]. *)
#[local] Unset Elimination Schemes.
Inductive Expression : Type :=
| Expr (klass : ExpressionClass) (name : option string)
       (_data : list (ExpressionToken + Expression)).
#[local] Set Elimination Schemes.

(** A child of an expression is a token or an expression. *)
Abbreviation Item := (ExpressionToken + Expression)%type.
Abbreviation Tok t := (@inl ExpressionToken Expression t) (only parsing).
Abbreviation Sub e := (@inr ExpressionToken Expression e) (only parsing).

Definition klass_of (e : Expression) : ExpressionClass :=
  match e with Expr k _ _ => k end.
Definition data (e : Expression) : list Item :=
  match e with Expr _ _ d => d end.

(** [isinstance(e, cls)] for the classes that have no subclass;
    [ConstValueExpression] is a subclass of [SingleValueExpression], and the
    flags below test for both. *)
Definition isinstance_NonAtomic (e : Expression) : bool :=
  match klass_of e with K_NonAtomicExpression => true | _ => false end.
Definition isinstance_AggregateFunction (e : Expression) : bool :=
  match klass_of e with K_AggregateFunctionExpression => true | _ => false end.
Definition isinstance_WindowFunction (e : Expression) : bool :=
  match klass_of e with K_WindowFunctionExpression => true | _ => false end.

(** The argument of [__init__]: nothing, an expression or a list. *)
Inductive init_data : Type :=
| DataNone
| DataExpression (e : Expression)
| DataList (l : list Item).

(** [cls(data)]; every class but [ConstValueExpression] takes [data] only,
    and [ConstValueExpression] defaults [name] to [None]. *)
Definition Expression_init (cls : ExpressionClass) (d : init_data)
    (name : option string) : Expression :=
  let name' := match cls with K_ConstValueExpression => name | _ => None end in
  match d with
  | DataNone => Expr cls name' []
  | DataList l => Expr cls name' l
  | DataExpression e =>
      match klass_of e with
      | K_Expression => Expr cls name' (data e)
      | _ => Expr cls name' [Sub e]
      end
  end.

(** The expression children of a sequence, in order. *)
Definition sub_expressions (l : list Item) : list Expression :=
  flat_map (fun d => match d with inl _ => [] | inr e => [e] end) l.

Fixpoint is_single_value (e : Expression) : pyval :=
  match e with
  | Expr k _ d =>
      match k with
      | K_SingleValueExpression | K_ConstValueExpression => PyBool true
      | _ =>
          let all_single_value :=
            flat_map (fun x => match x with
                               | inl _ => []
                               | inr s => [is_single_value s]
                               end) d in
          py_and (py_len all_single_value) (PyBool (py_all all_single_value))
      end
  end.

Fixpoint is_constant (e : Expression) : pyval :=
  match e with
  | Expr k _ d =>
      match k with
      | K_AggregateFunctionExpression | K_WindowFunctionExpression => PyBool false
      | K_ConstValueExpression => PyBool true
      | _ =>
          let all_constant :=
            flat_map (fun x => match x with
                               | inl _ => []
                               | inr s => [is_constant s]
                               end) d in
          py_and (py_len all_constant) (PyBool (py_all all_constant))
      end
  end.

Fixpoint is_independent_subquery (e : Expression) : bool :=
  match e with
  | Expr k _ d =>
      match k with
      | K_SingleValueExpression | K_ConstValueExpression =>
          let all_isq :=
            flat_map (fun x => match x with
                               | inl _ => []
                               | inr s => [is_independent_subquery s]
                               end) d in
          (0 <? length all_isq)%nat && forallb id all_isq
      | K_IndependentSubqueryExpression => true
      | _ => false
      end
  end.

Fixpoint has_aggregate_function (e : Expression) : bool :=
  match e with
  | Expr k _ d =>
      match k with
      | K_WindowFunctionExpression => false
      | _ =>
          isinstance_AggregateFunction e
          || py_any (flat_map (fun x => match x with
                                        | inl _ => []
                                        | inr s => [has_aggregate_function s]
                                        end) d)
      end
  end.

Fixpoint has_windowed_aggregate_function (e : Expression) : bool :=
  match e with
  | Expr k _ d =>
      isinstance_WindowFunction e
      || py_any (flat_map (fun x => match x with
                                    | inl _ => []
                                    | inr s => [has_windowed_aggregate_function s]
                                    end) d)
  end.

Fixpoint get_all_tokens (e : Expression) : list ExpressionToken :=
  match e with
  | Expr _ _ d =>
      flat_map (fun x => match x with
                         | inl t => [t]
                         | inr s => get_all_tokens s
                         end) d
  end.

(** A plain expression whose children are [a] and [b] in that order, with
    tokens before, between and after them. *)
Definition wrap (ts0 ts1 ts2 : list ExpressionToken) (a b : Expression) : Expression :=
  Expression_init K_Expression
    (DataList (map inl ts0 ++ [Sub a] ++ map inl ts1 ++ [Sub b] ++ map inl ts2)%list)
    None.

(** The nesting depth of an expression; [to_sql] recurses this deep. *)
Fixpoint depth (e : Expression) : nat :=
  match e with
  | Expr _ _ d =>
      S (fold_right Nat.max 0
           (map (fun x => match x with inl _ => 0 | inr s => depth s end) d))
  end.

(** [self == other] for two expressions: [self.data == other.data], the
    lists compared item by item. Tokens are frozen dataclasses (same class and
    same fields); a token never equals an expression. *)
Fixpoint Expression_eq (a b : Expression) {struct a} : bool :=
  match a, b with
  | Expr _ _ da, Expr _ _ db =>
      (fix list_eq (l1 l2 : list Item) {struct l1} : bool :=
         match l1, l2 with
         | [], [] => true
         | x :: l1', y :: l2' =>
             match x, y with
             | inl t1, inl t2 => bool_decide (t1 = t2)
             | inr s1, inr s2 => Expression_eq s1 s2
             | _, _ => false
             end && list_eq l1' l2'
         | _, _ => false
         end) da db
  end.

Definition Item_eq (x y : Item) : bool :=
  match x, y with
  | inl t1, inl t2 => bool_decide (t1 = t2)
  | inr s1, inr s2 => Expression_eq s1 s2
  | _, _ => false
  end.

(** [l1 == l2] for two lists, given the equality of the items. *)
Fixpoint list_eq {A} (eq : A -> A -> bool) (l1 l2 : list A) : bool :=
  match l1, l2 with
  | [], [] => true
  | x :: l1', y :: l2' => eq x y && list_eq eq l1' l2'
  | _, _ => false
  end.

(** The tree of an expression without the classes and names of its nodes:
    what structural equality looks at. *)
Fixpoint erase (e : Expression) : Expression :=
  match e with
  | Expr _ _ d =>
      Expr K_Expression None
        (map (fun x => match x with inl t => inl t | inr s => inr (erase s) end) d)
  end.

Section Hashing.

(** [hash] of a string, of a graph node and of a tuple of hashed items: the
    interpreter's and [sql_models]' own. *)
Variable hash_str : string -> Z.
Variable hash_model : SqlModel -> Z.
Variable hash_tuple : list Z -> Z.

(** The [__hash__] a frozen dataclass gets: the hash of the tuple of fields. *)
Definition ExpressionToken_hash (t : ExpressionToken) : Z :=
  match t with
  | RawToken raw => hash_tuple [hash_str raw]
  | PlaceHolderToken dtype name => hash_tuple [hash_str dtype; hash_str name]
  | ColumnReferenceToken column_name => hash_tuple [hash_str column_name]
  | ModelReferenceToken model => hash_tuple [hash_model model]
  | StringValueToken value => hash_tuple [hash_str value]
  | VariableStringValueToken value reference_name =>
      hash_tuple [hash_str value; hash_str reference_name]
  end.

(** [hash(self._data)] *)
Fixpoint Expression_hash (e : Expression) : Z :=
  match e with
  | Expr _ _ d =>
      hash_tuple (map (fun x => match x with
                                | inl t => ExpressionToken_hash t
                                | inr s => Expression_hash s
                                end) d)
  end.

End Hashing.

Section Sql.

(** [SqlModelSpec.escape_format_string], [quote_string] and
    [quote_identifier] of [sql_models]. *)
Variable escape_format_string : string -> string.
Variable quote_string : string -> string.
Variable quote_identifier : string -> string.

Definition name_to_sql (name : string) : string := "__bach_placeholder_" +:+ name.

Definition refname (model : SqlModel) : string := "reference" +:+ model_hash model.

Definition ExpressionToken_to_sql (t : ExpressionToken) : result string :=
  match t with
  | RawToken raw => Ok (escape_format_string raw)
  | PlaceHolderToken _ name => Ok ("{" +:+ name_to_sql name +:+ "}")
  | ColumnReferenceToken _ =>
      Raise (ValueError ("ColumnReferenceTokens should be resolved first using "
                         +:+ "Expression.resolve_column_references"))
  | ModelReferenceToken model => Ok ("{" +:+ refname model +:+ "}")
  | StringValueToken value => Ok (escape_format_string (quote_string value))
  | VariableStringValueToken value _ => Ok (escape_format_string (quote_string value))
  end.

(** [ColumnReferenceToken.resolve] *)
Definition resolve (column_name : string) (table_name : option string) : ExpressionToken :=
  let t := if str_truthy table_name
           then quote_identifier (default EmptyString table_name) +:+ "."
           else EmptyString in
  RawToken (t +:+ quote_identifier column_name).

Fixpoint resolve_column_references (e : Expression) (table_name : option string)
    : Expression :=
  match e with
  | Expr k _ d =>
      Expression_init k
        (DataList
           (map (fun data_item =>
                   match data_item with
                   | inr s => inr (resolve_column_references s table_name)
                   | inl (ColumnReferenceToken c) => inl (resolve c table_name)
                   | inl t => inl t
                   end) d))
        None
  end.

(** What [resolve_column_references] does to one token and to one item. *)
Definition resolve_token (table_name : option string) (t : ExpressionToken)
    : ExpressionToken :=
  match t with
  | ColumnReferenceToken c => resolve c table_name
  | _ => t
  end.

Definition resolve_item (table_name : option string) (x : Item) : Item :=
  match x with
  | inl t => inl (resolve_token table_name t)
  | inr s => inr (resolve_column_references s table_name)
  end.

Definition is_column_reference (t : ExpressionToken) : bool :=
  match t with ColumnReferenceToken _ => true | _ => false end.

(** [to_sql], with the recursion depth made explicit. *)
Fixpoint to_sql_rec (fuel : nat) (e : Expression) (table_name : option string)
    : result string :=
  match fuel with
  | 0 => Raise RecursionError
  | S fuel' =>
      join <$> mapM (fun d => match d with
                              | inl t => ExpressionToken_to_sql t
                              | inr s => to_sql_rec fuel' s None
                              end)
                    (data (resolve_column_references e table_name))
  end.

Definition to_sql (e : Expression) (table_name : option string) : result string :=
  to_sql_rec (depth e) e table_name.

(** One step of the loop of [construct]. *)
Definition construct_step (args : list Expression) (i : nat) (sub_str : string)
    (data : list Item) : list Item :=
  let data1 :=
    if (0 <? i)%nat then
      match args !! (i - 1)%nat with
      | Some arg_expr =>
          if isinstance_NonAtomic arg_expr
          then (data ++ [Tok (RawToken "("); Sub arg_expr; Tok (RawToken ")")])%list
          else (data ++ [Sub arg_expr])%list
      | None => data
      end
    else data in
  if bool_decide (sub_str = EmptyString) then data1
  else (data1 ++ [Tok (RawToken sub_str)])%list.

Fixpoint construct_loop (args : list Expression) (i : nat) (sub_strs : list string)
    (data : list Item) : list Item :=
  match sub_strs with
  | [] => data
  | sub_str :: rest => construct_loop args (S i) rest (construct_step args i sub_str data)
  end.

(** The items an argument and a literal segment contribute to [data]; the
    loop of [construct] is shown to interleave them. *)
Definition arg_items (a : Expression) : list Item :=
  if isinstance_NonAtomic a
  then [Tok (RawToken "("); Sub a; Tok (RawToken ")")]
  else [Sub a].

Definition segment_items (s : string) : list Item :=
  if bool_decide (s = EmptyString) then [] else [Tok (RawToken s)].

Fixpoint weave (segs : list string) (args : list Expression) : list Item :=
  match segs, args with
  | s :: segs', a :: args' => arg_items a ++ segment_items s ++ weave segs' args'
  | _, _ => []
  end.

(** [cls.construct(fmt, *args)]; a Series argument is passed as its
    expression. *)
Definition construct (cls : ExpressionClass) (fmt : string) (args : list Expression)
    : result Expression :=
  let sub_strs := split_braces fmt in
  if bool_decide (length args ≠ (length sub_strs - 1)%nat) then
    Raise (ValueError
             ("For each {} in the fmt there should be an Expression provided. "
              +:+ "Found {}: " +:+ str_of_nat (length sub_strs - 1)
              +:+ ", provided expressions: " +:+ str_of_nat (length args)))
  else
    Ok (Expression_init cls (DataList (construct_loop args 0 sub_strs [])) None).

Definition raw (cls : ExpressionClass) (s : string) : Expression :=
  Expression_init cls (DataList [Tok (RawToken s)]) None.
Definition placeholder (cls : ExpressionClass) (dtype name : string) : Expression :=
  Expression_init cls (DataList [Tok (PlaceHolderToken dtype name)]) None.
Definition string_value (cls : ExpressionClass) (value : string) : Expression :=
  Expression_init cls (DataList [Tok (StringValueToken value)]) None.
Definition column_reference (cls : ExpressionClass) (field_name : string) : Expression :=
  Expression_init cls (DataList [Tok (ColumnReferenceToken field_name)]) None.
Definition model_reference (cls : ExpressionClass) (model : SqlModel) : Expression :=
  Expression_init cls (DataList [Tok (ModelReferenceToken model)]) None.

(** The text of a token once column references are resolved against
    [table_name]. *)
Definition resolved_token_text (table_name : option string) (t : ExpressionToken)
    : string :=
  match t with
  | RawToken raw => escape_format_string raw
  | PlaceHolderToken _ name => "{" +:+ name_to_sql name +:+ "}"
  | ColumnReferenceToken c =>
      match resolve c table_name with
      | RawToken raw => escape_format_string raw
      | _ => EmptyString
      end
  | ModelReferenceToken model => "{" +:+ refname model +:+ "}"
  | StringValueToken value => escape_format_string (quote_string value)
  | VariableStringValueToken value _ => escape_format_string (quote_string value)
  end.

(** The SQL text of an expression, depth first and left to right: what
    [to_sql] is shown to return. *)
Fixpoint render (table_name : option string) (e : Expression) : string :=
  match e with
  | Expr _ _ d =>
      join (map (fun x => match x with
                          | inl t => resolved_token_text table_name t
                          | inr s => render table_name s
                          end) d)
  end.

(** The text an argument of [construct] contributes: its own text, between
    parentheses when it is a [NonAtomicExpression]. *)
Definition arg_text (table_name : option string) (a : Expression) : string :=
  if isinstance_NonAtomic a
  then escape_format_string "(" +:+ render table_name a +:+ escape_format_string ")"
  else render table_name a.

(** The text of a literal segment of the format string. *)
Definition segment_text (s : string) : string :=
  if bool_decide (s = EmptyString) then EmptyString else escape_format_string s.

(** Arguments and the segments that follow them, interleaved. *)
Fixpoint weave_text (table_name : option string) (segs : list string)
    (args : list Expression) : string :=
  match segs, args with
  | s :: segs', a :: args' =>
      arg_text table_name a +:+ segment_text s +:+ weave_text table_name segs' args'
  | _, _ => EmptyString
  end.

(** The text of [construct(fmt, *args)]: the first segment, then each
    argument followed by its segment. *)
Definition construct_text (table_name : option string) (segs : list string)
    (args : list Expression) : string :=
  match segs with
  | s0 :: rest => segment_text s0 +:+ weave_text table_name rest args
  | [] => EmptyString
  end.

End Sql.


(** ** bach/series *)

(** The engine, as far as this code reads it: its [url]. *)
Record Engine : Type := mkEngine { url : string }.

#[global] Instance Engine_eq_dec : EqDecision Engine.
Proof. solve_decision. Defined.

(** The class of a Series object. [SeriesBoolean] and [SeriesUuid] are the
    classes of these sources; [SeriesOther dtype] stands for a class of the
    type registry with that dtype that inherits every operation from
    [Series]. *)
Inductive SeriesClass : Type :=
| SeriesBoolean
| SeriesUuid
| SeriesOther (dtype : string).

#[global] Instance SeriesClass_eq_dec : EqDecision SeriesClass.
Proof. solve_decision. Defined.

(** [cls.dtype] *)
Definition class_dtype (c : SeriesClass) : string :=
  match c with
  | SeriesBoolean => "bool"
  | SeriesUuid => "uuid"
  | SeriesOther d => d
  end.

(** Modelled from the spec: the type registry maps a type name to the column
    implementation that handles it; [bool] and its aliases and [uuid] are
    handled by the classes of these sources. *)
Definition get_series_type_from_dtype (dtype : string) : SeriesClass :=
  if bool_decide (dtype = "bool") || bool_decide (dtype = "boolean")
     || bool_decide (dtype = "?")
  then SeriesBoolean
  else if bool_decide (dtype = "uuid") then SeriesUuid
  else SeriesOther dtype.

(** [f'{cls}'] for a Series class, as it appears in messages; for a class
    outside these sources the dtype stands for the class. *)
Definition class_repr (c : SeriesClass) : string :=
  match c with
  | SeriesBoolean => "<class 'bach.series.series_boolean.SeriesBoolean'>"
  | SeriesUuid => "<class 'bach.series.series_uuid.SeriesUuid'>"
  | SeriesOther d => "<class 'Series[" +:+ d +:+ "]'>"
  end.

(** A Series object, and the grouping it may carry. Modelled from the spec
    for [GroupBy] and [Window] of [bach.partitioning]: a grouping has the
    index it groups by, and a [Window], which is a [GroupBy], has in addition
    its minimum number of rows [min_values]. *)
#[local] Unset Elimination Schemes.
Inductive Series : Type :=
| mkSeries (series_class : SeriesClass) (_engine : Engine) (_base_node : SqlModel)
    (_index : list (string * Series)) (_name : string) (_expression : Expression)
    (_group_by : option GroupBy) (_sorted_ascending : option bool)
with GroupBy : Type :=
| mkGroupBy (gb_index : list (string * Series)) (window : option (option Z)).
#[local] Set Elimination Schemes.

Definition series_class (s : Series) : SeriesClass :=
  match s with mkSeries c _ _ _ _ _ _ _ => c end.
Definition engine (s : Series) : Engine :=
  match s with mkSeries _ e _ _ _ _ _ _ => e end.
Definition base_node (s : Series) : SqlModel :=
  match s with mkSeries _ _ b _ _ _ _ _ => b end.
Definition index (s : Series) : list (string * Series) :=
  match s with mkSeries _ _ _ i _ _ _ _ => i end.
Definition name (s : Series) : string :=
  match s with mkSeries _ _ _ _ n _ _ _ => n end.
Definition expression (s : Series) : Expression :=
  match s with mkSeries _ _ _ _ _ e _ _ => e end.
Definition group_by (s : Series) : option GroupBy :=
  match s with mkSeries _ _ _ _ _ _ g _ => g end.
Definition sorted_ascending (s : Series) : option bool :=
  match s with mkSeries _ _ _ _ _ _ _ a => a end.
Definition dtype (s : Series) : string := class_dtype (series_class s).

Definition GroupBy_index (g : GroupBy) : list (string * Series) :=
  match g with mkGroupBy i _ => i end.

(** [isinstance(g, Window)] and [g.min_values] *)
Definition is_Window (g : GroupBy) : bool :=
  match g with mkGroupBy _ (Some _) => true | _ => false end.
Definition min_values (g : GroupBy) : option Z :=
  match g with mkGroupBy _ (Some mv) => mv | _ => None end.

(** What is passed where a partition is expected: a grouping, or a DataFrame,
    which is read for its [group_by]. *)
Inductive WrappedPartition : Type :=
| WrapGroupBy (g : GroupBy)
| WrapDataFrame (df_group_by : option GroupBy).

(** The right-hand side of an operation: a Series or a constant. *)
Inductive Value : Type :=
| VSeries (s : Series)
| VBool (b : bool).

(** The [dtype] argument of [_binary_operation]: nothing, a type name, or a
    dictionary from the dtype of the right-hand side to the type name. *)
Inductive DtypeArg : Type :=
| DtypeNone
| DtypeStr (d : string)
| DtypeDict (table : list (string * string)).

(** The binary operators of a Series. *)
Inductive BinOp : Type :=
| Op_add | Op_sub | Op_truediv | Op_floordiv | Op_mul | Op_mod | Op_pow
| Op_lshift | Op_rshift
| Op_and | Op_xor | Op_or
| Op_ne | Op_eq | Op_lt | Op_le | Op_ge | Op_gt.

(** [table[key]] when [key in table]. *)
Fixpoint assoc_get (key : string) (table : list (string * string)) : option string :=
  match table with
  | [] => None
  | (k, v) :: rest => if bool_decide (key = k) then Some v else assoc_get key rest
  end.

Section SeriesOps.

(** [GroupBy.__eq__], [Window.get_window_expression] and
    [GroupBy.get_dummy_index_series] of [bach.partitioning]. *)
Variable GroupBy_eq : GroupBy -> GroupBy -> bool.
Variable get_window_expression : GroupBy -> Expression -> Expression.
Variable get_dummy_index_series : Engine -> SqlModel -> Series.

(** [GroupBy(group_by_columns)]: the index is keyed by the names. *)
Definition GroupBy_init (group_by_columns : list Series) : GroupBy :=
  mkGroupBy (map (fun s => (name s, s)) group_by_columns) None.

(** [copy_override]: an argument that is [None] keeps the field; [group_by]
    is given inside a list, so that it can be set to [None]. *)
Definition copy_override (self : Series) (dtype' : option string)
    (engine' : option Engine) (base_node' : option SqlModel)
    (index' : option (list (string * Series))) (name' : option string)
    (expression' : option Expression) (group_by' : option (option GroupBy))
    (sorted_ascending' : option bool) : Series :=
  let klass := match dtype' with
               | None => series_class self
               | Some d => get_series_type_from_dtype d
               end in
  mkSeries klass
    (default (engine self) engine')
    (default (base_node self) base_node')
    (default (index self) index')
    (default (name self) name')
    (default (expression self) expression')
    (default (group_by self) group_by')
    (match sorted_ascending' with
     | None => sorted_ascending self
     | Some a => Some a
     end).

(** [SeriesBoolean.value_to_expression] for a boolean. *)
Definition SeriesBoolean_value_to_expression (value : bool) : Expression :=
  raw K_Expression (str_of_bool value).

(** [const_to_series]: a Series is returned as it is; a boolean becomes a
    [SeriesBoolean] on the base of [base], named [__tmp]. *)
Definition const_to_series (base : Series) (value : Value) : Series :=
  match value with
  | VSeries s => s
  | VBool b =>
      mkSeries SeriesBoolean (engine base) (base_node base) (index base) "__tmp"
        (SeriesBoolean_value_to_expression b) None None
  end.

(** [other.__class__] and [other.dtype] for the right-hand side as given. *)
Definition value_class_repr (v : Value) : string :=
  match v with
  | VSeries s => class_repr (series_class s)
  | VBool _ => "<class 'bool'>"
  end.

Definition value_dtype (v : Value) : result string :=
  match v with
  | VSeries s => Ok (dtype s)
  | VBool _ => Raise (AttributeError "'bool' object has no attribute 'dtype'")
  end.

Definition _get_supported (self : Series) (operation_name : string)
    (supported_dtypes : list string) (other : Series) : result Series :=
  if negb (bool_decide (base_node self = base_node other)) then
    Raise (ValueError
             ("Cannot apply " +:+ operation_name
              +:+ " on two series with different base_node. "
              +:+ "Hint: make sure both series belong to or are derived from the same "
              +:+ "DataFrame. "
              +:+ "Alternative: use merge() to create a DataFrame with both series. "))
  else if negb (bool_decide (lower (dtype other) ∈ supported_dtypes)) then
    Raise (TypeError (operation_name +:+ " not supported between " +:+ dtype self
                      +:+ " and " +:+ dtype other +:+ "."))
  else Ok other.

Definition _binary_operation (self : Series) (other : Value) (operation : string)
    (fmt_str : string) (other_dtypes : list string) (dtype' : DtypeArg)
    : result Series :=
  if bool_decide (length other_dtypes = 0%nat) then
    Raise (NotImplementedError
             ("binary operation " +:+ operation +:+ " not supported for "
              +:+ class_repr (series_class self) +:+ " and " +:+ value_class_repr other))
  else
    let other := const_to_series self other in
    other ← _get_supported self operation other_dtypes other;
    expression' ← construct K_Expression fmt_str [expression self; expression other];
    let dtype'' :=
      match dtype' with
      | DtypeNone => None
      | DtypeStr d => Some d
      | DtypeDict table => assoc_get (dtype other) table
      end in
    Ok (copy_override self dtype'' None None None None (Some expression') None None).

Definition _arithmetic_operation (self : Series) (other : Value) (operation : string)
    (fmt_str : string) (other_dtypes : list string) (dtype' : DtypeArg)
    : result Series :=
  if bool_decide (length other_dtypes = 0%nat) then
    Raise (NotImplementedError
             ("arithmetic operation " +:+ operation +:+ " not supported for "
              +:+ class_repr (series_class self) +:+ " and " +:+ value_class_repr other))
  else _binary_operation self other operation fmt_str other_dtypes dtype'.

(** [Series._comparator_operation] *)
Definition Series_comparator_operation (self : Series) (other : Value)
    (comparator : string) (other_dtypes : list string) : result Series :=
  if bool_decide (length other_dtypes = 0%nat) then
    Raise (NotImplementedError
             ("comparator " +:+ comparator +:+ " not supported for "
              +:+ class_repr (series_class self) +:+ " and " +:+ value_class_repr other))
  else
    _binary_operation self other ("comparator '" +:+ comparator +:+ "'")
      ("({}) " +:+ comparator +:+ " ({})") other_dtypes (DtypeStr "bool").

(** [SeriesUuid._comparator_operation] *)
Definition SeriesUuid_comparator_operation (self : Series) (other : Value)
    (comparator : string) (other_dtypes : list string) : result Series :=
  let other := const_to_series self other in
  other ← _get_supported self ("comparator '" +:+ comparator +:+ "'") other_dtypes other;
  expression' ←
    (if bool_decide (dtype other = "uuid")
     then construct K_Expression ("({}) " +:+ comparator +:+ " ({})")
            [expression self; expression other]
     else construct K_Expression ("({}) " +:+ comparator +:+ " (cast({} as uuid))")
            [expression self; expression other]);
  Ok (copy_override self (Some "bool") None None None None (Some expression') None None).

(** [_comparator_operation] as the class of [self] defines it, with the
    default [other_dtypes] of that class. *)
Definition _comparator_operation (self : Series) (other : Value) (comparator : string)
    : result Series :=
  match series_class self with
  | SeriesBoolean => Series_comparator_operation self other comparator ["bool"]
  | SeriesUuid => SeriesUuid_comparator_operation self other comparator ["uuid"; "string"]
  | SeriesOther _ => Series_comparator_operation self other comparator []
  end.

(** [SeriesBoolean._boolean_operator], with its default [other_dtypes]. *)
Definition _boolean_operator (self : Series) (other : Value) (operator : string)
    : result Series :=
  other_dtype ← value_dtype other;
  let fmt_str :=
    if negb (bool_decide (other_dtype = "bool"))
    then "({}) " +:+ operator +:+ " cast({} as bool)"
    else "({}) " +:+ operator +:+ " ({})" in
  _binary_operation self other ("boolean operator '" +:+ operator +:+ "'") fmt_str
    ["bool"] (DtypeStr "bool").

(** The arithmetic operators of [Series]. *)
Definition __add__ (self : Series) (other : Value) : result Series :=
  _arithmetic_operation self other "add" "({}) + ({})" [] DtypeNone.
Definition __sub__ (self : Series) (other : Value) : result Series :=
  _arithmetic_operation self other "sub" "({}) - ({})" [] DtypeNone.
Definition __truediv__ (self : Series) (other : Value) : result Series :=
  _arithmetic_operation self other "div" "({}) / ({})" [] DtypeNone.
Definition __floordiv__ (self : Series) (other : Value) : result Series :=
  _arithmetic_operation self other "floordiv" "floor(({}) / ({}))" [] (DtypeStr "int64").
Definition __mul__ (self : Series) (other : Value) : result Series :=
  _arithmetic_operation self other "mul" "({}) * ({})" [] DtypeNone.

(** [self - self // other * other] *)
Definition __mod__ (self : Series) (other : Value) : result Series :=
  q ← __floordiv__ self other;
  p ← __mul__ q other;
  __sub__ self (VSeries p).

Definition __pow__ (self : Series) (other : Value) : result Series :=
  _arithmetic_operation self other "pow" "POWER({}, {})" [] DtypeNone.

Definition __lshift__ (self : Series) (other : Value) : result Series :=
  Raise (NotImplementedError EmptyString).
Definition __rshift__ (self : Series) (other : Value) : result Series :=
  Raise (NotImplementedError EmptyString).

(** The boolean operators: those of [SeriesBoolean], and those of [Series]
    for the other classes. *)
Definition __and__ (self : Series) (other : Value) : result Series :=
  match series_class self with
  | SeriesBoolean => _boolean_operator self other "AND"
  | _ => Raise (NotImplementedError EmptyString)
  end.
Definition __or__ (self : Series) (other : Value) : result Series :=
  match series_class self with
  | SeriesBoolean => _boolean_operator self other "OR"
  | _ => Raise (NotImplementedError EmptyString)
  end.
Definition __xor__ (self : Series) (other : Value) : result Series :=
  match series_class self with
  | SeriesBoolean => _boolean_operator self other "!="
  | _ => Raise (NotImplementedError EmptyString)
  end.

(** The comparators. *)
Definition __ne__ (self : Series) (other : Value) : result Series :=
  _comparator_operation self other "<>".
Definition __eq__ (self : Series) (other : Value) : result Series :=
  _comparator_operation self other "=".
Definition __lt__ (self : Series) (other : Value) : result Series :=
  _comparator_operation self other "<".
Definition __le__ (self : Series) (other : Value) : result Series :=
  _comparator_operation self other "<=".
Definition __ge__ (self : Series) (other : Value) : result Series :=
  _comparator_operation self other ">=".
Definition __gt__ (self : Series) (other : Value) : result Series :=
  _comparator_operation self other ">".

(** [self op other] *)
Definition binary_operation (op : BinOp) (self : Series) (other : Value) : result Series :=
  match op with
  | Op_add => __add__ self other
  | Op_sub => __sub__ self other
  | Op_truediv => __truediv__ self other
  | Op_floordiv => __floordiv__ self other
  | Op_mul => __mul__ self other
  | Op_mod => __mod__ self other
  | Op_pow => __pow__ self other
  | Op_lshift => __lshift__ self other
  | Op_rshift => __rshift__ self other
  | Op_and => __and__ self other
  | Op_xor => __xor__ self other
  | Op_or => __or__ self other
  | Op_ne => __ne__ self other
  | Op_eq => __eq__ self other
  | Op_lt => __lt__ self other
  | Op_le => __le__ self other
  | Op_ge => __ge__ self other
  | Op_gt => __gt__ self other
  end.

(** The name under which an operator reports itself, and whether the class
    of the left-hand side gives it a list of acceptable right-hand dtypes. *)
Definition comparator_of (op : BinOp) : option string :=
  match op with
  | Op_ne => Some "<>"
  | Op_eq => Some "="
  | Op_lt => Some "<"
  | Op_le => Some "<="
  | Op_ge => Some ">="
  | Op_gt => Some ">"
  | _ => None
  end.

Definition boolean_operator_of (op : BinOp) : option string :=
  match op with
  | Op_and => Some "AND"
  | Op_or => Some "OR"
  | Op_xor => Some "!="
  | _ => None
  end.

Definition operation_name (c : SeriesClass) (op : BinOp) : option string :=
  match c, comparator_of op, boolean_operator_of op with
  | SeriesBoolean, Some cmp, _ => Some ("comparator '" +:+ cmp +:+ "'")
  | SeriesUuid, Some cmp, _ => Some ("comparator '" +:+ cmp +:+ "'")
  | SeriesBoolean, _, Some bop => Some ("boolean operator '" +:+ bop +:+ "'")
  | _, _, _ => None
  end.

(** The message of the error that [_get_supported] raises for two series
    with different base nodes. *)
Definition different_base_node_message (operation_name : string) : string :=
  "Cannot apply " +:+ operation_name
  +:+ " on two series with different base_node. "
  +:+ "Hint: make sure both series belong to or are derived from the same "
  +:+ "DataFrame. "
  +:+ "Alternative: use merge() to create a DataFrame with both series. ".

(** [_check_unwrap_groupby]; [isin] is [GroupBy] by default or [Window], and
    [notin] is nothing or [Window]. *)
Definition _check_unwrap_groupby (wrapped : option WrappedPartition)
    (isin_Window : bool) (notin_Window : bool) : result GroupBy :=
  let group_by :=
    match wrapped with
    | Some (WrapDataFrame g) => g
    | Some (WrapGroupBy g) => Some g
    | None => None
    end in
  match group_by with
  | None =>
      Raise (ValueError ("group_by <class 'NoneType'> not in "
                         +:+ (if isin_Window then "<class 'bach.partitioning.Window'>"
                              else "<class 'bach.partitioning.GroupBy'>")))
  | Some g =>
      if isin_Window && negb (is_Window g) then
        Raise (ValueError ("group_by <class 'bach.partitioning.GroupBy'> not in "
                           +:+ "<class 'bach.partitioning.Window'>"))
      else if notin_Window && is_Window g then
        Raise (ValueError "group_by <class 'bach.partitioning.Window'> not supported")
      else Ok g
  end.

(** [str(v)] for an optional integer. *)
Definition str_of_option_Z (v : option Z) : string :=
  match v with
  | Some n => str_of_Z n
  | None => "None"
  end.

(** The steps of [_derived_agg_func], in the order of the source. First the
    expression: a function name [f] (here [inl f]) stands for [f({})] applied
    to the series. *)
Definition agg_expression (self : Series) (expression' : string + Expression)
    : result Expression :=
  match expression' with
  | inl fname => construct K_Expression (fname +:+ "({})") [expression self]
  | inr e => Ok e
  end.

(** Then the partition: the one given, unwrapped, or the grouping of the
    series, or a grouping of the whole relation. *)
Definition agg_partition (self : Series) (partition : option WrappedPartition)
    : result GroupBy :=
  match partition with
  | None =>
      match group_by self with
      | Some g => Ok g
      | None => Ok (GroupBy_init [get_dummy_index_series (engine self) (base_node self)])
      end
  | Some _ => _check_unwrap_groupby partition false false
  end.

(** Then [min_count]; [count] is [self.count]. *)
Definition agg_min_count
    (count : Series -> option WrappedPartition -> bool -> result Series)
    (self : Series) (partition : GroupBy) (expression' : Expression) (skipna : bool)
    (min_count : option Z) : result Expression :=
  match min_count with
  | Some n =>
      if (0 <? n)%Z then
        if is_Window partition then
          if negb (bool_decide (min_values partition = Some n)) then
            Raise (NotImplementedError
                     ("min_count conflicting with min_values in Window"
                      +:+ str_of_Z n +:+ " != "
                      +:+ str_of_option_Z (min_values partition)))
          else Ok expression'
        else
          c ← count self (Some (WrapGroupBy partition)) skipna;
          construct K_Expression
            ("CASE WHEN {} >= " +:+ str_of_Z n +:+ " THEN {} ELSE NULL END")
            [expression c; expression']
      else Ok expression'
  | None => Ok expression'
  end.

(** And the derived series. *)
Definition agg_result (self : Series) (partition : GroupBy) (expression' : Expression)
    (dtype' : option string) : result Series :=
  let derived_dtype := default (dtype self) dtype' in
  if negb (is_Window partition) then
    if match group_by self with
       | Some g => negb (GroupBy_eq g partition)
       | None => false
       end
    then Raise (ValueError "passed partition does not match series partition. I'm confused")
    else
      Ok (copy_override self (Some derived_dtype) None None
            (Some (GroupBy_index partition)) None (Some expression')
            (Some (Some partition)) None)
  else
    Ok (copy_override self (Some derived_dtype) None None None None
          (Some (get_window_expression partition expression')) None None).

(** The body of [_derived_agg_func], given [self.count]. *)
Definition _derived_agg_func_body
    (count : Series -> option WrappedPartition -> bool -> result Series)
    (self : Series) (partition : option WrappedPartition)
    (expression' : string + Expression) (dtype' : option string) (skipna : bool)
    (min_count : option Z) : result Series :=
  if negb skipna then Raise (NotImplementedError "Not skipping n/a is not supported")
  else
    expression1 ← agg_expression self expression';
    partition1 ← agg_partition self partition;
    expression2 ← agg_min_count count self partition1 expression1 skipna min_count;
    agg_result self partition1 expression2 dtype'.

(** [count] never passes a [min_count], so the call it makes does not come
    back to [count]. *)
Definition count (self : Series) (partition : option WrappedPartition) (skipna : bool)
    : result Series :=
  _derived_agg_func_body (fun _ _ _ => Raise RecursionError)
    self partition (inl "count") (Some "int64") skipna None.

Definition _derived_agg_func (self : Series) (partition : option WrappedPartition)
    (expression' : string + Expression) (dtype' : option string) (skipna : bool)
    (min_count : option Z) : result Series :=
  _derived_agg_func_body count self partition expression' dtype' skipna min_count.

(** The expression of [self.count(partition)]. *)
Definition count_expression (self : Series) : Expression :=
  Expr K_Expression None
    ([Tok (RawToken "count(")] ++ arg_items (expression self) ++ [Tok (RawToken ")")]).

(** The expression that enforces a positive [min_count] over a grouping:
    [CASE WHEN <count> >= n THEN <expression> ELSE NULL END]. *)
Definition min_count_expression (self : Series) (e : Expression) (n : Z) : Expression :=
  Expr K_Expression None
    ([Tok (RawToken "CASE WHEN ")] ++ arg_items (count_expression self)
     ++ [Tok (RawToken (" >= " +:+ str_of_Z n +:+ " THEN "))]
     ++ arg_items e ++ [Tok (RawToken " ELSE NULL END")]).

(** Whether the grouping that the series carries, if any, is [g]. *)
Definition grouping_matches (self : Series) (g : GroupBy) : bool :=
  match group_by self with
  | Some g' => GroupBy_eq g' g
  | None => true
  end.

End SeriesOps.

(** ** Python dictionaries

    A [dict] with string keys keeps its items in insertion order; assigning
    to a key that is present replaces the value where it stands. *)

Module Dict.

Section Dict.

Context {V : Type}.

Fixpoint get (k : string) (d : list (string * V)) : option V :=
  match d with
  | [] => None
  | (k', v) :: d' => if decide (k = k') then Some v else get k d'
  end.

Fixpoint set (k : string) (v : V) (d : list (string * V)) : list (string * V) :=
  match d with
  | [] => [(k, v)]
  | (k', v') :: d' =>
      if decide (k = k') then (k, v) :: d' else (k', v') :: set k v d'
  end.

Fixpoint del (k : string) (d : list (string * V)) : list (string * V) :=
  match d with
  | [] => []
  | (k', v') :: d' => if decide (k = k') then d' else (k', v') :: del k d'
  end.

Definition keys (d : list (string * V)) : list string := map fst d.
Definition values (d : list (string * V)) : list V := map snd d.

End Dict.

End Dict.

(** ** bach/savepoints.py *)

(** Modelled from the spec: the materialization kinds of [sql_models],
    [QUERY], [TABLE], [VIEW] and the virtual node. *)
Inductive Materialization : Type :=
| QUERY
| TABLE
| VIEW
| VIRTUAL_NODE.

#[global] Instance Materialization_eq_dec : EqDecision Materialization.
Proof. solve_decision. Defined.

(** [re.match('^[a-zA-Z0-9_]+$', name)]: one or more characters of the class,
    up to the end of the string or up to a newline that ends the string. *)
Definition is_name_char (c : Ascii.ascii) : bool :=
  let n := nat_of_ascii c in
  ((97 <=? n) && (n <=? 122) || (65 <=? n) && (n <=? 90)
   || (48 <=? n) && (n <=? 57) || (n =? 95))%nat.

Fixpoint match_name_tail (s : string) : bool :=
  match s with
  | EmptyString => true
  | String c tl =>
      if is_name_char c then match_name_tail tl
      else (nat_of_ascii c =? 10)%nat && bool_decide (tl = EmptyString)
  end.

Definition re_match_name (s : string) : bool :=
  match s with
  | EmptyString => false
  | String c tl => is_name_char c && match_name_tail tl
  end.

(** The names that [re.match] accepts: a non-empty run of characters of the
    class, optionally followed by one final newline. *)
Fixpoint all_name_chars (s : string) : bool :=
  match s with
  | EmptyString => true
  | String c tl => is_name_char c && all_name_chars tl
  end.

(** A reference of the combined graph: the node it refers to, and the
    materialization and materialization name set on its path. *)
Record Reference : Type := mkReference {
  ref_node : SqlModel;
  ref_materialization_name : option string;
  ref_materialization : option Materialization
}.

(** The virtual node that [_get_virtual_node] instantiates. *)
Record VirtualNode : Type := mkVirtualNode {
  node_name : string;
  node_sql : string;
  node_materialization : Materialization;
  node_references : list (string * Reference)
}.

Record CreatedObject : Type := mkCreatedObject {
  created_name : string;
  created_materialization : Materialization
}.

Section Savepoints.

(** The DataFrame of [bach], with its [==], [copy()] and [base_node]. *)
Variable DataFrame : Type.
Variable DataFrame_eq : DataFrame -> DataFrame -> bool.
Variable DataFrame_copy : DataFrame -> DataFrame.
Variable base_node : DataFrame -> SqlModel.

(** [quote_identifier] and [to_sql_materialized_nodes] of [sql_models]: the
    latter gives, for the combined graph, the SQL of every materialized node
    keyed by materialization name, dependencies first. *)
Variable quote_identifier : string -> string.
Variable to_sql_materialized_nodes : VirtualNode -> bool -> list (string * string).

(** The database behind a connection: executing a statement inside the open
    transaction gives the rows and the new state, or raises. *)
Variable Database : Type.
Variable Row : Type.
Variable conn_execute : Database -> string -> result (Database * list Row).

Record SavepointEntry : Type := mkSavepointEntry {
  name_ : string;
  df_original : DataFrame;
  materialization : Materialization;
  written_to_db : gset string
}.

Record SqlExecutionResult : Type := mkSqlExecutionResult {
  created : list CreatedObject;
  data_ : list (string * list Row)
}.

(** A [Savepoints] object is its [_entries] dictionary. *)
Definition Savepoints : Type := list (string * SavepointEntry).

Definition Savepoints_init : Savepoints := [].

(** [existing.df_original != df or existing.materialization != materialization] *)
Definition differs (existing : SavepointEntry) (df : DataFrame) (m : Materialization)
    : bool :=
  negb (DataFrame_eq (df_original existing) df)
  || negb (bool_decide (materialization existing = m)).

Definition add_savepoint (self : Savepoints) (name : option string) (df : DataFrame)
    (materialization : Materialization) : Savepoints * result unit :=
  match name with
  | None =>
      (self, Raise (ValueError ("Name must match ^[a-zA-Z0-9_]+$, name: "
                                +:+ dq +:+ "None" +:+ dq)))
  | Some name =>
      if negb (re_match_name name) then
        (self, Raise (ValueError ("Name must match ^[a-zA-Z0-9_]+$, name: "
                                  +:+ dq +:+ name +:+ dq)))
      else
        match Dict.get name self with
        | Some existing =>
            if differs existing df materialization then
              (self, Raise (ValueError ("A different savepoint with the name "
                                        +:+ dq +:+ name +:+ dq
                                        +:+ " already exists.")))
            else (self, Ok ())
        | None =>
            (Dict.set name
               (mkSavepointEntry name (DataFrame_copy df) materialization ∅) self,
             Ok ())
        end
  end.

Definition update_savepoint (self : Savepoints) (name : string)
    (materialization' : Materialization) : Savepoints * result unit :=
  match Dict.get name self with
  | None => (self, Raise (KeyError name))
  | Some current =>
      if bool_decide (materialization current = materialization') then (self, Ok ())
      else
        (Dict.set name
           (mkSavepointEntry (name_ current) (df_original current) materialization' ∅)
           self,
         Ok ())
  end.

Definition remove_savepoint (self : Savepoints) (name : string)
    : Savepoints * result unit :=
  match Dict.get name self with
  | None => (self, Raise (KeyError name))
  | Some _ => (Dict.del name self, Ok ())
  end.

Definition get_df (self : Savepoints) (savepoint_name : string) : result DataFrame :=
  match Dict.get savepoint_name self with
  | None => Raise (KeyError savepoint_name)
  | Some info => Ok (DataFrame_copy (df_original info))
  end.

(** One step of the loop of [merge]. *)
Definition merge_step (self : Savepoints) (item : string * SavepointEntry)
    : Savepoints * result unit :=
  let '(name, entry) := item in
  match Dict.get name self with
  | Some existing =>
      if differs existing (df_original entry) (materialization entry) then
        (self, Raise (ValueError ("Conflicting savepoints. The savepoint " +:+ dq
                                  +:+ name +:+ dq +:+ " exists in both "
                                  +:+ "Savepoints objects, but is different.")))
      else
        (Dict.set name
           (mkSavepointEntry (name_ existing) (df_original existing)
              (materialization existing)
              (written_to_db existing ∪ written_to_db entry))
           self,
         Ok ())
  | None =>
      (Dict.set name
         (mkSavepointEntry name (DataFrame_copy (df_original entry))
            (materialization entry) (written_to_db entry))
         self,
       Ok ())
  end.

Fixpoint merge_loop (self : Savepoints) (items : list (string * SavepointEntry))
    : Savepoints * result unit :=
  match items with
  | [] => (self, Ok ())
  | item :: rest =>
      match merge_step self item with
      | (self', Ok _) => merge_loop self' rest
      | (self', Raise e) => (self', Raise e)
      end
  end.

Definition merge (self other : Savepoints) : Savepoints * result unit :=
  merge_loop self other.

Definition all (self : Savepoints) : list SavepointEntry := Dict.values self.

Definition names (self : Savepoints) : list string := map name_ (Dict.values self).

(** [_get_virtual_node]: the SQL is [select * from {{ref_a}}, {{ref_b}}, ...]. *)
Definition _get_virtual_node (references : list (string * SqlModel)) : VirtualNode :=
  let reference_sql :=
    join_with ", " (map (fun ref_name => "{{" +:+ ref_name +:+ "}}")
                      (Dict.keys references)) in
  mkVirtualNode "virtual_node" ("select * from " +:+ reference_sql) VIRTUAL_NODE
    (map (fun '(k, m) => (k, mkReference m None None)) references).

(** [graph.set_materialization_name(path, name)] and
    [graph.set_materialization(path, m)] for a path of one reference. *)
Definition set_materialization_name (graph : VirtualNode) (ref_key : string)
    (materialization_name : string) : VirtualNode :=
  mkVirtualNode (node_name graph) (node_sql graph) (node_materialization graph)
    (map (fun '(k, r) =>
            if decide (k = ref_key)
            then (k, mkReference (ref_node r) (Some materialization_name)
                       (ref_materialization r))
            else (k, r))
       (node_references graph)).

Definition set_materialization (graph : VirtualNode) (ref_key : string)
    (m : Materialization) : VirtualNode :=
  mkVirtualNode (node_name graph) (node_sql graph) (node_materialization graph)
    (map (fun '(k, r) =>
            if decide (k = ref_key)
            then (k, mkReference (ref_node r) (ref_materialization_name r) (Some m))
            else (k, r))
       (node_references graph)).

Definition _get_combined_graph (self : Savepoints) : VirtualNode :=
  let entries := Dict.values self in
  let references :=
    fold_left (fun refs entry =>
                 Dict.set ("ref_" +:+ name_ entry) (base_node (df_original entry)) refs)
      entries [] in
  fold_left (fun graph entry =>
               let reference_path := "ref_" +:+ name_ entry in
               set_materialization
                 (set_materialization_name graph reference_path (name_ entry))
                 reference_path (materialization entry))
    entries (_get_virtual_node references).

Definition Savepoints_to_sql (self : Savepoints) : list (string * string) :=
  to_sql_materialized_nodes (_get_combined_graph self) false.

(** One step of the loop of [get_drop_statements]. *)
Definition drop_step (self : Savepoints) (name : string)
    (drop_statements : list (string * string)) : result (list (string * string)) :=
  match Dict.get name self with
  | None => Raise (KeyError name)
  | Some info =>
      match materialization info with
      | TABLE =>
          Ok (Dict.set name ("drop table if exists " +:+ quote_identifier name)
                drop_statements)
      | VIEW =>
          Ok (Dict.set name ("drop view if exists " +:+ quote_identifier name)
                drop_statements)
      | _ => Ok drop_statements
      end
  end.

Fixpoint drop_loop (self : Savepoints) (names : list string)
    (drop_statements : list (string * string)) : result (list (string * string)) :=
  match names with
  | [] => Ok drop_statements
  | name :: rest =>
      drop_statements' ← drop_step self name drop_statements;
      drop_loop self rest drop_statements'
  end.

Definition get_drop_statements (self : Savepoints) : result (list (string * string)) :=
  let sql_statements := Savepoints_to_sql self in
  drop_loop self (reverse (Dict.keys sql_statements)) [].

Definition is_table_or_view (m : Materialization) : bool :=
  match m with TABLE | VIEW => true | _ => false end.

Fixpoint create_loop (self : Savepoints) (items : list (string * string))
    (acc : list (string * string)) : result (list (string * string)) :=
  match items with
  | [] => Ok acc
  | (name, statement) :: rest =>
      match Dict.get name self with
      | None => Raise (KeyError name)
      | Some info =>
          if is_table_or_view (materialization info)
          then create_loop self rest (Dict.set name statement acc)
          else create_loop self rest acc
      end
  end.

Definition get_create_statements (self : Savepoints) : result (list (string * string)) :=
  let sql_statements := Savepoints_to_sql self in
  create_loop self sql_statements [].

(** Whether the savepoint [n] is a table or a view. *)
Definition table_or_view (self : Savepoints) (n : string) : bool :=
  match Dict.get n self with
  | Some info => is_table_or_view (materialization info)
  | None => false
  end.

(** The drop statement of the savepoint [n], when it is a table or a view. *)
Definition drop_statement (self : Savepoints) (n : string) : list (string * string) :=
  match Dict.get n self with
  | Some info =>
      match materialization info with
      | TABLE => [(n, "drop table if exists " +:+ quote_identifier n)]
      | VIEW => [(n, "drop view if exists " +:+ quote_identifier n)]
      | _ => []
      end
  | None => []
  end.

(** The state that the loop of [execute_sql] updates: the entries, the
    database inside the transaction and the two results. *)
Record ExecState : Type := mkExecState {
  st_entries : Savepoints;
  st_db : Database;
  st_created : list CreatedObject;
  st_data : list (string * list Row)
}.

(** [info.written_to_db.add(engine.url)] on the entry stored under [name]. *)
Definition mark_written (self : Savepoints) (name : string) (info : SavepointEntry)
    (engine : Engine) : Savepoints :=
  Dict.set name
    (mkSavepointEntry (name_ info) (df_original info) (materialization info)
       (written_to_db info ∪ {[url engine]}))
    self.

Definition execute_step (engine : Engine) (st : ExecState) (item : string * string)
    : ExecState * result unit :=
  let '(name, statement) := item in
  match Dict.get name (st_entries st) with
  | None => (st, Raise (KeyError name))
  | Some info =>
      match conn_execute (st_db st) statement with
      | Raise e => (st, Raise e)
      | Ok (db', query_result) =>
          let result_data :=
            match materialization info with
            | QUERY => Dict.set name query_result (st_data st)
            | _ => st_data st
            end in
          let result_created :=
            match materialization info with
            | TABLE | VIEW =>
                st_created st ++ [mkCreatedObject name (materialization info)]
            | _ => st_created st
            end in
          (mkExecState (mark_written (st_entries st) name info engine) db'
             result_created result_data,
           Ok ())
      end
  end.

Fixpoint execute_loop (engine : Engine) (st : ExecState) (items : list (string * string))
    : ExecState * result unit :=
  match items with
  | [] => (st, Ok ())
  | item :: rest =>
      match execute_step engine st item with
      | (st', Ok _) => execute_loop engine st' rest
      | (st', Raise e) => (st', Raise e)
      end
  end.

(** The statements that run before the loop when [overwrite] is set. *)
Definition execute_drops (self : Savepoints) (db : Database) (overwrite : bool)
    : result Database :=
  if overwrite then
    drop_statements ← get_drop_statements self;
    match drop_statements with
    | [] => Ok db
    | _ =>
        let drop_sql := join_with "; " (Dict.values drop_statements) in
        r ← conn_execute db drop_sql; Ok r.1
    end
  else Ok db.

(** [execute_sql]: the savepoints and the database after the call, and what
    the call returns. The database is the committed one when every statement
    succeeded, and the one before the call when an exception left the
    transaction block. *)
Definition execute_sql (self : Savepoints) (db : Database) (engine : Engine)
    (overwrite : bool) : Savepoints * Database * result SqlExecutionResult :=
  let sql_statements := Savepoints_to_sql self in
  match execute_drops self db overwrite with
  | Raise e => (self, db, Raise e)
  | Ok db1 =>
      match execute_loop engine (mkExecState self db1 [] []) sql_statements with
      | (st, Raise e) => (st_entries st, db, Raise e)
      | (st, Ok _) =>
          (st_entries st, st_db st,
           Ok (mkSqlExecutionResult (st_created st) (st_data st)))
      end
  end.

(** The check that opens [get_materialized_df]. *)
Definition is_materialized (self : Savepoints) (engine : Engine) (savepoint_name : string)
    : result bool :=
  match Dict.get savepoint_name self with
  | None => Raise (KeyError savepoint_name)
  | Some info => Ok (bool_decide (url engine ∈ written_to_db info))
  end.

End Savepoints.

(** ** Further definitions: expressions *)

(** [rv.update(other)] *)
Definition dict_update {V} (rv other : list (string * V)) : list (string * V) :=
  fold_left (fun acc kv => Dict.set kv.1 kv.2 acc) other rv.

(** [Expression.get_references] *)
Fixpoint get_references (e : Expression) : list (string * SqlModel) :=
  match e with
  | Expr _ _ d =>
      fold_left (fun rv data_item =>
                   match data_item with
                   | inr s => dict_update rv (get_references s)
                   | inl (ModelReferenceToken model) => Dict.set (refname model) model rv
                   | inl _ => rv
                   end) d []
  end.

(** The models that the tokens of a list refer to, in order. *)
Definition referenced_models (ts : list ExpressionToken) : list SqlModel :=
  flat_map (fun t => match t with ModelReferenceToken m => [m] | _ => [] end) ts.

(** Every expression of a tree, the root first. *)
Fixpoint nested (e : Expression) : list Expression :=
  match e with
  | Expr _ _ d =>
      e :: flat_map (fun x => match x with inl _ => [] | inr s => nested s end) d
  end.

(** The expressions of a tree that are not below a
    [WindowFunctionExpression], the root first. *)
Fixpoint outside_windows (e : Expression) : list Expression :=
  match e with
  | Expr k _ d =>
      match k with
      | K_WindowFunctionExpression => [e]
      | _ => e :: flat_map (fun x => match x with
                                     | inl _ => []
                                     | inr s => outside_windows s
                                     end) d
      end
  end.

(** A dictionary of references holds the models [ms] and nothing else, each
    under its [refname]. *)
Definition holds_references (ms : list SqlModel) (d : list (string * SqlModel)) : Prop :=
  (forall k m, (k, m) ∈ d -> k = refname m /\ m ∈ ms)
  /\ (forall m, m ∈ ms -> refname m ∈ Dict.keys d).

(** ** Further definitions: typed columns *)

(** [cls.dtype_aliases], as strings; the classes of these sources define
    them, and a class that takes them from [Series] has none. *)
Definition class_dtype_aliases (c : SeriesClass) : list string :=
  match c with
  | SeriesBoolean => ["boolean"; "?"]
  | SeriesUuid => []
  | SeriesOther _ => []
  end.

(** [SeriesBoolean.dtype_to_expression] *)
Definition SeriesBoolean_dtype_to_expression (source_dtype : string) (e : Expression)
    : result Expression :=
  if bool_decide (source_dtype = "bool") then Ok e
  else if negb (bool_decide (source_dtype ∈ ["int64"; "string"])) then
    Raise (ValueError ("cannot convert " +:+ source_dtype +:+ " to bool"))
  else construct K_Expression "cast({} as bool)" [e].

(** [SeriesUuid.dtype_to_expression] *)
Definition SeriesUuid_dtype_to_expression (source_dtype : string) (e : Expression)
    : result Expression :=
  if bool_decide (source_dtype = "uuid") then Ok e
  else if bool_decide (source_dtype = "string") then
    construct K_Expression "cast(({}) as uuid)" [e]
  else Raise (ValueError ("cannot convert " +:+ source_dtype +:+ " to uuid.")).

(** The kinds of window function that need no literal value. *)
Inductive WindowFunction : Type :=
| W_row_number
| W_rank
| W_dense_rank
| W_percent_rank
| W_cume_dist
| W_ntile (num_buckets : Z)
| W_first_value
| W_last_value
| W_nth_value (n : Z).

Section SeriesMore.

Variable GroupBy_eq : GroupBy -> GroupBy -> bool.
Variable get_window_expression : GroupBy -> Expression -> Expression.
Variable get_dummy_index_series : Engine -> SqlModel -> Series.

(** [dtype_to_expression] of a class of the registry that is not in these
    sources, by its dtype. *)
Variable other_dtype_to_expression : string -> string -> Expression -> result Expression.

Variable escape_format_string : string -> string.
Variable quote_string : string -> string.
Variable quote_identifier : string -> string.

Definition dtype_to_expression (c : SeriesClass) (source_dtype : string) (e : Expression)
    : result Expression :=
  match c with
  | SeriesBoolean => SeriesBoolean_dtype_to_expression source_dtype e
  | SeriesUuid => SeriesUuid_dtype_to_expression source_dtype e
  | SeriesOther d => other_dtype_to_expression d source_dtype e
  end.

(** [astype], for a dtype given by name. *)
Definition astype (self : Series) (dtype' : string) : result Series :=
  if bool_decide (dtype' = dtype self)
     || bool_decide (dtype' ∈ class_dtype_aliases (series_class self))
  then Ok self
  else
    let series_type := get_series_type_from_dtype dtype' in
    expression' ← dtype_to_expression series_type (dtype self) (expression self);
    let new_dtype := class_dtype series_type in
    Ok (copy_override self (Some new_dtype) None None None None (Some expression')
          None None).

Definition get_column_expression (self : Series) (table_alias : option string)
    : result Expression :=
  let expression' := resolve_column_references quote_identifier (expression self)
                       table_alias in
  let quoted_column_name := quote_identifier (name self) in
  sql ← to_sql escape_format_string quote_string quote_identifier expression' None;
  if bool_decide (sql = quoted_column_name) then Ok expression'
  else construct K_Expression ("{} as " +:+ quoted_column_name) [expression'].

Definition sort_values (self : Series) (ascending : bool) : Series :=
  if match sorted_ascending self with
     | Some a => bool_decide (a = ascending)
     | None => false
     end
  then self
  else copy_override self None None None None None None None (Some ascending).

Definition isnull (self : Series) : result Series :=
  expression' ← construct K_Expression "{} is null" [expression self];
  Ok (copy_override self (Some "bool") None None None None (Some expression') None None).

Definition notnull (self : Series) : result Series :=
  expression' ← construct K_Expression "{} is not null" [expression self];
  Ok (copy_override self (Some "bool") None None None None (Some expression') None None).

(** [SeriesBoolean.__invert__], and [Series.__invert__] for the other
    classes. *)
Definition __invert__ (self : Series) : result Series :=
  match series_class self with
  | SeriesBoolean =>
      expression' ← construct K_Expression "NOT ({})" [expression self];
      Ok (copy_override self None None None None None (Some expression') None None)
  | _ => Raise (NotImplementedError EmptyString)
  end.

(** The aggregates of [Series]. *)
Definition max_ (self : Series) (partition : option WrappedPartition) (skipna : bool)
    : result Series :=
  _derived_agg_func GroupBy_eq get_window_expression get_dummy_index_series
    self partition (inl "max") None skipna None.

Definition min_ (self : Series) (partition : option WrappedPartition) (skipna : bool)
    : result Series :=
  _derived_agg_func GroupBy_eq get_window_expression get_dummy_index_series
    self partition (inl "min") None skipna None.

Definition median (self : Series) (partition : option WrappedPartition) (skipna : bool)
    : result Series :=
  e ← construct K_Expression "percentile_disc(0.5) WITHIN GROUP (ORDER BY {})"
        [expression self];
  _derived_agg_func GroupBy_eq get_window_expression get_dummy_index_series
    self partition (inr e) None skipna None.

Definition mode (self : Series) (partition : option WrappedPartition) (skipna : bool)
    : result Series :=
  e ← construct K_Expression "mode() within group (order by {})" [expression self];
  _derived_agg_func GroupBy_eq get_window_expression get_dummy_index_series
    self partition (inr e) None skipna None.

Definition nunique (self : Series) (partition : option WrappedPartition) (skipna : bool)
    : result Series :=
  partition' ←
    match partition with
    | None => Ok None
    | Some _ => g ← _check_unwrap_groupby partition false true; Ok (Some (WrapGroupBy g))
    end;
  e ← construct K_Expression "count(distinct {})" [expression self];
  _derived_agg_func GroupBy_eq get_window_expression get_dummy_index_series
    self partition' (inr e) (Some "int64") skipna None.

(** [_check_window] *)
Definition _check_window (window : option WrappedPartition) : result GroupBy :=
  _check_unwrap_groupby window true false.

(** The expression and the dtype that a window function passes on. *)
Definition window_function_expression (self : Series) (f : WindowFunction)
    : result Expression :=
  match f with
  | W_row_number => construct K_Expression "row_number()" []
  | W_rank => construct K_Expression "rank()" []
  | W_dense_rank => construct K_Expression "dense_rank()" []
  | W_percent_rank => construct K_Expression "percent_rank()" []
  | W_cume_dist => construct K_Expression "cume_dist()" []
  | W_ntile num_buckets =>
      construct K_Expression ("ntile(" +:+ str_of_Z num_buckets +:+ ")") []
  | W_first_value => construct K_Expression "first_value({})" [expression self]
  | W_last_value => construct K_Expression "last_value({})" [expression self]
  | W_nth_value n =>
      construct K_Expression ("nth_value({}, " +:+ str_of_Z n +:+ ")") [expression self]
  end.

Definition window_function_dtype (self : Series) (f : WindowFunction) : string :=
  match f with
  | W_row_number | W_rank | W_dense_rank | W_ntile _ => "int64"
  | W_percent_rank | W_cume_dist => "double precision"
  | W_first_value | W_last_value | W_nth_value _ => dtype self
  end.

(** [window_row_number], [window_rank], [window_dense_rank],
    [window_percent_rank], [window_cume_dist], [window_ntile],
    [window_first_value], [window_last_value] and [window_nth_value]: the
    window is checked, the expression is built, and [_derived_agg_func] is
    called with both. *)
Definition window_function (self : Series) (f : WindowFunction)
    (window : option WrappedPartition) : result Series :=
  w ← _check_window window;
  e ← window_function_expression self f;
  _derived_agg_func GroupBy_eq get_window_expression get_dummy_index_series
    self (Some (WrapGroupBy w)) (inr e) (Some (window_function_dtype self f)) true None.

End SeriesMore.

(** The grouping that a wrapped partition stands for, if any. *)
Definition unwrap_partition (wrapped : option WrappedPartition) : option GroupBy :=
  match wrapped with
  | Some (WrapDataFrame g) => g
  | Some (WrapGroupBy g) => Some g
  | None => None
  end.

(** ** Further definitions: savepoints *)

Section SavepointsMore.

Variable DataFrame : Type.
Variable DataFrame_eq : DataFrame -> DataFrame -> bool.
Variable DataFrame_copy : DataFrame -> DataFrame.

(** The entries of a [Savepoints] object as a dictionary holds them: no name
    twice, every entry under its own name, and every name accepted by
    [add_savepoint]. *)
Definition well_formed (self : Savepoints DataFrame) : Prop :=
  NoDup (Dict.keys self)
  /\ Forall (fun kv => name_ DataFrame kv.2 = kv.1 /\ re_match_name kv.1 = true) self.

(** An entry once [engine.url] is added to its [written_to_db]. *)
Definition marked (engine : Engine) (info : SavepointEntry DataFrame)
    : SavepointEntry DataFrame :=
  mkSavepointEntry DataFrame (name_ DataFrame info) (df_original DataFrame info)
    (materialization DataFrame info)
    (written_to_db DataFrame info ∪ {[url engine]}).

(** What [merge] makes of the entry of a name, from the entry of [self] and
    the entry of [other]. *)
Definition merged_entry (name : string) (mine theirs : option (SavepointEntry DataFrame))
    : option (SavepointEntry DataFrame) :=
  match mine, theirs with
  | Some a, Some b =>
      Some (mkSavepointEntry DataFrame (name_ DataFrame a) (df_original DataFrame a)
              (materialization DataFrame a)
              (written_to_db DataFrame a ∪ written_to_db DataFrame b))
  | Some a, None => Some a
  | None, Some b =>
      Some (mkSavepointEntry DataFrame name (DataFrame_copy (df_original DataFrame b))
              (materialization DataFrame b) (written_to_db DataFrame b))
  | None, None => None
  end.

(** The entries of [other] do not conflict with those of [self]. *)
Definition compatible (self other : Savepoints DataFrame) : Prop :=
  Forall (fun kv =>
            match Dict.get kv.1 self with
            | Some existing =>
                differs DataFrame DataFrame_eq existing (df_original DataFrame kv.2)
                  (materialization DataFrame kv.2) = false
            | None => True
            end) other.

(** What the loop of [execute_sql] appends to [result_created] for the
    statement of the savepoint [n]. *)
Definition created_object (self : Savepoints DataFrame) (n : string)
    : list CreatedObject :=
  match Dict.get n self with
  | Some info =>
      if is_table_or_view (materialization DataFrame info)
      then [mkCreatedObject n (materialization DataFrame info)]
      else []
  | None => []
  end.

(** Whether the savepoint [n] is a query. *)
Definition is_query (self : Savepoints DataFrame) (n : string) : bool :=
  match Dict.get n self with
  | Some info => bool_decide (materialization DataFrame info = QUERY)
  | None => false
  end.

(** The reference of the combined graph that stands for an entry. *)
Definition entry_reference (base_node : DataFrame -> SqlModel)
    (e : SavepointEntry DataFrame) : string * Reference :=
  ("ref_" +:+ name_ DataFrame e,
   mkReference (base_node (df_original DataFrame e)) (Some (name_ DataFrame e))
     (Some (materialization DataFrame e))).

End SavepointsMore.
(** ** Sample collaborators

    Instances of the [sql_models] helpers and of the interpreter's [hash], to
    run the definitions on concrete inputs. *)

Module Sample.

(** [s.replace(c, r)] for a single character [c]. *)
Fixpoint replace_char (c : Ascii.ascii) (r : string) (s : string) : string :=
  match s with
  | EmptyString => EmptyString
  | String x tl =>
      if Ascii.eqb x c then r +:+ replace_char c r tl
      else String x (replace_char c r tl)
  end.

(** Modelled from the spec: a raw token is escaped against the
    template-substitution syntax, by doubling the braces. *)
Definition escape_format_string (value : string) : string :=
  replace_char "}"%char "}}" (replace_char "{"%char "{{" value).

(** Modelled from the spec: a string payload is rendered quoted, its quotes
    doubled. *)
Definition quote_string (value : string) : string :=
  sq +:+ replace_char (ascii_of_nat 39) (sq +:+ sq) value +:+ sq.

(** Modelled from the spec: a column identifier is rendered quoted, its
    quotes doubled. *)
Definition quote_identifier (name : string) : string :=
  dq +:+ replace_char (ascii_of_nat 34) (dq +:+ dq) name +:+ dq.

(** A hash of strings, graph nodes and tuples, for running examples. *)
Definition hash_str (s : string) : Z := Z.of_nat (String.length s).
Definition hash_model (m : SqlModel) : Z := hash_str (model_hash m).
Definition hash_tuple (l : list Z) : Z := fold_right (fun x acc => (31 * acc + x + 1)%Z) 7%Z l.

(** Two boolean columns of two different base relations, and a uuid column
    of the first. *)
Definition node_1 : SqlModel := mkSqlModel "node_1".
Definition node_2 : SqlModel := mkSqlModel "node_2".

Definition bool_1 : Series :=
  mkSeries SeriesBoolean (mkEngine "pg") node_1 [] "flag"
    (column_reference K_Expression "flag") None None.

Definition bool_2 : Series :=
  mkSeries SeriesBoolean (mkEngine "pg") node_2 [] "other_flag"
    (column_reference K_Expression "other_flag") None None.

Definition uuid_1 : Series :=
  mkSeries SeriesUuid (mkEngine "pg") node_1 [] "id"
    (column_reference K_Expression "id") None None.

(** A grouping on [flag], and a window on it that asks for three rows. *)
Definition group_flag : GroupBy := mkGroupBy [("flag", bool_1)] None.
Definition window_flag : GroupBy := mkGroupBy [("flag", bool_1)] (Some (Some 3%Z)).

(** Modelled from the spec: the window-clause wrapper applied to the built
    expression. *)
Definition get_window_expression (w : GroupBy) (e : Expression) : Expression :=
  Expr K_WindowFunctionExpression None [Sub e; Tok (RawToken " over ()")].

(** Groupings are compared by the names of their index and their kind. *)
Definition GroupBy_eq (a b : GroupBy) : bool :=
  bool_decide (map fst (GroupBy_index a) = map fst (GroupBy_index b))
  && bool_decide (is_Window a = is_Window b)
  && bool_decide (min_values a = min_values b).

(** The index series of a grouping of the whole relation. *)
Definition get_dummy_index_series (e : Engine) (b : SqlModel) : Series :=
  mkSeries (SeriesOther "int64") e b [] "index" (raw K_Expression "1") None None.

(** A DataFrame for running examples: an identifier and a base node; copies
    are equal to their original. *)
Record DataFrame : Type := mkDataFrame { df_id : string; df_base_node : SqlModel }.

Definition DataFrame_eq (a b : DataFrame) : bool :=
  bool_decide (df_id a = df_id b) && bool_decide (df_base_node a = df_base_node b).

Definition DataFrame_copy (df : DataFrame) : DataFrame := df.

(** An emission for running examples: one statement per named reference of
    the combined graph, in the order of the references. *)
Definition to_sql_materialized_nodes (graph : VirtualNode) (include_start_node : bool)
    : list (string * string) :=
  flat_map (fun '(_, r) =>
              match ref_materialization_name r with
              | Some n => [(n, "select * from " +:+ model_hash (ref_node r))]
              | None => []
              end)
    (node_references graph).

(** A database for running examples: the statements executed so far; the
    statement that reads the node [broken] is rejected. *)
Definition conn_execute (db : list string) (statement : string)
    : result (list string * list string) :=
  if bool_decide (statement = "select * from broken")
  then Raise (ValueError "relation does not exist")
  else Ok (db ++ [statement], []).

(** Three savepoints: [a] a query, [b] a table, [c] a view. *)
Definition df_a : DataFrame := mkDataFrame "a" (mkSqlModel "node_a").
Definition df_b : DataFrame := mkDataFrame "b" (mkSqlModel "node_b").
Definition df_c : DataFrame := mkDataFrame "c" (mkSqlModel "node_c").
Definition df_broken : DataFrame := mkDataFrame "b" (mkSqlModel "broken").

Definition add (self : Savepoints DataFrame) (name : string) (df : DataFrame)
    (m : Materialization) : Savepoints DataFrame :=
  (add_savepoint DataFrame DataFrame_eq DataFrame_copy self (Some name) df m).1.

Definition savepoints_abc : Savepoints DataFrame :=
  add (add (add (Savepoints_init DataFrame) "a" df_a QUERY) "b" df_b TABLE) "c" df_c VIEW.

(** The same, with a second statement that the database rejects. *)
Definition savepoints_broken : Savepoints DataFrame :=
  add (add (add (Savepoints_init DataFrame) "a" df_a QUERY) "b" df_broken TABLE)
    "c" df_c VIEW.

Definition engine : Engine := mkEngine "postgresql://localhost/db".

End Sample.

(** ** Properties of expressions *)

Section ExpressionInduction.

Variable P : Expression -> Prop.
Hypothesis step : forall k n d,
  Forall (fun x => match x with inl _ => True | inr s => P s end) d ->
  P (Expr k n d).

Lemma Expression_ind : forall e : Expression, P e.
Proof.
  fix rec 1. intros [k n d]. apply step.
  induction d as [|[t|s] d IHd]; constructor; auto.
Qed.

End ExpressionInduction.

Lemma Expression_init_list (k : ExpressionClass) (l : list Item) :
  Expression_init k (DataList l) None = Expr k None l.
Proof. destruct k; reflexivity. Qed.

Lemma Expression_eq_unfold (a b : Expression) :
  Expression_eq a b = list_eq Item_eq (data a) (data b).
Proof.
  destruct a as [ka na da], b as [kb nb db]; simpl.
  revert db; induction da as [|x da IH]; intros [|y db]; simpl; try reflexivity.
  rewrite IH. reflexivity.
Qed.

Lemma Expression_eq_erase (a : Expression) :
  forall b, Expression_eq a b = true <-> erase a = erase b.
Proof.
  induction a as [ka na da IH] using Expression_ind; intros [kb nb db].
  rewrite Expression_eq_unfold; simpl.
  revert db; induction IH as [|x da Hx _ IHl]; intros [|y db]; simpl;
    try (split; [discriminate | intros [=]]); try tauto.
  rewrite andb_true_iff, IHl.
  destruct x as [t1|s1], y as [t2|s2]; simpl.
  - rewrite bool_decide_eq_true. split.
    + intros [-> [= ->]]. reflexivity.
    + intros [= -> ->]. split; reflexivity.
  - split; [intros [[=] _] | intros [=]].
  - split; [intros [[=] _] | intros [=]].
  - rewrite Hx. split.
    + intros [-> [= ->]]. reflexivity.
    + intros [= -> ->]. split; reflexivity.
Qed.

Lemma erase_hash hash_str hash_model hash_tuple (a : Expression) :
  Expression_hash hash_str hash_model hash_tuple (erase a)
  = Expression_hash hash_str hash_model hash_tuple a.
Proof.
  induction a as [k n d IH] using Expression_ind; simpl.
  f_equal. rewrite map_map.
  induction IH as [|[t|s] d Hx _ IHl]; simpl; [reflexivity | |]; f_equal; assumption.
Qed.

Lemma Expression_eq_hash hash_str hash_model hash_tuple (a b : Expression) :
  Expression_eq a b = true ->
  Expression_hash hash_str hash_model hash_tuple a
  = Expression_hash hash_str hash_model hash_tuple b.
Proof.
  intros H. apply Expression_eq_erase in H.
  rewrite <- (erase_hash _ _ _ a), <- (erase_hash _ _ _ b), H. reflexivity.
Qed.

Lemma erase_same_data k1 n1 k2 n2 (d : list Item) :
  erase (Expr k1 n1 d) = erase (Expr k2 n2 d).
Proof. reflexivity. Qed.

(** C10. Equality of two expressions, whatever their marker subclass, is the
    equality of their ordered child sequences: [e1 == e2] is the item-wise
    comparison of [e1.data] and [e2.data], it holds exactly when the two trees
    agree once classes and names are left out, and then the hashes agree. A
    marker-subclass expression equals the plain expression with the same
    children, and the name of a [ConstValueExpression] plays no role in
    equality or hashing. *)
Theorem C10_structural_equality_and_hash :
  forall hash_str hash_model hash_tuple (e1 e2 : Expression),
    Expression_eq e1 e2 = list_eq Item_eq (data e1) (data e2)
    /\ (Expression_eq e1 e2 = true <-> erase e1 = erase e2)
    /\ (Expression_eq e1 e2 = true ->
        Expression_hash hash_str hash_model hash_tuple e1
        = Expression_hash hash_str hash_model hash_tuple e2)
    /\ (forall k n,
          Expression_eq (Expr k n (data e1)) (Expr K_Expression None (data e1)) = true
          /\ Expression_hash hash_str hash_model hash_tuple (Expr k n (data e1))
             = Expression_hash hash_str hash_model hash_tuple
                 (Expr K_Expression None (data e1)))
    /\ (forall n1 n2,
          Expression_eq (Expr K_ConstValueExpression n1 (data e1))
                        (Expr K_ConstValueExpression n2 (data e1)) = true
          /\ Expression_hash hash_str hash_model hash_tuple
               (Expr K_ConstValueExpression n1 (data e1))
             = Expression_hash hash_str hash_model hash_tuple
                 (Expr K_ConstValueExpression n2 (data e1))).
Proof.
  intros hs hm ht e1 e2.
  split; [apply Expression_eq_unfold|].
  split; [apply Expression_eq_erase|].
  split; [apply Expression_eq_hash|].
  split; intros; (split; [apply Expression_eq_erase; apply erase_same_data | reflexivity]).
Qed.

(** *** Flag propagation *)

Lemma flat_map_sub_expressions {B} (f : Expression -> B) (d : list Item) :
  flat_map (fun x => match x with inl _ => [] | inr s => [f s] end) d
  = map f (sub_expressions d).
Proof.
  unfold sub_expressions.
  induction d as [|[t|s] d IH]; simpl; [reflexivity | assumption |].
  f_equal. assumption.
Qed.

Lemma sub_expressions_app (l1 l2 : list Item) :
  sub_expressions (l1 ++ l2) = sub_expressions l1 ++ sub_expressions l2.
Proof. unfold sub_expressions. apply flat_map_app. Qed.

Lemma sub_expressions_tokens (ts : list ExpressionToken) :
  sub_expressions (map inl ts) = [].
Proof. induction ts as [|t ts IH]; [reflexivity | exact IH]. Qed.

Lemma sub_expressions_wrap ts0 ts1 ts2 (a b : Expression) :
  sub_expressions (data (wrap ts0 ts1 ts2 a b)) = [a; b].
Proof.
  unfold wrap. rewrite Expression_init_list. cbn [data].
  rewrite !sub_expressions_app, !sub_expressions_tokens. reflexivity.
Qed.

Lemma has_aggregate_function_plain n (d : list Item) :
  has_aggregate_function (Expr K_Expression n d)
  = py_any (map has_aggregate_function (sub_expressions d)).
Proof. simpl. rewrite flat_map_sub_expressions. reflexivity. Qed.

Lemma is_constant_plain n (d : list Item) :
  is_constant (Expr K_Expression n d)
  = py_and (py_len (map is_constant (sub_expressions d)))
           (PyBool (py_all (map is_constant (sub_expressions d)))).
Proof. simpl. rewrite flat_map_sub_expressions. reflexivity. Qed.

Lemma truthy_len_and_all (l : list pyval) :
  truthy (py_and (py_len l) (PyBool (py_all l)))
  = negb (bool_decide (l = [])) && forallb truthy l.
Proof. destruct l as [|v l]; reflexivity. Qed.

Lemma is_constant_tokens_only k n (ts : list ExpressionToken) :
  truthy (is_constant (Expr k n (map inl ts))) = true -> k = K_ConstValueExpression.
Proof.
  destruct k; simpl; try discriminate; try reflexivity;
    rewrite flat_map_sub_expressions, sub_expressions_tokens; discriminate.
Qed.

(** *** Construction from a format string *)

Lemma cons_head_not_nil c (l : list string) : cons_head c l <> [].
Proof. destruct l; discriminate. Qed.

Lemma split_braces_not_nil (s : string) : split_braces s <> [].
Proof.
  destruct s as [|c [|c2 tl]]; cbn [split_braces]; [discriminate | |].
  - apply cons_head_not_nil.
  - destruct (_ && _); [discriminate | apply cons_head_not_nil].
Qed.

Lemma construct_loop_weave (args : list Expression) (subs : list string) :
  forall (i : nat) (d : list Item),
    (0 < i)%nat ->
    (length subs <= length (drop (i - 1) args))%nat ->
    construct_loop args i subs d = d ++ weave subs (drop (i - 1) args).
Proof.
  induction subs as [|s subs IH]; intros i d Hi Hlen.
  - simpl. rewrite app_nil_r. reflexivity.
  - destruct (drop (i - 1) args) as [|a rest] eqn:Hdrop; [simpl in Hlen; lia|].
    assert (Hlook : args !! (i - 1)%nat = Some a).
    { rewrite <- (Nat.add_0_r (i - 1)), <- lookup_drop, Hdrop. reflexivity. }
    assert (Hrest : drop (S i - 1) args = rest).
    { replace (S i - 1)%nat with (S (i - 1)) by lia.
      rewrite <- (drop_drop args 1 (i - 1)) || idtac.
      change (S (i - 1)) with (1 + (i - 1))%nat.
      rewrite Nat.add_comm, <- drop_drop, Hdrop. reflexivity. }
    cbn [construct_loop]. rewrite IH by (simpl in Hlen; rewrite ?Hrest; lia).
    rewrite Hrest. unfold construct_step.
    destruct i as [|i]; [lia|]. cbn [Nat.ltb Nat.leb]. rewrite Hlook.
    cbn [weave]. unfold arg_items, segment_items.
    destruct (isinstance_NonAtomic a), (bool_decide (s = EmptyString));
      rewrite <- ?app_assoc; simpl; rewrite ?app_nil_r; reflexivity.
Qed.

Lemma construct_data (args : list Expression) (s0 : string) (rest : list string) :
  (length rest <= length args)%nat ->
  construct_loop args 0 (s0 :: rest) [] = segment_items s0 ++ weave rest args.
Proof.
  intros Hlen. cbn [construct_loop].
  rewrite construct_loop_weave; [reflexivity | lia | exact Hlen].
Qed.

Lemma construct_ok (cls : ExpressionClass) (fmt : string) (args : list Expression)
    (s0 : string) (rest : list string) :
  split_braces fmt = s0 :: rest ->
  length args = length rest ->
  construct cls fmt args = Ok (Expr cls None (segment_items s0 ++ weave rest args)).
Proof.
  intros Hs Hlen. unfold construct. rewrite Hs.
  replace (length (s0 :: rest) - 1)%nat with (length rest) by (simpl; lia).
  rewrite bool_decide_eq_false_2 by (intros H; apply H; exact Hlen).
  rewrite Expression_init_list, construct_data by lia. reflexivity.
Qed.

Lemma sub_expressions_arg_items (a : Expression) : sub_expressions (arg_items a) = [a].
Proof. unfold arg_items. destruct (isinstance_NonAtomic a); reflexivity. Qed.

Lemma sub_expressions_segment_items (s : string) : sub_expressions (segment_items s) = [].
Proof. unfold segment_items. destruct (bool_decide _); reflexivity. Qed.

Lemma sub_expressions_weave (segs : list string) :
  forall args : list Expression,
    length args = length segs -> sub_expressions (weave segs args) = args.
Proof.
  induction segs as [|s segs IH]; intros [|a args] Hlen; try discriminate; [reflexivity|].
  cbn [weave]. rewrite !sub_expressions_app, sub_expressions_arg_items,
    sub_expressions_segment_items, IH by (simpl in Hlen; lia).
  reflexivity.
Qed.

Lemma construct_inv (cls : ExpressionClass) (fmt : string) (args : list Expression)
    (X : Expression) :
  construct cls fmt args = Ok X ->
  klass_of X = cls /\ sub_expressions (data X) = args.
Proof.
  unfold construct. destruct (split_braces fmt) as [|s0 rest] eqn:Hs;
    [exfalso; eapply split_braces_not_nil; eassumption|].
  replace (length (s0 :: rest) - 1)%nat with (length rest) by (simpl; lia).
  case_bool_decide as Hlen; [discriminate|].
  rewrite Expression_init_list, construct_data by lia. intros [= <-].
  split; [reflexivity|]. cbn [data].
  rewrite sub_expressions_app, sub_expressions_segment_items, sub_expressions_weave
    by assumption.
  reflexivity.
Qed.

(** C2. For a plain expression [X] whose children are the expressions [A]
    and [B] with tokens around them, [X.has_aggregate_function] is
    [A.has_aggregate_function or B.has_aggregate_function], and [X.is_constant]
    is true exactly when [A.is_constant] and [B.is_constant] are; in general a
    plain expression is constant exactly when it has an expression child and
    all its expression children are constant, and an expression made of tokens
    only is constant only if it is a [ConstValueExpression]. The same laws
    hold for the expression that [Expression.construct] builds from [A] and
    [B]. *)
Theorem C2_flag_propagation :
  forall (ts0 ts1 ts2 : list ExpressionToken) (A B : Expression),
    let X := wrap ts0 ts1 ts2 A B in
    has_aggregate_function X = has_aggregate_function A || has_aggregate_function B
    /\ truthy (is_constant X) = truthy (is_constant A) && truthy (is_constant B)
    /\ (forall n (d : list Item),
          truthy (is_constant (Expr K_Expression n d))
          = negb (bool_decide (sub_expressions d = []))
            && forallb (fun s => truthy (is_constant s)) (sub_expressions d))
    /\ (forall k n (ts : list ExpressionToken),
          truthy (is_constant (Expr k n (map inl ts))) = true ->
          k = K_ConstValueExpression)
    /\ is_constant (Expr K_Expression None [Tok (RawToken "a"); Tok (RawToken "b")])
       = PyInt 0
    /\ (forall (fmt : string) (Y : Expression),
          construct K_Expression fmt [A; B] = Ok Y ->
          has_aggregate_function Y
          = has_aggregate_function A || has_aggregate_function B
          /\ truthy (is_constant Y) = truthy (is_constant A) && truthy (is_constant B)).
Proof.
  intros ts0 ts1 ts2 A B X.
  assert (HX : X = Expr K_Expression None (data X)).
  { unfold X, wrap. rewrite Expression_init_list. reflexivity. }
  pose proof (sub_expressions_wrap ts0 ts1 ts2 A B) as Hsub. fold X in Hsub.
  repeat split.
  - rewrite HX, has_aggregate_function_plain, Hsub. simpl.
    rewrite orb_false_r. reflexivity.
  - rewrite HX, is_constant_plain, truthy_len_and_all, Hsub. simpl.
    rewrite andb_true_r. reflexivity.
  - intros n d. rewrite is_constant_plain, truthy_len_and_all.
    generalize (sub_expressions d) as l. intros l.
    replace (forallb truthy (map is_constant l))
      with (forallb (fun s => truthy (is_constant s)) l)
      by (induction l as [|s l IH]; simpl; [reflexivity | rewrite IH; reflexivity]).
    destruct l; reflexivity.
  - apply is_constant_tokens_only.
  - apply construct_inv in H as [Hk Hs]. destruct Y as [k n d]. simpl in Hk, Hs.
    subst k. rewrite has_aggregate_function_plain, Hs. simpl.
    rewrite orb_false_r. reflexivity.
  - apply construct_inv in H as [Hk Hs]. destruct Y as [k n d]. simpl in Hk, Hs.
    subst k. rewrite is_constant_plain, truthy_len_and_all, Hs. simpl.
    rewrite andb_true_r. reflexivity.
Qed.

(** *** Resolution of column references and emission *)

Section SqlProperties.

Variable escape_format_string : string -> string.
Variable quote_string : string -> string.
Variable quote_identifier : string -> string.

Abbreviation resolve_refs := (resolve_column_references quote_identifier).
Abbreviation to_sql' := (to_sql escape_format_string quote_string quote_identifier).
Abbreviation to_sql_rec' := (to_sql_rec escape_format_string quote_string quote_identifier).
Abbreviation render' := (render escape_format_string quote_string quote_identifier).
Abbreviation token_to_sql := (ExpressionToken_to_sql escape_format_string quote_string).

Lemma resolve_column_references_unfold k n (d : list Item) tn :
  resolve_refs (Expr k n d) tn = Expr k None (map (resolve_item quote_identifier tn) d).
Proof.
  cbn [resolve_column_references]. rewrite Expression_init_list. f_equal.
  apply map_ext. intros [[]|s]; reflexivity.
Qed.

Lemma resolve_token_not_reference tn (t : ExpressionToken) :
  is_column_reference (resolve_token quote_identifier tn t) = false.
Proof. destruct t; reflexivity. Qed.

Lemma resolve_token_fixed tn (t : ExpressionToken) :
  is_column_reference t = false -> resolve_token quote_identifier tn t = t.
Proof. destruct t; simpl; intros; try reflexivity; discriminate. Qed.

Lemma depth_resolve (e : Expression) tn : depth (resolve_refs e tn) = depth e.
Proof.
  induction e as [k n d IH] using Expression_ind.
  rewrite resolve_column_references_unfold. simpl. f_equal. f_equal.
  rewrite map_map.
  induction IH as [|[t|s] d Hx _ IHl]; simpl; [reflexivity | |]; f_equal; assumption.
Qed.

Lemma resolve_idempotent (e : Expression) (a b : option string) :
  resolve_refs (resolve_refs e a) b = resolve_refs e a.
Proof.
  induction e as [k n d IH] using Expression_ind.
  rewrite !resolve_column_references_unfold. f_equal.
  rewrite map_map.
  induction IH as [|[t|s] d Hx _ IHl]; simpl; [reflexivity | |]; f_equal;
    try assumption.
  - f_equal. apply resolve_token_fixed, resolve_token_not_reference.
  - f_equal. assumption.
Qed.

Lemma get_all_tokens_resolve (e : Expression) tn :
  get_all_tokens (resolve_refs e tn)
  = map (resolve_token quote_identifier tn) (get_all_tokens e).
Proof.
  induction e as [k n d IH] using Expression_ind.
  rewrite resolve_column_references_unfold. simpl.
  induction IH as [|[t|s] d Hx _ IHl]; simpl; [reflexivity | |].
  - f_equal. assumption.
  - rewrite map_app. f_equal; assumption.
Qed.

Lemma resolved_token_to_sql tn (t : ExpressionToken) :
  token_to_sql (resolve_token quote_identifier tn t)
  = Ok (resolved_token_text escape_format_string quote_string quote_identifier tn t).
Proof. destruct t; reflexivity. Qed.

Lemma render_resolve (e : Expression) (a b : option string) :
  render' b (resolve_refs e a) = render' a e.
Proof.
  induction e as [k n d IH] using Expression_ind.
  rewrite resolve_column_references_unfold. simpl. f_equal.
  rewrite map_map.
  induction IH as [|[t|s] d Hx _ IHl]; simpl; [reflexivity | |]; f_equal;
    try assumption.
  destruct t; reflexivity.
Qed.

Lemma mapM_map_ok {A B C} (f : B -> result C) (h : A -> B) (g : A -> C) (l : list A) :
  Forall (fun x => f (h x) = Ok (g x)) l -> mapM f (map h l) = Ok (map g l).
Proof.
  induction 1 as [|x l Hx _ IH]; [reflexivity|].
  cbn [map]. change (mapM f (h x :: map h l))
    with (y ← f (h x); k ← mapM f (map h l); mret (y :: k)).
  rewrite Hx, IH. reflexivity.
Qed.

Lemma depth_children k n (d : list Item) (fuel : nat) :
  (depth (Expr k n d) <= S fuel)%nat ->
  Forall (fun x => match x with inl _ => True | inr s => (depth s <= fuel)%nat end) d.
Proof.
  simpl. intros Hd. apply Nat.succ_le_mono in Hd.
  induction d as [|[t|s] d IHd]; simpl in *; constructor; auto; try apply IHd; lia.
Qed.

Lemma to_sql_rec_render (fuel : nat) :
  forall (e : Expression) tn,
    (depth e <= fuel)%nat -> to_sql_rec' fuel e tn = Ok (render' tn e).
Proof.
  induction fuel as [|fuel IH]; intros [k n d] tn Hd.
  - simpl in Hd. lia.
  - cbn [to_sql_rec]. rewrite resolve_column_references_unfold. cbn [data render].
    erewrite mapM_map_ok; [reflexivity|].
    apply depth_children in Hd.
    induction Hd as [|[t|s] d Hx _ IHl]; constructor; try assumption.
    + apply resolved_token_to_sql.
    + cbn [resolve_item]. rewrite IH by (rewrite depth_resolve; exact Hx).
      rewrite render_resolve. reflexivity.
Qed.

Lemma to_sql_render (e : Expression) tn : to_sql' e tn = Ok (render' tn e).
Proof. apply to_sql_rec_render. reflexivity. Qed.

(** C7. [ColumnReferenceToken.to_sql] raises; [Expression.to_sql] resolves
    the column references first, turning each into a raw token with the
    quoted column name, qualified by the quoted alias when one is given, so no
    reference token is left and emission returns the text of the expression. *)
Theorem C7_column_references_resolved_before_emission :
  forall (e : Expression) (tn : option string),
    (forall c,
        token_to_sql (ColumnReferenceToken c)
        = Raise (ValueError ("ColumnReferenceTokens should be resolved first using "
                             +:+ "Expression.resolve_column_references")))
    /\ (forall c,
          resolve_token quote_identifier tn (ColumnReferenceToken c)
          = RawToken ((if str_truthy tn
                       then quote_identifier (default EmptyString tn) +:+ "."
                       else EmptyString) +:+ quote_identifier c))
    /\ get_all_tokens (resolve_refs e tn)
       = map (resolve_token quote_identifier tn) (get_all_tokens e)
    /\ Forall (fun t => is_column_reference t = false)
         (get_all_tokens (resolve_refs e tn))
    /\ to_sql' e tn = to_sql' (resolve_refs e tn) None
    /\ to_sql' e tn = Ok (render' tn e).
Proof.
  intros e tn.
  split; [reflexivity|].
  split; [reflexivity|].
  split; [apply get_all_tokens_resolve|].
  split.
  { rewrite get_all_tokens_resolve. apply Forall_map, Forall_true.
    intros t. apply resolve_token_not_reference. }
  split; [|apply to_sql_render].
  rewrite !to_sql_render, render_resolve. reflexivity.
Qed.

(** C8. Resolving the column references of an expression a second time
    changes nothing: the tree, and so the SQL text, is that of a single
    resolution; the resolved tree is a new value with the class and the shape
    of the original, whose own text is unchanged. *)
Theorem C8_resolution_idempotent :
  forall (e : Expression) (alias : option string),
    resolve_refs (resolve_refs e alias) alias = resolve_refs e alias
    /\ to_sql' (resolve_refs (resolve_refs e alias) alias) None
       = to_sql' (resolve_refs e alias) None
    /\ to_sql' (resolve_refs e alias) None = Ok (render' alias e)
    /\ klass_of (resolve_refs e alias) = klass_of e
    /\ length (data (resolve_refs e alias)) = length (data e).
Proof.
  intros e alias.
  split; [apply resolve_idempotent|].
  split; [rewrite resolve_idempotent; reflexivity|].
  split; [rewrite to_sql_render, render_resolve; reflexivity|].
  destruct e as [k n d]. rewrite resolve_column_references_unfold.
  split; [reflexivity|]. simpl. rewrite length_map. reflexivity.
Qed.

(** *** The text of a constructed expression *)

Lemma append_assoc (s1 s2 s3 : string) : (s1 +:+ s2) +:+ s3 = s1 +:+ (s2 +:+ s3).
Proof.
  induction s1 as [|c s1 IH]; [reflexivity|].
  change (String c ((s1 +:+ s2) +:+ s3) = String c (s1 +:+ s2 +:+ s3)).
  f_equal. exact IH.
Qed.

Lemma join_app (l1 l2 : list string) : join (l1 ++ l2) = join l1 +:+ join l2.
Proof.
  unfold join. induction l1 as [|x l1 IH]; simpl; [reflexivity|].
  rewrite IH, append_assoc. reflexivity.
Qed.

Lemma append_empty_r (s : string) : s +:+ EmptyString = s.
Proof.
  induction s as [|c s IH]; [reflexivity|].
  change (String c (s +:+ EmptyString) = String c s). f_equal. exact IH.
Qed.

Abbreviation render_item tn :=
  (fun x : Item => match x with
                   | inl t => resolved_token_text escape_format_string quote_string
                                quote_identifier tn t
                   | inr s => render' tn s
                   end).

Lemma render_arg_items tn (a : Expression) :
  join (map (render_item tn) (arg_items a))
  = arg_text escape_format_string quote_string quote_identifier tn a.
Proof.
  unfold arg_items, arg_text. destruct (isinstance_NonAtomic a); simpl.
  - rewrite append_empty_r. reflexivity.
  - apply append_empty_r.
Qed.

Lemma render_segment_items tn (s : string) :
  join (map (render_item tn) (segment_items s)) = segment_text escape_format_string s.
Proof.
  unfold segment_items, segment_text. destruct (bool_decide (s = EmptyString)); simpl.
  - reflexivity.
  - apply append_empty_r.
Qed.

Lemma render_weave tn (segs : list string) :
  forall args : list Expression,
    join (map (render_item tn) (weave segs args))
    = weave_text escape_format_string quote_string quote_identifier tn segs args.
Proof.
  induction segs as [|s segs IH]; intros [|a args]; try reflexivity.
  cbn [weave weave_text]. rewrite !map_app, !join_app, IH.
  rewrite render_arg_items, render_segment_items. reflexivity.
Qed.

(** C6. [construct] fails when the number of arguments differs from the
    number of markers of the format string, with a message that gives both
    counts; otherwise it returns an expression of the class it is called on
    whose SQL text is the literal segments with the arguments' texts in
    between, where the text of a [NonAtomicExpression] argument stands between
    the tokens ["("] and [")"] and the text of any other argument stands as it
    is. *)
Theorem C6_construct_parenthesises_non_atomic :
  forall (cls : ExpressionClass) (fmt : string) (args : list Expression)
         (tn : option string),
    let markers := (length (split_braces fmt) - 1)%nat in
    match construct cls fmt args with
    | Ok X =>
        length args = markers
        /\ klass_of X = cls
        /\ to_sql' X tn
           = Ok (construct_text escape_format_string quote_string quote_identifier
                   tn (split_braces fmt) args)
    | Raise e =>
        length args <> markers
        /\ e = ValueError
                 ("For each {} in the fmt there should be an Expression provided. "
                  +:+ "Found {}: " +:+ str_of_nat markers
                  +:+ ", provided expressions: " +:+ str_of_nat (length args))
    end
    /\ (forall a b : Expression,
          exists X,
            construct cls "{} OP {}" [a; b] = Ok X
            /\ to_sql' X tn
               = Ok (arg_text escape_format_string quote_string quote_identifier tn a
                     +:+ escape_format_string " OP "
                     +:+ arg_text escape_format_string quote_string quote_identifier
                           tn b))
    /\ (forall a : Expression,
          to_sql' a tn = Ok (render' tn a)
          /\ arg_text escape_format_string quote_string quote_identifier tn a
             = if isinstance_NonAtomic a
               then escape_format_string "(" +:+ render' tn a
                    +:+ escape_format_string ")"
               else render' tn a).
Proof.
  intros cls fmt args tn markers. split; [|split].
  - destruct (split_braces fmt) as [|s0 rest] eqn:Hs;
      [exfalso; eapply split_braces_not_nil; eassumption|].
    unfold construct. rewrite Hs. subst markers.
    replace (length (s0 :: rest) - 1)%nat with (length rest) by (simpl; lia).
    case_bool_decide as Hlen.
    + split; [exact Hlen | reflexivity].
    + rewrite Expression_init_list, construct_data by lia.
      split; [exact Hlen|]. split; [reflexivity|].
      rewrite to_sql_render. cbn [render construct_text].
      rewrite map_app, join_app, render_segment_items, render_weave. reflexivity.
  - intros a b. eexists. split.
    + apply (construct_ok cls "{} OP {}" [a; b] EmptyString [" OP "; EmptyString]);
        reflexivity.
    + rewrite to_sql_render. cbn [render].
      rewrite map_app, join_app, render_segment_items, render_weave.
      cbn. rewrite !append_empty_r. reflexivity.
  - intros a. split; [apply to_sql_render | reflexivity].
Qed.


End SqlProperties.

(** ** Properties of dictionaries *)

Section DictProperties.

Context {V : Type}.
Implicit Types (d : list (string * V)) (k : string) (v : V).

Lemma Dict_get_None k d : Dict.get k d = None <-> k ∉ Dict.keys d.
Proof.
  unfold Dict.keys. induction d as [|[k' v'] d IH]; simpl.
  - split; [intros _; apply not_elem_of_nil | reflexivity].
  - rewrite not_elem_of_cons. destruct (decide (k = k')) as [->|Hne].
    + split; [discriminate | intros [H _]; contradiction].
    + rewrite IH. tauto.
Qed.

Lemma Dict_set_absent k v d : Dict.get k d = None -> Dict.set k v d = d ++ [(k, v)].
Proof.
  induction d as [|[k' v'] d IH]; simpl; [reflexivity|].
  destruct (decide (k = k')); [discriminate|]. intros H. rewrite IH; auto.
Qed.

Lemma Dict_get_set_eq k v d : Dict.get k (Dict.set k v d) = Some v.
Proof.
  induction d as [|[k' v'] d IH]; simpl.
  - rewrite decide_True; reflexivity.
  - destruct (decide (k = k')) as [->|Hne]; simpl.
    + rewrite decide_True; reflexivity.
    + rewrite decide_False by assumption. exact IH.
Qed.

End DictProperties.

(** ** Properties of savepoints *)

Lemma match_name_tail_all (s : string) : all_name_chars s = true -> match_name_tail s = true.
Proof.
  induction s as [|c s IH]; simpl; [reflexivity|].
  destruct (is_name_char c); simpl; [exact IH | discriminate].
Qed.

Lemma re_match_name_all (s : string) :
  s <> EmptyString -> all_name_chars s = true -> re_match_name s = true.
Proof.
  destruct s as [|c s]; [congruence|]. simpl. intros _.
  destruct (is_name_char c); simpl; [apply match_name_tail_all | discriminate].
Qed.

Lemma match_name_tail_spec (s : string) :
  match_name_tail s = true ->
  exists body, all_name_chars body = true
               /\ (s = body \/ s = body +:+ String (ascii_of_nat 10) EmptyString).
Proof.
  induction s as [|c s IH]; simpl.
  - intros _. exists EmptyString. split; [reflexivity | left; reflexivity].
  - destruct (is_name_char c) eqn:Hc.
    + intros H. destruct (IH H) as (body & Hb & Hs).
      exists (String c body). simpl. rewrite Hc, Hb. split; [reflexivity|].
      destruct Hs as [->| ->]; [left | right]; reflexivity.
    + rewrite andb_true_iff, bool_decide_eq_true, Nat.eqb_eq.
      intros [Hn ->]. exists EmptyString. split; [reflexivity|]. right.
      rewrite <- Hn, ascii_nat_embedding. reflexivity.
Qed.

Lemma re_match_name_spec (s : string) :
  re_match_name s = true ->
  exists body, body <> EmptyString /\ all_name_chars body = true
               /\ (s = body \/ s = body +:+ String (ascii_of_nat 10) EmptyString).
Proof.
  destruct s as [|c s]; simpl; [discriminate|].
  rewrite andb_true_iff. intros [Hc H].
  destruct (match_name_tail_spec s H) as (body & Hb & Hs).
  exists (String c body). simpl. rewrite Hc, Hb.
  split; [discriminate|]. split; [reflexivity|].
  destruct Hs as [->| ->]; [left | right]; reflexivity.
Qed.

Section SavepointsProperties.

Variable DataFrame : Type.
Variable DataFrame_eq : DataFrame -> DataFrame -> bool.
Variable DataFrame_copy : DataFrame -> DataFrame.
Variable base_node : DataFrame -> SqlModel.
Variable quote_identifier : string -> string.
Variable to_sql_materialized_nodes : VirtualNode -> bool -> list (string * string).
Variable Database : Type.
Variable Row : Type.
Variable conn_execute : Database -> string -> result (Database * list Row).

Abbreviation Savepoints' := (Savepoints DataFrame).
Abbreviation add := (add_savepoint DataFrame DataFrame_eq DataFrame_copy).
Abbreviation differs' := (differs DataFrame DataFrame_eq).
Abbreviation fresh_entry n df m := (mkSavepointEntry DataFrame n (DataFrame_copy df) m ∅).

(** C5. [add_savepoint] checks the name with
    [re.match('^[a-zA-Z0-9_]+$', name)] and fails, leaving the savepoints as
    they are, when it does not match; when the name is present with an equal
    DataFrame and the same materialization the call changes nothing; when it
    is present with a different pair the call fails and changes nothing;
    otherwise the entry, a copy of the DataFrame with an empty [written_to_db],
    is added after the existing ones. So adding the same savepoint a second
    time is a no-op and adding it with another materialization fails. *)
Theorem C5_add_savepoint :
  forall (self : Savepoints') (name : option string) (df : DataFrame)
         (m : Materialization),
    match name with
    | None =>
        exists msg, add self None df m = (self, Raise (ValueError msg))
    | Some n =>
        if re_match_name n then
          match Dict.get n self with
          | Some existing =>
              if differs' existing df m
              then exists msg, add self name df m = (self, Raise (ValueError msg))
              else add self name df m = (self, Ok ())
          | None =>
              add self name df m = (self ++ [(n, fresh_entry n df m)], Ok ())
              /\ Dict.get n (self ++ [(n, fresh_entry n df m)])
                 = Some (fresh_entry n df m)
              /\ (DataFrame_eq (DataFrame_copy df) df = true ->
                  add (self ++ [(n, fresh_entry n df m)]) name df m
                  = (self ++ [(n, fresh_entry n df m)], Ok ())
                  /\ forall m', m' <> m ->
                       exists msg,
                         add (self ++ [(n, fresh_entry n df m)]) name df m'
                         = (self ++ [(n, fresh_entry n df m)], Raise (ValueError msg)))
          end
        else exists msg, add self name df m = (self, Raise (ValueError msg))
    end
    /\ (forall n, re_match_name n = true ->
          exists body, body <> EmptyString /\ all_name_chars body = true
            /\ (n = body \/ n = body +:+ String (ascii_of_nat 10) EmptyString))
    /\ (forall n, n <> EmptyString -> all_name_chars n = true -> re_match_name n = true).
Proof.
  intros self name df m. split; [|split; [apply re_match_name_spec | apply re_match_name_all]].
  destruct name as [n|]; [|eexists; reflexivity].
  unfold add_savepoint. destruct (re_match_name n) eqn:Hn; simpl;
    [|eexists; reflexivity].
  destruct (Dict.get n self) as [existing|] eqn:Hget.
  - destruct (differs' existing df m); [eexists; reflexivity | reflexivity].
  - rewrite Dict_set_absent by assumption.
    assert (Hnew : Dict.get n (self ++ [(n, fresh_entry n df m)])
                   = Some (fresh_entry n df m)).
    { rewrite <- Dict_set_absent by assumption. apply Dict_get_set_eq. }
    split; [reflexivity|]. split; [exact Hnew|].
    intros Hcopy. rewrite Hnew. unfold differs. simpl. rewrite Hcopy. simpl.
    split.
    + rewrite bool_decide_eq_true_2 by reflexivity. reflexivity.
    + intros m' Hm'. rewrite bool_decide_eq_false_2 by congruence.
      eexists; reflexivity.
Qed.

(** *** Drop and create statements *)

Abbreviation to_sql_ := (Savepoints_to_sql DataFrame base_node to_sql_materialized_nodes).
Abbreviation get_drops :=
  (get_drop_statements DataFrame base_node quote_identifier to_sql_materialized_nodes).
Abbreviation get_creates :=
  (get_create_statements DataFrame base_node to_sql_materialized_nodes).

Abbreviation table_or_view' := (table_or_view DataFrame).
Abbreviation drop_statement' := (drop_statement DataFrame quote_identifier).

Lemma drop_statement_keys (self : Savepoints') (ns : list string) :
  Dict.keys (flat_map (drop_statement' self) ns) = List.filter (table_or_view' self) ns.
Proof.
  unfold Dict.keys. induction ns as [|n ns IH]; simpl; [reflexivity|].
  rewrite map_app, IH. unfold drop_statement, table_or_view.
  destruct (Dict.get n self) as [info|]; [|reflexivity].
  destruct (materialization DataFrame info); reflexivity.
Qed.

Lemma drop_loop_spec (self : Savepoints') (ns : list string) :
  forall acc : list (string * string),
    NoDup ns ->
    (forall n, n ∈ ns -> n ∉ Dict.keys acc) ->
    Forall (fun n => is_Some (Dict.get n self)) ns ->
    drop_loop DataFrame quote_identifier self ns acc
    = Ok (acc ++ flat_map (drop_statement' self) ns).
Proof.
  induction ns as [|n ns IH]; intros acc Hnd Hfresh Hall.
  - simpl. rewrite app_nil_r. reflexivity.
  - apply NoDup_cons in Hnd as [Hn Hnd]. apply Forall_cons in Hall as [[info Hinfo] Hall].
    assert (Hacc : Dict.get n acc = None).
    { apply Dict_get_None, Hfresh. left. }
    assert (Hfresh' : forall v n', n' ∈ ns -> n' ∉ Dict.keys (acc ++ [(n, v)])).
    { intros v n' Hin. unfold Dict.keys. rewrite map_app. simpl.
      rewrite elem_of_app, list_elem_of_singleton. intros [Hk | ->].
      - eapply Hfresh; [right; exact Hin | exact Hk].
      - contradiction. }
    cbn [drop_loop flat_map]. unfold drop_step, drop_statement. rewrite Hinfo.
    destruct (materialization DataFrame info); cbn [mbind result_bind].
    + rewrite IH; auto. intros n' Hin. apply Hfresh. right. exact Hin.
    + rewrite Dict_set_absent, IH, <- app_assoc; auto.
    + rewrite Dict_set_absent, IH, <- app_assoc; auto.
    + rewrite IH; auto. intros n' Hin. apply Hfresh. right. exact Hin.
Qed.

Lemma create_loop_spec (self : Savepoints') (items : list (string * string)) :
  forall acc : list (string * string),
    NoDup (Dict.keys items) ->
    (forall n, n ∈ Dict.keys items -> n ∉ Dict.keys acc) ->
    Forall (fun n => is_Some (Dict.get n self)) (Dict.keys items) ->
    create_loop DataFrame self items acc
    = Ok (acc ++ List.filter (fun item => table_or_view' self item.1) items).
Proof.
  induction items as [|[n st] items IH]; intros acc Hnd Hfresh Hall.
  - simpl. rewrite app_nil_r. reflexivity.
  - cbn [Dict.keys map fst] in Hnd, Hfresh, Hall. fold (Dict.keys items) in *.
    apply NoDup_cons in Hnd as [Hn Hnd]. apply Forall_cons in Hall as [[info Hinfo] Hall].
    assert (Hacc : Dict.get n acc = None).
    { apply Dict_get_None, Hfresh. left. }
    cbn [create_loop List.filter fst]. unfold table_or_view at 1. rewrite Hinfo.
    destruct (is_table_or_view (materialization DataFrame info)).
    + rewrite Dict_set_absent, IH, <- app_assoc; auto.
      intros n' Hin. unfold Dict.keys. rewrite map_app. simpl.
      rewrite elem_of_app, list_elem_of_singleton. intros [Hk | ->].
      * eapply Hfresh; [right; exact Hin | exact Hk].
      * contradiction.
    + rewrite IH; auto. intros n' Hin. apply Hfresh. right. exact Hin.
Qed.

Lemma filter_keys (self : Savepoints') (items : list (string * string)) :
  Dict.keys (List.filter (fun item => table_or_view' self item.1) items)
  = List.filter (table_or_view' self) (Dict.keys items).
Proof.
  unfold Dict.keys. induction items as [|[n st] items IH]; simpl; [reflexivity|].
  destruct (table_or_view' self n); simpl; rewrite IH; reflexivity.
Qed.

Lemma filter_reverse {A} (f : A -> bool) (l : list A) :
  List.filter f (reverse l) = reverse (List.filter f l).
Proof.
  induction l as [|x l IH]; [reflexivity|].
  rewrite reverse_cons, List.filter_app, IH. simpl.
  destruct (f x); [rewrite reverse_cons | rewrite app_nil_r]; reflexivity.
Qed.

(** C9. When the statements that [to_sql] gives are keyed by names of
    savepoints, [get_create_statements] returns the statements of the tables
    and views in the order of [to_sql], and [get_drop_statements] returns a
    drop statement for each table and view, keyed by name, in the reverse
    order: the keys of the drop statements are the keys of the create
    statements reversed, and no other kind of savepoint is among them. *)
Theorem C9_drop_and_create_statements :
  forall self : Savepoints',
    NoDup (Dict.keys (to_sql_ self)) ->
    Forall (fun n => is_Some (Dict.get n self)) (Dict.keys (to_sql_ self)) ->
    exists drops creates,
      get_drops self = Ok drops
      /\ get_creates self = Ok creates
      /\ creates = List.filter (fun item => table_or_view' self item.1) (to_sql_ self)
      /\ drops = flat_map (drop_statement' self) (reverse (Dict.keys (to_sql_ self)))
      /\ Dict.keys creates = List.filter (table_or_view' self) (Dict.keys (to_sql_ self))
      /\ Dict.keys drops = reverse (Dict.keys creates)
      /\ Forall (fun n => table_or_view' self n = true) (Dict.keys drops).
Proof.
  intros self Hnd Hall. eexists. eexists.
  split.
  { unfold get_drop_statements. rewrite drop_loop_spec.
    - reflexivity.
    - rewrite reverse_Permutation. exact Hnd.
    - intros n _. apply not_elem_of_nil.
    - rewrite Forall_reverse. exact Hall. }
  split.
  { unfold get_create_statements. rewrite create_loop_spec.
    - reflexivity.
    - exact Hnd.
    - intros n _. apply not_elem_of_nil.
    - exact Hall. }
  cbn [app].
  split; [reflexivity|]. split; [reflexivity|].
  split; [apply filter_keys|].
  split.
  - rewrite drop_statement_keys, filter_keys, filter_reverse. reflexivity.
  - rewrite drop_statement_keys. apply Forall_forall. intros n Hin.
    apply list_elem_of_In, List.filter_In in Hin. apply Hin.
Qed.

(** *** Execution *)

(** When [execute_sql] raises, nothing is returned and the database is the
    one before the call. *)
Lemma execute_sql_raise_rolls_back (self after : Savepoints') (db db' : Database)
    (engine : Engine) (overwrite : bool) (e : exn) :
  execute_sql DataFrame base_node quote_identifier to_sql_materialized_nodes
    Database Row conn_execute self db engine overwrite = (after, db', Raise e) ->
  db' = db.
Proof.
  unfold execute_sql.
  destruct (execute_drops _ _ _ _ _ _ _ _ _ _) as [db1|e1];
    [|intros [= _ <- _]; reflexivity].
  match goal with |- context [execute_loop ?a ?b ?c ?d ?f ?g ?h] =>
    destruct (execute_loop a b c d f g h) as [st [[]|e2]] end;
    [discriminate|].
  intros [= _ <- _]. reflexivity.
Qed.

End SavepointsProperties.

(** ** Properties of typed columns *)

Lemma _get_supported_different_base_node (self other : Series) opname dtypes :
  base_node self <> base_node other ->
  _get_supported self opname dtypes other
  = Raise (ValueError (different_base_node_message opname)).
Proof.
  intros H. unfold _get_supported.
  rewrite bool_decide_eq_false_2 by assumption. reflexivity.
Qed.

Lemma _binary_operation_different_base_node (self other : Series) opname fmt dtypes d :
  dtypes <> [] ->
  base_node self <> base_node other ->
  _binary_operation self (VSeries other) opname fmt dtypes d
  = Raise (ValueError (different_base_node_message opname)).
Proof.
  intros Hd H. unfold _binary_operation.
  rewrite bool_decide_eq_false_2 by (destruct dtypes; [congruence | discriminate]).
  cbn [const_to_series]. rewrite _get_supported_different_base_node by assumption.
  reflexivity.
Qed.

(** C4. Two series with different base nodes are never combined by a binary
    operator: the call raises. When the class of the left-hand side supports
    the operator (the comparators of [SeriesBoolean] and [SeriesUuid], the
    boolean operators of [SeriesBoolean]) the error is the [ValueError] of
    [_get_supported], whose message names the operation and points to
    [merge()]; for every other operator the call raises
    [NotImplementedError] before the base nodes are looked at. *)
Theorem C4_different_base_node_never_combines :
  forall (op : BinOp) (self other : Series),
    base_node self <> base_node other ->
    exists e,
      binary_operation op self (VSeries other) = Raise e
      /\ match operation_name (series_class self) op with
         | Some opname => e = ValueError (different_base_node_message opname)
         | None => exists msg, e = NotImplementedError msg
         end.
Proof.
  intros op self other H.
  destruct self as [c en bn ix nm ex gb sa].
  destruct c, op; cbn -[different_base_node_message];
    unfold __add__, __sub__, __truediv__, __floordiv__, __mul__, __mod__, __pow__,
      __lshift__, __rshift__, __and__, __or__, __xor__,
      __ne__, __eq__, __lt__, __le__, __ge__, __gt__,
      _comparator_operation, _boolean_operator, Series_comparator_operation,
      SeriesUuid_comparator_operation, _arithmetic_operation, __floordiv__;
    cbn -[different_base_node_message _binary_operation _get_supported];
    rewrite ?_binary_operation_different_base_node by (assumption || discriminate);
    rewrite ?_get_supported_different_base_node by assumption;
    eexists; (split; [reflexivity|]); try reflexivity; eexists; reflexivity.
Qed.

(** *** Splitting a format string that embeds a number *)

Lemma split_braces_other (c : Ascii.ascii) (tl : string) :
  Ascii.eqb c "{"%char = false ->
  split_braces (String c tl) = cons_head c (split_braces tl).
Proof. intros Hc. destruct tl; cbn [split_braces]; rewrite ?Hc; reflexivity. Qed.

Lemma split_braces_prefix (d s : string) :
  no_open_brace d = true -> split_braces (d +:+ s) = prepend d (split_braces s).
Proof.
  induction d as [|c d IH]; intros Hd.
  - change (EmptyString +:+ s) with s.
    destruct (split_braces s) eqn:Hs; [|reflexivity].
    exfalso. eapply split_braces_not_nil; eassumption.
  - simpl in Hd. apply andb_true_iff in Hd as [Hc Hd]. apply negb_true_iff in Hc.
    change (String c d +:+ s) with (String c (d +:+ s)).
    rewrite split_braces_other, IH by assumption.
    destruct (split_braces s); reflexivity.
Qed.

Lemma split_braces_marker (s : string) :
  split_braces ("{}" +:+ s) = EmptyString :: split_braces s.
Proof. reflexivity. Qed.

Lemma no_open_brace_app (a b : string) :
  no_open_brace a = true -> no_open_brace b = true -> no_open_brace (a +:+ b) = true.
Proof.
  induction a as [|c a IH]; intros Ha Hb; [exact Hb|].
  simpl in Ha. apply andb_true_iff in Ha as [Hc Ha].
  change (String c a +:+ b) with (String c (a +:+ b)). simpl.
  rewrite Hc, IH by assumption. reflexivity.
Qed.

Lemma pretty_N_go_no_open_brace (x : N) :
  forall s, no_open_brace s = true -> no_open_brace (pretty_N_go x s) = true.
Proof.
  induction (N.lt_wf_0 x) as [x _ IH]. intros s Hs.
  destruct (decide (x = 0%N)) as [->|Hx].
  - rewrite pretty_N_go_0. exact Hs.
  - rewrite pretty_N_go_step by lia. apply IH.
    + apply N.div_lt; lia.
    + simpl. rewrite Hs, andb_true_r.
      unfold pretty_N_char. repeat case_match; reflexivity.
Qed.

Lemma str_of_Z_no_open_brace (n : Z) : no_open_brace (str_of_Z n) = true.
Proof.
  unfold str_of_Z, pretty, pretty_Z.
  assert (HN : forall x : N, no_open_brace (pretty x) = true).
  { intros x. unfold pretty, pretty_N. case_decide; [reflexivity|].
    apply pretty_N_go_no_open_brace. reflexivity. }
  destruct n as [|p|p]; [reflexivity | apply HN |].
  change (no_open_brace (String "-" (pretty (N.pos p))) = true).
  simpl. apply HN.
Qed.

Lemma split_braces_min_count (n : Z) :
  split_braces ("CASE WHEN {} >= " +:+ str_of_Z n +:+ " THEN {} ELSE NULL END")
  = ["CASE WHEN "; " >= " +:+ str_of_Z n +:+ " THEN "; " ELSE NULL END"].
Proof.
  change ("CASE WHEN {} >= " +:+ str_of_Z n +:+ " THEN {} ELSE NULL END")
    with ("CASE WHEN " +:+ "{}" +:+ " >= " +:+ str_of_Z n +:+ " THEN {} ELSE NULL END").
  rewrite split_braces_prefix, split_braces_marker by reflexivity.
  replace (" >= " +:+ str_of_Z n +:+ " THEN {} ELSE NULL END")
    with ((" >= " +:+ str_of_Z n +:+ " THEN ") +:+ "{}" +:+ " ELSE NULL END").
  2:{ change (" THEN {} ELSE NULL END") with (" THEN " +:+ "{}" +:+ " ELSE NULL END").
      rewrite !append_assoc. reflexivity. }
  rewrite split_braces_prefix, split_braces_marker.
  - cbn. rewrite !append_empty_r. reflexivity.
  - apply (no_open_brace_app " >= "); [reflexivity|].
    apply no_open_brace_app; [apply str_of_Z_no_open_brace | reflexivity].
Qed.

(** *** Aggregation with a minimum count *)

Lemma segment_items_not_empty (s : string) :
  s <> EmptyString -> segment_items s = [Tok (RawToken s)].
Proof. intros H. unfold segment_items. rewrite bool_decide_eq_false_2; auto. Qed.

Lemma construct_count (e : Expression) :
  construct K_Expression ("count" +:+ "({})") [e]
  = Ok (Expr K_Expression None
          ([Tok (RawToken "count(")] ++ arg_items e ++ [Tok (RawToken ")")])).
Proof.
  rewrite (construct_ok K_Expression _ [e] "count(" [")"]) by reflexivity.
  cbn [weave]. rewrite !segment_items_not_empty by discriminate.
  rewrite app_nil_r. reflexivity.
Qed.

Lemma construct_min_count (c e : Expression) (n : Z) :
  construct K_Expression
    ("CASE WHEN {} >= " +:+ str_of_Z n +:+ " THEN {} ELSE NULL END") [c; e]
  = Ok (Expr K_Expression None
          ([Tok (RawToken "CASE WHEN ")] ++ arg_items c
           ++ [Tok (RawToken (" >= " +:+ str_of_Z n +:+ " THEN "))]
           ++ arg_items e ++ [Tok (RawToken " ELSE NULL END")])).
Proof.
  rewrite (construct_ok K_Expression _ [c; e] "CASE WHEN "
             [" >= " +:+ str_of_Z n +:+ " THEN "; " ELSE NULL END"]);
    [|apply split_braces_min_count | reflexivity].
  cbn [weave]. rewrite !segment_items_not_empty by discriminate.
  rewrite app_nil_r. reflexivity.
Qed.

Section SeriesProperties.

Variable GroupBy_eq : GroupBy -> GroupBy -> bool.
Variable get_window_expression : GroupBy -> Expression -> Expression.
Variable get_dummy_index_series : Engine -> SqlModel -> Series.
Variable escape_format_string : string -> string.
Variable quote_string : string -> string.
Variable quote_identifier : string -> string.

Abbreviation count' := (count GroupBy_eq get_window_expression get_dummy_index_series).
Abbreviation derived_agg :=
  (_derived_agg_func GroupBy_eq get_window_expression get_dummy_index_series).
Abbreviation matches := (grouping_matches GroupBy_eq).

Lemma count_over_grouping (self : Series) (g : GroupBy) :
  is_Window g = false ->
  count' self (Some (WrapGroupBy g)) true
  = if matches self g
    then Ok (copy_override self (Some "int64") None None (Some (GroupBy_index g)) None
               (Some (count_expression self)) (Some (Some g)) None)
    else Raise (ValueError "passed partition does not match series partition. I'm confused").
Proof.
  intros Hg. unfold count, _derived_agg_func_body. cbn [negb agg_expression].
  rewrite construct_count. cbn [mbind result_bind agg_partition _check_unwrap_groupby].
  rewrite Hg. cbn [andb negb agg_min_count mbind result_bind].
  unfold agg_result, grouping_matches. rewrite Hg. cbn [negb].
  destruct (group_by self) as [g'|]; [|reflexivity].
  destruct (GroupBy_eq g' g); reflexivity.
Qed.

(** C3. For a positive [min_count], once the expression and the partition
    of the call are settled: over a window the call fails with
    [NotImplementedError] unless [min_count] equals the window's
    [min_values], and then the expression is left as it is; over a plain
    grouping that matches the grouping of the series the expression of the
    result is [CASE WHEN count(<series>) >= min_count THEN <expression> ELSE
    NULL END], built from [self.count(partition)], and the call fails when the
    series carries another grouping. *)
Theorem C3_positive_min_count :
  forall (self : Series) (partition : option WrappedPartition)
         (expression' : string + Expression) (dtype' : option string) (n : Z)
         (g : GroupBy) (e : Expression),
    (0 < n)%Z ->
    agg_expression self expression' = Ok e ->
    agg_partition get_dummy_index_series self partition = Ok g ->
    let call := derived_agg self partition expression' dtype' true (Some n) in
    if is_Window g then
      if bool_decide (min_values g = Some n)
      then call = Ok (copy_override self (Some (default (dtype self) dtype')) None None
                        None None (Some (get_window_expression g e)) None None)
      else call = Raise (NotImplementedError
                           ("min_count conflicting with min_values in Window"
                            +:+ str_of_Z n +:+ " != " +:+ str_of_option_Z (min_values g)))
    else
      if matches self g
      then call = Ok (copy_override self (Some (default (dtype self) dtype')) None None
                        (Some (GroupBy_index g)) None
                        (Some (min_count_expression self e n)) (Some (Some g)) None)
           /\ forall tn,
                to_sql escape_format_string quote_string quote_identifier
                  (min_count_expression self e n) tn
                = Ok (escape_format_string "CASE WHEN "
                      +:+ arg_text escape_format_string quote_string quote_identifier tn
                            (count_expression self)
                      +:+ escape_format_string (" >= " +:+ str_of_Z n +:+ " THEN ")
                      +:+ arg_text escape_format_string quote_string quote_identifier tn e
                      +:+ escape_format_string " ELSE NULL END")
      else call = Raise (ValueError
                           "passed partition does not match series partition. I'm confused").
Proof.
  intros self partition expression' dtype' n g e Hn He Hp call. subst call.
  unfold _derived_agg_func, _derived_agg_func_body. cbn [negb].
  rewrite He, Hp. cbn [mbind result_bind]. unfold agg_min_count.
  assert (Hpos : (0 <? n)%Z = true) by (apply Z.ltb_lt; exact Hn). rewrite Hpos.
  destruct (is_Window g) eqn:Hg.
  - case_bool_decide as Hmv; cbn [negb mbind result_bind]; [|reflexivity].
    unfold agg_result. rewrite Hg. reflexivity.
  - rewrite count_over_grouping by assumption.
    destruct (matches self g) eqn:Hm; cbn [mbind result_bind]; [|reflexivity].
    assert (Hexpr : expression
                      (copy_override self (Some "int64") None None
                         (Some (GroupBy_index g)) None (Some (count_expression self))
                         (Some (Some g)) None) = count_expression self) by reflexivity.
    rewrite Hexpr, construct_min_count. cbn [mbind result_bind].
    unfold agg_result. rewrite Hg. cbn [negb].
    unfold grouping_matches in Hm. split.
    + destruct (group_by self) as [g'|]; [rewrite Hm|]; reflexivity.
    + intros tn. rewrite to_sql_render. unfold min_count_expression. cbn [render].
      rewrite !map_app, !join_app, !render_arg_items. cbn [map join fold_right].
      rewrite !append_empty_r. reflexivity.
Qed.

End SeriesProperties.

(** ** The properties on concrete inputs *)

Module Examples.

Import Sample.

Abbreviation sql e tn := (to_sql escape_format_string quote_string quote_identifier e tn).

(** A [NonAtomicExpression] argument is rendered between parentheses, a plain
    one as it is. *)
Example construct_non_atomic_sql :
  (X ← construct K_Expression "{} OP {}"
         [Expr K_NonAtomicExpression None [Tok (RawToken "a + b")];
          Expr K_Expression None [Tok (RawToken "c")]];
   sql X None)
  = Ok "(a + b) OP c".
Proof. vm_compute. reflexivity. Qed.

Example construct_mismatch :
  construct K_Expression "{} OP {}" [Expr K_Expression None [Tok (RawToken "c")]]
  = Raise (ValueError ("For each {} in the fmt there should be an Expression provided. "
                       +:+ "Found {}: 2, provided expressions: 1")).
Proof. vm_compute. reflexivity. Qed.

(** A column reference is emitted quoted, and qualified when an alias is
    given. *)
Example column_reference_sql :
  sql (column_reference K_Expression "x") (Some "t")
  = Ok (dq +:+ "t" +:+ dq +:+ "." +:+ dq +:+ "x" +:+ dq)
  /\ sql (column_reference K_Expression "x") None = Ok (dq +:+ "x" +:+ dq).
Proof. split; vm_compute; reflexivity. Qed.

Abbreviation derived_agg :=
  (_derived_agg_func GroupBy_eq get_window_expression get_dummy_index_series).

(** [flag.sum(group, min_count=5)]: the claim C3 at a grouping. *)
Lemma C3_witness_grouping :
  derived_agg bool_1 (Some (WrapGroupBy group_flag)) (inl "sum") None true (Some 5%Z)
  = Ok (copy_override bool_1 (Some "bool") None None (Some (GroupBy_index group_flag))
          None
          (Some (min_count_expression bool_1
                   (Expr K_Expression None
                      [Tok (RawToken "sum("); Sub (expression bool_1);
                       Tok (RawToken ")")]) 5))
          (Some (Some group_flag)) None)
  /\ forall tn,
       to_sql escape_format_string quote_string quote_identifier
         (min_count_expression bool_1
            (Expr K_Expression None
               [Tok (RawToken "sum("); Sub (expression bool_1); Tok (RawToken ")")]) 5)
         tn
       = Ok (escape_format_string "CASE WHEN "
             +:+ arg_text escape_format_string quote_string quote_identifier tn
                   (count_expression bool_1)
             +:+ escape_format_string (" >= " +:+ str_of_Z 5 +:+ " THEN ")
             +:+ arg_text escape_format_string quote_string quote_identifier tn
                   (Expr K_Expression None
                      [Tok (RawToken "sum("); Sub (expression bool_1);
                       Tok (RawToken ")")])
             +:+ escape_format_string " ELSE NULL END").
Proof.
  apply (C3_positive_min_count GroupBy_eq get_window_expression get_dummy_index_series
           escape_format_string quote_string quote_identifier
           bool_1 (Some (WrapGroupBy group_flag)) (inl "sum") None 5%Z group_flag).
  - lia.
  - reflexivity.
  - reflexivity.
Defined.

(** The SQL of that aggregate. *)
Example C3_grouping_sql :
  (s ← derived_agg bool_1 (Some (WrapGroupBy group_flag)) (inl "sum") None true
         (Some 5%Z);
   to_sql escape_format_string quote_string quote_identifier (expression s) None)
  = Ok ("CASE WHEN count(" +:+ dq +:+ "flag" +:+ dq +:+ ") >= 5 THEN sum("
        +:+ dq +:+ "flag" +:+ dq +:+ ") ELSE NULL END").
Proof. vm_compute. reflexivity. Qed.

(** With [min_count=0] a window whose [min_values] is 3 is accepted, and over
    a grouping the expression is not wrapped. *)
Lemma C3_counterexample_min_count_zero :
  min_values window_flag <> Some 0%Z
  /\ is_ok (derived_agg bool_1 (Some (WrapGroupBy window_flag)) (inl "sum") None true
              (Some 0%Z)) = true
  /\ (s ← derived_agg bool_1 (Some (WrapGroupBy group_flag)) (inl "sum") None true
            (Some 0%Z);
      to_sql escape_format_string quote_string quote_identifier (expression s) None)
     = Ok ("sum(" +:+ dq +:+ "flag" +:+ dq +:+ ")").
Proof.
  split; [discriminate|]. split; vm_compute; reflexivity.
Qed.

(** [flag & other_flag] on two base nodes: the claim C4 at a supported
    operator. *)
Lemma C4_witness_and :
  exists e,
    binary_operation Op_and bool_1 (VSeries bool_2) = Raise e
    /\ e = ValueError (different_base_node_message "boolean operator 'AND'").
Proof.
  apply (C4_different_base_node_never_combines Op_and bool_1 bool_2).
  discriminate.
Defined.

(** [flag + other_flag] on two base nodes raises [NotImplementedError], not
    the error about the base nodes. *)
Lemma C4_counterexample_add :
  base_node bool_1 <> base_node bool_2
  /\ binary_operation Op_add bool_1 (VSeries bool_2)
     = Raise (NotImplementedError
                ("arithmetic operation add not supported for "
                 +:+ "<class 'bach.series.series_boolean.SeriesBoolean'> and "
                 +:+ "<class 'bach.series.series_boolean.SeriesBoolean'>"))
  /\ ~ (exists msg, binary_operation Op_add bool_1 (VSeries bool_2)
                    = Raise (ValueError msg)).
Proof.
  split; [discriminate|]. split; [reflexivity|]. intros [msg H]. discriminate H.
Qed.

Abbreviation to_sql_abc :=
  (Savepoints_to_sql DataFrame df_base_node to_sql_materialized_nodes).

(** The savepoints [a] (query), [b] (table) and [c] (view): the claim C9. *)
Lemma C9_witness_abc :
  exists drops creates,
    get_drop_statements DataFrame df_base_node quote_identifier
      to_sql_materialized_nodes savepoints_abc = Ok drops
    /\ get_create_statements DataFrame df_base_node to_sql_materialized_nodes
         savepoints_abc = Ok creates
    /\ creates = List.filter (fun item => table_or_view DataFrame savepoints_abc item.1)
                   (to_sql_abc savepoints_abc)
    /\ drops = flat_map (drop_statement DataFrame quote_identifier savepoints_abc)
                 (reverse (Dict.keys (to_sql_abc savepoints_abc)))
    /\ Dict.keys creates
       = List.filter (table_or_view DataFrame savepoints_abc)
           (Dict.keys (to_sql_abc savepoints_abc))
    /\ Dict.keys drops = reverse (Dict.keys creates)
    /\ Forall (fun n => table_or_view DataFrame savepoints_abc n = true) (Dict.keys drops).
Proof.
  apply (C9_drop_and_create_statements DataFrame df_base_node quote_identifier
           to_sql_materialized_nodes savepoints_abc).
  - apply (bool_decide_unpack _). vm_compute. exact I.
  - apply (bool_decide_unpack _). vm_compute. exact I.
Defined.

Example C9_abc_statements :
  Dict.keys (to_sql_abc savepoints_abc) = ["a"; "b"; "c"]
  /\ Dict.keys <$> get_create_statements DataFrame df_base_node
                     to_sql_materialized_nodes savepoints_abc = Ok ["b"; "c"]
  /\ get_drop_statements DataFrame df_base_node quote_identifier
       to_sql_materialized_nodes savepoints_abc
     = Ok [("c", "drop view if exists " +:+ dq +:+ "c" +:+ dq);
           ("b", "drop table if exists " +:+ dq +:+ "b" +:+ dq)].
Proof. repeat split; vm_compute; reflexivity. Qed.

Abbreviation execute :=
  (execute_sql DataFrame df_base_node quote_identifier to_sql_materialized_nodes
     (list string) string conn_execute).

(** C1. The second of three statements fails: [execute_sql] raises, so no
    created objects are returned, and the database is the one before the
    call; but the entry of the first statement, whose [written_to_db] was empty,
    now holds the url of the engine, and is taken as materialized. *)
Theorem C1_failed_execute_keeps_written_to_db :
  let '(after, db, returned) := execute savepoints_broken [] engine false in
  Dict.keys (to_sql_abc savepoints_broken) = ["a"; "b"; "c"]
  /\ returned = Raise (ValueError "relation does not exist")
  /\ db = []
  /\ written_to_db DataFrame <$> Dict.get "a" savepoints_broken = Some ∅
  /\ written_to_db DataFrame <$> Dict.get "a" after = Some {[ url engine ]}
  /\ written_to_db DataFrame <$> Dict.get "b" after = Some ∅
  /\ is_materialized DataFrame after engine "a" = Ok true.
Proof. vm_compute. repeat split; reflexivity. Qed.

End Examples.

(** ** Further properties of expressions *)

Section ExpressionExtras.

Variable escape_format_string : string -> string.
Variable quote_string : string -> string.
Variable quote_identifier : string -> string.

Abbreviation sql_of := (to_sql escape_format_string quote_string quote_identifier).
Abbreviation text_of := (render escape_format_string quote_string quote_identifier).
Abbreviation token_text :=
  (resolved_token_text escape_format_string quote_string quote_identifier).
Abbreviation resolved e tn := (resolve_column_references quote_identifier e tn).

Lemma join_cons (x : string) (l : list string) : join (x :: l) = x +:+ join l.
Proof. reflexivity. Qed.

Lemma render_tokens (e : Expression) tn :
  text_of tn e = join (map (token_text tn) (get_all_tokens e)).
Proof.
  induction e as [k n d IH] using Expression_ind. cbn [render get_all_tokens].
  induction IH as [|[t|s] d Hx _ IHl]; [reflexivity | |].
  - cbn [map flat_map app]. rewrite !join_cons, <- IHl. reflexivity.
  - cbn [map flat_map]. rewrite map_app, join_app, join_cons, <- IHl, <- Hx.
    reflexivity.
Qed.

(** X1. The SQL of an expression is the concatenation, depth first and left
    to right, of the texts of all its tokens. *)
Theorem X1_to_sql_concatenates_all_tokens :
  forall (e : Expression) (tn : option string),
    sql_of e tn = Ok (join (map (token_text tn) (get_all_tokens e))).
Proof. intros e tn. rewrite to_sql_render, render_tokens. reflexivity. Qed.

(** *** The flags and the resolution of column references *)

Lemma flag_children_resolve {B} (f : Expression -> B) (d : list Item) tn :
  Forall (fun x => match x with inl _ => True | inr s => f (resolved s tn) = f s end) d ->
  flat_map (fun x => match x with inl _ => [] | inr s => [f s] end)
    (map (resolve_item quote_identifier tn) d)
  = flat_map (fun x => match x with inl _ => [] | inr s => [f s] end) d.
Proof.
  induction 1 as [|[t|s] d Hx _ IH]; [reflexivity | exact IH |].
  cbn [map flat_map resolve_item]. rewrite Hx, IH. reflexivity.
Qed.

Lemma is_constant_resolve (e : Expression) tn :
  is_constant (resolved e tn) = is_constant e.
Proof.
  induction e as [k n d IH] using Expression_ind.
  rewrite resolve_column_references_unfold.
  destruct k; cbn [is_constant]; try reflexivity;
    rewrite (flag_children_resolve is_constant) by exact IH; reflexivity.
Qed.

Lemma is_single_value_resolve (e : Expression) tn :
  is_single_value (resolved e tn) = is_single_value e.
Proof.
  induction e as [k n d IH] using Expression_ind.
  rewrite resolve_column_references_unfold.
  destruct k; cbn [is_single_value]; try reflexivity;
    rewrite (flag_children_resolve is_single_value) by exact IH; reflexivity.
Qed.

Lemma is_independent_subquery_resolve (e : Expression) tn :
  is_independent_subquery (resolved e tn) = is_independent_subquery e.
Proof.
  induction e as [k n d IH] using Expression_ind.
  rewrite resolve_column_references_unfold.
  destruct k; cbn [is_independent_subquery]; try reflexivity;
    rewrite (flag_children_resolve is_independent_subquery) by exact IH; reflexivity.
Qed.

Lemma has_aggregate_function_resolve (e : Expression) tn :
  has_aggregate_function (resolved e tn) = has_aggregate_function e.
Proof.
  induction e as [k n d IH] using Expression_ind.
  rewrite resolve_column_references_unfold.
  destruct k; cbn [has_aggregate_function]; try reflexivity;
    rewrite (flag_children_resolve has_aggregate_function) by exact IH; reflexivity.
Qed.

Lemma has_windowed_aggregate_function_resolve (e : Expression) tn :
  has_windowed_aggregate_function (resolved e tn) = has_windowed_aggregate_function e.
Proof.
  induction e as [k n d IH] using Expression_ind.
  rewrite resolve_column_references_unfold. cbn [has_windowed_aggregate_function].
  rewrite (flag_children_resolve has_windowed_aggregate_function) by exact IH.
  reflexivity.
Qed.

(** X2. Resolving the column references of an expression changes none of its
    flags: [is_constant], [is_single_value], [is_independent_subquery],
    [has_aggregate_function] and [has_windowed_aggregate_function] are those
    of the original. *)
Theorem X2_resolution_keeps_flags :
  forall (e : Expression) (tn : option string),
    is_constant (resolved e tn) = is_constant e
    /\ is_single_value (resolved e tn) = is_single_value e
    /\ is_independent_subquery (resolved e tn) = is_independent_subquery e
    /\ has_aggregate_function (resolved e tn) = has_aggregate_function e
    /\ has_windowed_aggregate_function (resolved e tn)
       = has_windowed_aggregate_function e.
Proof.
  intros e tn.
  split; [apply is_constant_resolve|].
  split; [apply is_single_value_resolve|].
  split; [apply is_independent_subquery_resolve|].
  split; [apply has_aggregate_function_resolve|].
  apply has_windowed_aggregate_function_resolve.
Qed.

End ExpressionExtras.

(** *** Where the aggregate flags come from *)

Lemma py_any_children (F : Expression -> bool) (d : list Item) :
  py_any (flat_map (fun x => match x with inl _ => [] | inr s => [F s] end) d)
  = existsb (fun x => match x with inl _ => false | inr s => F s end) d.
Proof.
  unfold py_any. induction d as [|[t|s] d IH]; [reflexivity | exact IH |].
  cbn [flat_map app existsb]. rewrite IH. reflexivity.
Qed.

Lemma existsb_children (G : Expression -> bool) (N : Expression -> list Expression)
    (d : list Item) :
  existsb G (flat_map (fun x => match x with inl _ => [] | inr s => N s end) d)
  = existsb (fun x => match x with inl _ => false | inr s => existsb G (N s) end) d.
Proof.
  induction d as [|[t|s] d IH]; [reflexivity | exact IH |].
  cbn [flat_map existsb]. rewrite existsb_app, IH. reflexivity.
Qed.

Lemma existsb_ext_Forall {A} (f g : A -> bool) (l : list A) :
  Forall (fun x => f x = g x) l -> existsb f l = existsb g l.
Proof.
  induction 1 as [|x l Hx _ IH]; [reflexivity|]. simpl. rewrite Hx, IH. reflexivity.
Qed.

Lemma has_windowed_nested (e : Expression) :
  has_windowed_aggregate_function e = existsb isinstance_WindowFunction (nested e).
Proof.
  induction e as [k n d IH] using Expression_ind.
  cbn [has_windowed_aggregate_function nested existsb].
  rewrite py_any_children, existsb_children. f_equal.
  apply existsb_ext_Forall. eapply Forall_impl; [exact IH|].
  intros [t|s]; [reflexivity | auto].
Qed.

Lemma has_aggregate_outside_windows (e : Expression) :
  has_aggregate_function e = existsb isinstance_AggregateFunction (outside_windows e).
Proof.
  induction e as [k n d IH] using Expression_ind.
  destruct k; cbn [has_aggregate_function outside_windows existsb]; try reflexivity;
    rewrite py_any_children, existsb_children; f_equal;
    apply existsb_ext_Forall; (eapply Forall_impl; [exact IH|]);
    intros [t|s]; try reflexivity; auto.
Qed.

(** X3. An expression has a windowed aggregate function exactly when it or
    an expression nested in it, at any depth, is a
    [WindowFunctionExpression]. *)
Theorem X3_window_flag_is_any_nested_window :
  forall e : Expression,
    has_windowed_aggregate_function e = true
    <-> exists s, s ∈ nested e /\ klass_of s = K_WindowFunctionExpression.
Proof.
  intros e. rewrite has_windowed_nested, existsb_exists. split.
  - intros (s & Hin & Hs). exists s. split; [apply list_elem_of_In; exact Hin|].
    unfold isinstance_WindowFunction in Hs. destruct (klass_of s); congruence.
  - intros (s & Hin & Hs). exists s. split; [apply list_elem_of_In; exact Hin|].
    unfold isinstance_WindowFunction. rewrite Hs. reflexivity.
Qed.

(** X4. An expression has an aggregate function exactly when it or an
    expression nested in it is an [AggregateFunctionExpression] that does not
    lie below a [WindowFunctionExpression]; so an aggregate below a window
    function shows in the windowed flag only. *)
Theorem X4_aggregate_flag_stops_at_windows :
  forall e : Expression,
    (has_aggregate_function e = true
     <-> exists s, s ∈ outside_windows e /\ klass_of s = K_AggregateFunctionExpression)
    /\ (klass_of e = K_WindowFunctionExpression ->
        has_aggregate_function e = false /\ has_windowed_aggregate_function e = true).
Proof.
  intros e. split.
  - rewrite has_aggregate_outside_windows, existsb_exists. split.
    + intros (s & Hin & Hs). exists s. split; [apply list_elem_of_In; exact Hin|].
      unfold isinstance_AggregateFunction in Hs. destruct (klass_of s); congruence.
    + intros (s & Hin & Hs). exists s. split; [apply list_elem_of_In; exact Hin|].
      unfold isinstance_AggregateFunction. rewrite Hs. reflexivity.
  - destruct e as [k n d]. simpl. intros ->. split; reflexivity.
Qed.

(** *** Construction from an expression *)

Lemma Expression_init_expression (cls : ExpressionClass) (e : Expression) name :
  exists n,
    Expression_init cls (DataExpression e) name
    = Expr cls n (if bool_decide (klass_of e = K_Expression) then data e else [Sub e]).
Proof.
  unfold Expression_init. destruct (klass_of e); eexists; reflexivity.
Qed.

Lemma get_all_tokens_single (e : Expression) k n :
  get_all_tokens (Expr k n [Sub e]) = get_all_tokens e.
Proof. cbn. apply app_nil_r. Qed.

Lemma get_all_tokens_data (e : Expression) k n :
  get_all_tokens (Expr k n (data e)) = get_all_tokens e.
Proof. destruct e. reflexivity. Qed.

Lemma get_all_tokens_init (cls : ExpressionClass) (e : Expression) name :
  get_all_tokens (Expression_init cls (DataExpression e) name) = get_all_tokens e.
Proof.
  destruct (Expression_init_expression cls e name) as [n ->].
  case_bool_decide; [apply get_all_tokens_data | apply get_all_tokens_single].
Qed.

Lemma flags_of_plain_init (e : Expression) name :
  let p := Expression_init K_Expression (DataExpression e) name in
  truthy (is_constant p) = truthy (is_constant e)
  /\ truthy (is_single_value p) = truthy (is_single_value e)
  /\ has_aggregate_function p = has_aggregate_function e
  /\ has_windowed_aggregate_function p = has_windowed_aggregate_function e.
Proof.
  destruct e as [k n d]. destruct k; cbn -[truthy];
    repeat split; try reflexivity;
    try (destruct (is_constant _); reflexivity);
    try (destruct (is_single_value _); reflexivity);
    rewrite ?orb_false_r, ?andb_true_r; try reflexivity.
  all: try (destruct (has_aggregate_function _); reflexivity).
  all: try (destruct (has_windowed_aggregate_function _); reflexivity).
Qed.

(** X5. Constructing an expression of any class from an existing expression
    takes over the children of a plain expression and wraps any other
    expression as the single child; either way the tokens and the SQL are
    those of the given expression, and a plain expression built this way has
    the constant, single-value, aggregate and window flags of the given
    one. *)
Theorem X5_init_from_expression_keeps_sql :
  forall (escape_format_string quote_string quote_identifier : string -> string)
         (cls : ExpressionClass) (e : Expression) (name tn : option string),
    let w := Expression_init cls (DataExpression e) name in
    let p := Expression_init K_Expression (DataExpression e) name in
    klass_of w = cls
    /\ data w = (if bool_decide (klass_of e = K_Expression) then data e else [Sub e])
    /\ get_all_tokens w = get_all_tokens e
    /\ to_sql escape_format_string quote_string quote_identifier w tn
       = to_sql escape_format_string quote_string quote_identifier e tn
    /\ truthy (is_constant p) = truthy (is_constant e)
    /\ truthy (is_single_value p) = truthy (is_single_value e)
    /\ has_aggregate_function p = has_aggregate_function e
    /\ has_windowed_aggregate_function p = has_windowed_aggregate_function e.
Proof.
  intros esc qs qi cls e name tn w p.
  destruct (Expression_init_expression cls e name) as [n Hw]. fold w in Hw.
  split; [rewrite Hw; reflexivity|].
  split; [rewrite Hw; reflexivity|].
  split; [apply get_all_tokens_init|].
  split.
  - rewrite !to_sql_render, !render_tokens. unfold w.
    rewrite get_all_tokens_init. reflexivity.
  - apply flags_of_plain_init.
Qed.

(** *** The references of an expression *)

Section DictMembership.

Context {V : Type}.
Implicit Types (d : list (string * V)) (k : string) (v : V).

Lemma Dict_get_Some_keys' k d : is_Some (Dict.get k d) <-> k ∈ Dict.keys d.
Proof.
  destruct (Dict.get k d) eqn:H.
  - split; [intros _ | eauto].
    destruct (decide (k ∈ Dict.keys d)) as [|Hn]; [assumption|].
    apply Dict_get_None in Hn. congruence.
  - split; [intros [? [=]]|]. intros Hin. apply Dict_get_None in H. contradiction.
Qed.

Lemma Dict_get_set k k' v d :
  Dict.get k' (Dict.set k v d) = if decide (k' = k) then Some v else Dict.get k' d.
Proof.
  induction d as [|[k2 v2] d IH]; simpl.
  - destruct (decide (k' = k)); reflexivity.
  - destruct (decide (k = k2)) as [->|Hne]; simpl.
    + destruct (decide (k' = k2)); reflexivity.
    + destruct (decide (k' = k2)) as [->|Hne2].
      * rewrite decide_False by congruence. reflexivity.
      * exact IH.
Qed.

Lemma Dict_get_elem k v d : Dict.get k d = Some v -> (k, v) ∈ d.
Proof.
  induction d as [|[k2 v2] d IH]; simpl; [discriminate|].
  destruct (decide (k = k2)) as [->|Hne].
  - intros [= ->]. left.
  - intros H. right. auto.
Qed.

Lemma Dict_set_elem k v d x : x ∈ Dict.set k v d -> x = (k, v) \/ x ∈ d.
Proof.
  induction d as [|[k2 v2] d IH]; simpl.
  - rewrite list_elem_of_singleton. auto.
  - destruct (decide (k = k2)) as [->|Hne]; rewrite !elem_of_cons.
    + intros [->|H]; auto.
    + intros [->|H]; [auto|]. destruct (IH H); auto.
Qed.

Lemma Dict_set_keys k v d k' :
  k' ∈ Dict.keys (Dict.set k v d) <-> k' = k \/ k' ∈ Dict.keys d.
Proof.
  rewrite <- !Dict_get_Some_keys', Dict_get_set.
  destruct (decide (k' = k)) as [->|Hne].
  - split; [auto | intros _; eauto].
  - split; [auto | intros [?|?]; [contradiction | assumption]].
Qed.

End DictMembership.

Lemma refname_inj (m1 m2 : SqlModel) : refname m1 = refname m2 -> m1 = m2.
Proof.
  unfold refname. intros H. apply String.app_inj in H.
  destruct m1, m2. simpl in H. congruence.
Qed.

Lemma referenced_models_app (a b : list ExpressionToken) :
  referenced_models (a ++ b) = referenced_models a ++ referenced_models b.
Proof. unfold referenced_models. apply flat_map_app. Qed.

Lemma referenced_models_elem (m : SqlModel) (ts : list ExpressionToken) :
  m ∈ referenced_models ts <-> ModelReferenceToken m ∈ ts.
Proof.
  unfold referenced_models. induction ts as [|t ts IH]; simpl.
  - split; intros H; inversion H.
  - rewrite elem_of_app, elem_of_cons, IH.
    destruct t; simpl; rewrite ?list_elem_of_singleton;
      split; intros [H|H]; auto; try (inversion H; fail); try discriminate.
    + left. congruence.
    + left. congruence.
Qed.

Lemma fold_set_elem {V} (l d : list (string * V)) (x : string * V) :
  x ∈ dict_update d l -> x ∈ l \/ x ∈ d.
Proof.
  unfold dict_update. revert d. induction l as [|[k v] l IH]; intros d; simpl; [auto|].
  intros H. apply IH in H as [H|H]; [left; right; exact H|].
  apply Dict_set_elem in H as [->|H]; [left; left | right; exact H].
Qed.

Lemma fold_set_keys {V} (l d : list (string * V)) (k : string) :
  k ∈ Dict.keys (dict_update d l) <-> k ∈ Dict.keys l \/ k ∈ Dict.keys d.
Proof.
  unfold dict_update. revert d. induction l as [|[k1 v1] l IH]; intros d; simpl.
  - split; [auto | intros [H|H]; [inversion H | exact H]].
  - rewrite IH, Dict_set_keys. unfold Dict.keys at 3. simpl. rewrite elem_of_cons.
    fold (Dict.keys l). tauto.
Qed.

Lemma holds_references_nil : holds_references [] [].
Proof. split; [intros k m H | intros m H]; inversion H. Qed.

Lemma holds_references_set ms d (m : SqlModel) :
  holds_references ms d -> holds_references (ms ++ [m]) (Dict.set (refname m) m d).
Proof.
  intros [H1 H2]. split.
  - intros k m' Hin. apply Dict_set_elem in Hin as [[= -> ->]|Hin].
    + split; [reflexivity|]. apply elem_of_app. right. left.
    + destruct (H1 _ _ Hin). split; [assumption|]. apply elem_of_app. auto.
  - intros m' Hin. apply Dict_set_keys. apply elem_of_app in Hin as [Hin|Hin]; [auto|].
    apply list_elem_of_singleton in Hin as ->. auto.
Qed.

Lemma holds_references_update ms ms' d d' :
  holds_references ms d -> holds_references ms' d' ->
  holds_references (ms ++ ms') (dict_update d d').
Proof.
  intros [H1 H2] [H1' H2']. split.
  - intros k m Hin. apply fold_set_elem in Hin as [Hin|Hin].
    + destruct (H1' _ _ Hin). split; [assumption|]. apply elem_of_app. auto.
    + destruct (H1 _ _ Hin). split; [assumption|]. apply elem_of_app. auto.
  - intros m Hin. apply fold_set_keys. apply elem_of_app in Hin as [Hin|Hin]; auto.
Qed.

Lemma get_references_holds (e : Expression) :
  holds_references (referenced_models (get_all_tokens e)) (get_references e).
Proof.
  induction e as [k n d IH] using Expression_ind. cbn [get_references get_all_tokens].
  enough (Hgen : forall ms rv,
             holds_references ms rv ->
             holds_references
               (ms ++ referenced_models
                        (flat_map (fun x => match x with
                                            | inl t => [t]
                                            | inr s => get_all_tokens s
                                            end) d))
               (fold_left (fun rv data_item =>
                             match data_item with
                             | inr s => dict_update rv (get_references s)
                             | inl (ModelReferenceToken model) =>
                                 Dict.set (refname model) model rv
                             | inl _ => rv
                             end) d rv)).
  { apply (Hgen [] []), holds_references_nil. }
  induction IH as [|[t|s] d Hx _ IHl]; intros ms rv Hrv.
  - simpl. rewrite app_nil_r. exact Hrv.
  - cbn [flat_map fold_left]. rewrite referenced_models_app, app_assoc.
    apply IHl. destruct t; cbn; rewrite ?app_nil_r; try exact Hrv.
    apply holds_references_set. exact Hrv.
  - cbn [flat_map fold_left]. rewrite referenced_models_app, app_assoc.
    apply IHl. apply holds_references_update; assumption.
Qed.

Lemma get_references_resolve quote_identifier (e : Expression) tn :
  get_references (resolve_column_references quote_identifier e tn) = get_references e.
Proof.
  induction e as [k n d IH] using Expression_ind.
  rewrite resolve_column_references_unfold. cbn [get_references].
  generalize (@nil (string * SqlModel)) as rv.
  induction IH as [|[t|s] d Hx _ IHl]; intros rv; [reflexivity | |].
  - cbn [map fold_left resolve_item]. rewrite IHl. destruct t; reflexivity.
  - cbn [map fold_left resolve_item]. rewrite IHl, Hx. reflexivity.
Qed.

(** X6. [get_references] maps the reference name of a model, [reference]
    followed by its hash, to that model, for exactly the models that the
    model-reference tokens of the expression refer to, at any depth; resolving
    the column references leaves it as it is. *)
Theorem X6_get_references_collects_model_tokens :
  forall (quote_identifier : string -> string) (e : Expression) (tn : option string)
         (k : string) (m : SqlModel),
    (Dict.get k (get_references e) = Some m
     <-> ModelReferenceToken m ∈ get_all_tokens e
         /\ k = "reference" +:+ model_hash m)
    /\ get_references (resolve_column_references quote_identifier e tn)
       = get_references e.
Proof.
  intros qi e tn k m. split; [|apply get_references_resolve].
  destruct (get_references_holds e) as [H1 H2]. split.
  - intros H. apply Dict_get_elem in H. destruct (H1 _ _ H) as [-> Hm].
    split; [apply referenced_models_elem; exact Hm | reflexivity].
  - intros [Hm ->]. apply referenced_models_elem in Hm.
    change ("reference" +:+ model_hash m) with (refname m).
    destruct (proj2 (Dict_get_Some_keys' _ _) (H2 _ Hm)) as [m' Hget].
    rewrite Hget. f_equal. apply Dict_get_elem in Hget.
    destruct (H1 _ _ Hget) as [Heq _]. symmetry. apply refname_inj. exact Heq.
Qed.

(** ** Further properties of typed columns *)

Lemma split_braces_no_open (s : string) :
  no_open_brace s = true -> split_braces s = [s].
Proof.
  intros H. rewrite <- (append_empty_r s) at 1.
  rewrite split_braces_prefix by exact H. cbn. rewrite append_empty_r. reflexivity.
Qed.

Lemma construct_no_marker (cls : ExpressionClass) (s : string) :
  no_open_brace s = true ->
  construct cls s [] = Ok (Expr cls None (segment_items s)).
Proof.
  intros H. rewrite (construct_ok cls s [] s []);
    [| apply split_braces_no_open; exact H | reflexivity].
  cbn [weave]. rewrite app_nil_r. reflexivity.
Qed.

Lemma copy_override_fields (self : Series) d e :
  let r := copy_override self d None None None None e None None in
  engine r = engine self /\ base_node r = base_node self /\ index r = index self
  /\ name r = name self /\ group_by r = group_by self
  /\ sorted_ascending r = sorted_ascending self.
Proof. destruct self, d, e; cbn; repeat split; destruct _sorted_ascending; reflexivity. Qed.

Lemma expression_copy_override (self : Series) d en b i n (X : Expression) g a :
  expression (copy_override self d en b i n (Some X) g a) = X.
Proof. reflexivity. Qed.

Lemma _binary_operation_bool_inv (self : Series) (other : Value) opn fmt dts (r : Series) :
  _binary_operation self other opn fmt dts (DtypeStr "bool") = Ok r ->
  exists X, r = copy_override self (Some "bool") None None None None (Some X) None None.
Proof.
  unfold _binary_operation. case_bool_decide; [discriminate|].
  destruct (_get_supported _ _ _ _) as [o|]; [|discriminate]. cbn [mbind result_bind].
  destruct (construct _ _ _) as [X|]; [|discriminate]. cbn [mbind result_bind].
  intros [= <-]. eexists. reflexivity.
Qed.

Lemma comparator_result_inv (self : Series) (other : Value) (cmp : string) (r : Series) :
  _comparator_operation self other cmp = Ok r ->
  exists X, r = copy_override self (Some "bool") None None None None (Some X) None None.
Proof.
  unfold _comparator_operation, Series_comparator_operation, SeriesUuid_comparator_operation.
  destruct (series_class self).
  - cbn [length bool_decide]. rewrite bool_decide_eq_false_2 by discriminate.
    apply _binary_operation_bool_inv.
  - destruct (_get_supported _ _ _ _) as [o|]; [|discriminate]. cbn [mbind result_bind].
    destruct (bool_decide _); (destruct (construct _ _ _) as [X|]; [|discriminate]);
      cbn [mbind result_bind]; intros [= <-]; eexists; reflexivity.
  - rewrite bool_decide_eq_true_2 by reflexivity. discriminate.
Qed.

(** X7. Whatever the class of the left-hand side, a comparison that returns
    gives a [SeriesBoolean] with the engine, base node, index, name, grouping
    and sorting of the left-hand side; and the comparison of two boolean
    series of one base node does return. *)
Theorem X7_comparators_yield_boolean_series :
  forall (op : BinOp) (self : Series) (other : Value),
    match comparator_of op, binary_operation op self other with
    | Some _, Ok r =>
        series_class r = SeriesBoolean
        /\ engine r = engine self /\ base_node r = base_node self
        /\ index r = index self /\ name r = name self
        /\ group_by r = group_by self /\ sorted_ascending r = sorted_ascending self
    | _, _ => True
    end
    /\ (forall o : Series,
          comparator_of op <> None ->
          series_class self = SeriesBoolean -> dtype o = "bool" ->
          base_node self = base_node o ->
          is_ok (binary_operation op self (VSeries o)) = true).
Proof.
  intros op self other. split.
  - destruct (comparator_of op) eqn:Hc; [|exact I].
    destruct (binary_operation op self other) as [r|] eqn:Hr; [|exact I].
    assert (Hinv : exists X, r = copy_override self (Some "bool") None None None None
                                   (Some X) None None).
    { destruct op; try discriminate Hc; cbn in Hr;
        eapply comparator_result_inv; exact Hr. }
    destruct Hinv as [X ->]. split; [reflexivity|].
    apply (copy_override_fields self (Some "bool") (Some X)).
  - intros o Hc Hs Ho Hb.
    destruct op; try (exfalso; apply Hc; reflexivity);
      cbn; unfold __ne__, __eq__, __lt__, __le__, __ge__, __gt__, _comparator_operation;
      rewrite Hs; unfold Series_comparator_operation, _binary_operation, _get_supported;
      cbn [length bool_decide const_to_series];
      rewrite !(bool_decide_eq_false_2 (1 = 0)%nat) by discriminate;
      rewrite (bool_decide_eq_true_2 _ Hb), Ho; reflexivity.
Qed.

Section SeriesExtras.

Variable GroupBy_eq : GroupBy -> GroupBy -> bool.
Variable get_window_expression : GroupBy -> Expression -> Expression.
Variable get_dummy_index_series : Engine -> SqlModel -> Series.
Variable other_dtype_to_expression : string -> string -> Expression -> result Expression.
Variable escape_format_string : string -> string.
Variable quote_string : string -> string.
Variable quote_identifier : string -> string.

Abbreviation esc := escape_format_string.
Abbreviation sql := (to_sql escape_format_string quote_string quote_identifier).
Abbreviation atext := (arg_text escape_format_string quote_string quote_identifier).

Lemma to_sql_woven (cls : ExpressionClass) (s0 : string) (rest : list string)
    (args : list Expression) tn :
  sql (Expr cls None (segment_items s0 ++ weave rest args)) tn
  = Ok (segment_text esc s0
        +:+ weave_text escape_format_string quote_string quote_identifier tn rest args).
Proof.
  rewrite to_sql_render. cbn [render].
  rewrite map_app, join_app, render_segment_items, render_weave. reflexivity.
Qed.

Lemma _binary_operation_ok (self o : Series) opn fmt dts d :
  dts <> [] ->
  base_node self = base_node o ->
  lower (dtype o) ∈ dts ->
  _binary_operation self (VSeries o) opn fmt dts d
  = (X ← construct K_Expression fmt [expression self; expression o];
     Ok (copy_override self
           match d with
           | DtypeNone => None
           | DtypeStr t => Some t
           | DtypeDict table => assoc_get (dtype o) table
           end None None None None (Some X) None None)).
Proof.
  intros Hd Hb Ht. unfold _binary_operation, _get_supported.
  rewrite bool_decide_eq_false_2 by (destruct dts; [congruence | discriminate]).
  cbn [const_to_series].
  rewrite (bool_decide_eq_true_2 _ Hb), (bool_decide_eq_true_2 _ Ht). reflexivity.
Qed.

Lemma _binary_operation_type_error (self o : Series) opn fmt dts d :
  dts <> [] ->
  base_node self = base_node o ->
  lower (dtype o) ∉ dts ->
  _binary_operation self (VSeries o) opn fmt dts d
  = Raise (TypeError (opn +:+ " not supported between " +:+ dtype self
                      +:+ " and " +:+ dtype o +:+ ".")).
Proof.
  intros Hd Hb Ht. unfold _binary_operation, _get_supported.
  rewrite bool_decide_eq_false_2 by (destruct dts; [congruence | discriminate]).
  cbn [const_to_series].
  rewrite (bool_decide_eq_true_2 _ Hb), (bool_decide_eq_false_2 _ Ht). reflexivity.
Qed.


Lemma boolean_operator_dispatch (op : BinOp) (bop : string) (self : Series) (v : Value) :
  boolean_operator_of op = Some bop ->
  series_class self = SeriesBoolean ->
  binary_operation op self v = _boolean_operator self v bop.
Proof.
  intros Hop Hs.
  destruct op; try discriminate Hop; injection Hop as <-; cbn;
    unfold __and__, __or__, __xor__; rewrite Hs; reflexivity.
Qed.

Lemma boolean_operator_format (op : BinOp) (bop : string) :
  boolean_operator_of op = Some bop ->
  split_braces ("({}) " +:+ bop +:+ " ({})") = ["("; ") " +:+ bop +:+ " ("; ")"]
  /\ split_braces ("({}) " +:+ bop +:+ " cast({} as bool)")
     = ["("; ") " +:+ bop +:+ " cast("; " as bool)"].
Proof.
  intros Hop. destruct op; try discriminate Hop; injection Hop as <-;
    split; reflexivity.
Qed.

(** X9. For a [SeriesBoolean] and the operators [&], [|] and [^] (rendered
    [AND], [OR] and [!=]): with a series of dtype [bool] on the same base node
    the result is a [SeriesBoolean] whose SQL is [(<left>) OP (<right>)]; with
    a series whose dtype is not [bool] in any letter case the call raises
    [TypeError]; and with a Python boolean as right-hand side it raises
    [AttributeError], since the dtype of the operand is read before it is
    turned into a series. *)
Theorem X9_boolean_operators :
  forall (op : BinOp) (bop : string) (self : Series),
    boolean_operator_of op = Some bop ->
    series_class self = SeriesBoolean ->
    (forall o : Series,
        base_node self = base_node o -> dtype o = "bool" ->
        exists r,
          binary_operation op self (VSeries o) = Ok r
          /\ series_class r = SeriesBoolean
          /\ forall tn,
               sql (expression r) tn
               = Ok (esc "(" +:+ atext tn (expression self)
                     +:+ esc (") " +:+ bop +:+ " (")
                     +:+ atext tn (expression o) +:+ esc ")"))
    /\ (forall o : Series,
          base_node self = base_node o -> lower (dtype o) <> "bool" ->
          binary_operation op self (VSeries o)
          = Raise (TypeError ("boolean operator '" +:+ bop
                              +:+ "' not supported between bool and "
                              +:+ dtype o +:+ ".")))
    /\ (forall b : bool,
          binary_operation op self (VBool b)
          = Raise (AttributeError "'bool' object has no attribute 'dtype'")).
Proof.
  intros op bop self Hop Hs. split; [|split].
  - intros o Hb Ho. rewrite (boolean_operator_dispatch op bop) by assumption.
    unfold _boolean_operator. cbn [value_dtype mbind result_bind].
    rewrite Ho. cbn [bool_decide negb].
    rewrite (bool_decide_eq_true_2 ("bool" = "bool")) by reflexivity. cbn [negb].
    rewrite _binary_operation_ok;
      [| discriminate | assumption | rewrite Ho; apply list_elem_of_singleton; reflexivity].
    destruct (boolean_operator_format op bop Hop) as [Hsplit _].
    rewrite (construct_ok K_Expression _ [expression self; expression o] _ _ Hsplit)
      by reflexivity.
    cbn [mbind result_bind]. eexists. split; [reflexivity|]. split; [reflexivity|].
    intros tn. rewrite expression_copy_override, to_sql_woven. cbn [weave_text]. unfold segment_text.
    rewrite !bool_decide_eq_false_2 by (destruct op; discriminate).
    rewrite ?append_assoc, ?append_empty_r. reflexivity.
  - intros o Hb Ho. rewrite (boolean_operator_dispatch op bop) by assumption.
    unfold _boolean_operator. cbn [value_dtype mbind result_bind].
    rewrite _binary_operation_type_error;
      [| discriminate | assumption | rewrite list_elem_of_singleton; exact Ho].
    unfold dtype. rewrite Hs, ?append_assoc. reflexivity.
  - intros b. rewrite (boolean_operator_dispatch op bop) by assumption. reflexivity.
Qed.

Lemma comparator_dispatch (op : BinOp) (cmp : string) (self : Series) (v : Value) :
  comparator_of op = Some cmp ->
  binary_operation op self v = _comparator_operation self v cmp.
Proof.
  intros Hop. destruct op; try discriminate Hop; injection Hop as <-; reflexivity.
Qed.

Lemma comparator_format (op : BinOp) (cmp : string) :
  comparator_of op = Some cmp ->
  split_braces ("({}) " +:+ cmp +:+ " ({})") = ["("; ") " +:+ cmp +:+ " ("; ")"]
  /\ split_braces ("({}) " +:+ cmp +:+ " (cast({} as uuid))")
     = ["("; ") " +:+ cmp +:+ " (cast("; " as uuid))"].
Proof.
  intros Hop. destruct op; try discriminate Hop; injection Hop as <-;
    split; reflexivity.
Qed.

(** X10. For a [SeriesUuid] and a series of the same base node, a comparator
    gives a [SeriesBoolean] whose SQL is [(<left>) CMP (<right>)] when the
    right-hand dtype is [uuid], and [(<left>) CMP (cast(<right> as uuid))]
    when it is another dtype that lower-cases to [uuid] or [string]; for any
    other dtype it raises [TypeError]. *)
Theorem X10_uuid_comparators :
  forall (op : BinOp) (cmp : string) (self o : Series),
    comparator_of op = Some cmp ->
    series_class self = SeriesUuid ->
    base_node self = base_node o ->
    if bool_decide (lower (dtype o) ∈ ["uuid"; "string"]) then
      exists r,
        binary_operation op self (VSeries o) = Ok r
        /\ series_class r = SeriesBoolean
        /\ forall tn,
             sql (expression r) tn
             = Ok (esc "(" +:+ atext tn (expression self)
                   +:+ (if bool_decide (dtype o = "uuid")
                        then esc (") " +:+ cmp +:+ " (")
                             +:+ atext tn (expression o) +:+ esc ")"
                        else esc (") " +:+ cmp +:+ " (cast(")
                             +:+ atext tn (expression o) +:+ esc " as uuid))"))
    else
      binary_operation op self (VSeries o)
      = Raise (TypeError ("comparator '" +:+ cmp +:+ "' not supported between uuid and "
                          +:+ dtype o +:+ ".")).
Proof.
  intros op cmp self o Hop Hs Hb.
  rewrite (comparator_dispatch op cmp) by assumption.
  unfold _comparator_operation. rewrite Hs.
  unfold SeriesUuid_comparator_operation, _get_supported. cbn [const_to_series].
  rewrite (bool_decide_eq_true_2 _ Hb). cbn [negb].
  destruct (comparator_format op cmp Hop) as [Hplain Hcast].
  case_bool_decide as Ht; cbn [negb mbind result_bind].
  - case_bool_decide as Hu.
    + rewrite (construct_ok K_Expression _ [expression self; expression o] _ _ Hplain)
        by reflexivity.
      cbn [mbind result_bind]. eexists. split; [reflexivity|]. split; [reflexivity|].
      intros tn. rewrite expression_copy_override, to_sql_woven.
      cbn [weave_text]. unfold segment_text.
      rewrite !bool_decide_eq_false_2 by (destruct op; discriminate).
      rewrite ?append_assoc, ?append_empty_r. reflexivity.
    + rewrite (construct_ok K_Expression _ [expression self; expression o] _ _ Hcast)
        by reflexivity.
      cbn [mbind result_bind]. eexists. split; [reflexivity|]. split; [reflexivity|].
      intros tn. rewrite expression_copy_override, to_sql_woven.
      cbn [weave_text]. unfold segment_text.
      rewrite !bool_decide_eq_false_2 by (destruct op; discriminate).
      rewrite ?append_assoc, ?append_empty_r. reflexivity.
  - unfold dtype at 1. rewrite Hs, ?append_assoc. reflexivity.
Qed.

(** X11. [isnull] and [notnull] always return: the result is a
    [SeriesBoolean] on the engine, base node, index, name, grouping and
    sorting of the series, and its SQL is the text of the series, between
    parentheses when its expression is a [NonAtomicExpression], followed by
    [ is null] or [ is not null]. *)
Theorem X11_isnull_notnull :
  forall self : Series,
    exists r1 r2,
      isnull self = Ok r1 /\ notnull self = Ok r2
      /\ series_class r1 = SeriesBoolean /\ series_class r2 = SeriesBoolean
      /\ (engine r1 = engine self /\ base_node r1 = base_node self
          /\ index r1 = index self /\ name r1 = name self
          /\ group_by r1 = group_by self /\ sorted_ascending r1 = sorted_ascending self)
      /\ (engine r2 = engine self /\ base_node r2 = base_node self
          /\ index r2 = index self /\ name r2 = name self
          /\ group_by r2 = group_by self /\ sorted_ascending r2 = sorted_ascending self)
      /\ forall tn,
           sql (expression r1) tn = Ok (atext tn (expression self) +:+ esc " is null")
           /\ sql (expression r2) tn
              = Ok (atext tn (expression self) +:+ esc " is not null").
Proof.
  intros self. unfold isnull, notnull.
  rewrite (construct_ok K_Expression "{} is null" [expression self] EmptyString
             [" is null"]) by reflexivity.
  rewrite (construct_ok K_Expression "{} is not null" [expression self] EmptyString
             [" is not null"]) by reflexivity.
  cbn [mbind result_bind]. eexists. eexists.
  split; [reflexivity|]. split; [reflexivity|].
  split; [reflexivity|]. split; [reflexivity|].
  split; [apply (copy_override_fields self (Some "bool") (Some _))|].
  split; [apply (copy_override_fields self (Some "bool") (Some _))|].
  intros tn. rewrite !expression_copy_override, !to_sql_woven.
  cbn [weave_text]. unfold segment_text.
  rewrite (bool_decide_eq_true_2 (EmptyString = EmptyString)) by reflexivity.
  rewrite !bool_decide_eq_false_2 by discriminate.
  rewrite ?append_empty_r. split; reflexivity.
Qed.

(** X12. [sort_values] gives a series sorted as asked, returns the series
    itself when it is already sorted that way, changes no other field, and
    sorting a second time the same way changes nothing. *)
Theorem X12_sort_values :
  forall (self : Series) (ascending : bool),
    let r := sort_values self ascending in
    sorted_ascending r = Some ascending
    /\ (sorted_ascending self = Some ascending -> r = self)
    /\ sort_values r ascending = r
    /\ series_class r = series_class self /\ engine r = engine self
    /\ base_node r = base_node self /\ index r = index self /\ name r = name self
    /\ expression r = expression self /\ group_by r = group_by self.
Proof.
  intros self ascending r. subst r. unfold sort_values.
  destruct self as [c en bn ix nm ex gb [a|]]; cbn.
  - case_bool_decide as Ha; cbn.
    + subst a. rewrite bool_decide_eq_true_2 by reflexivity.
      repeat split; reflexivity.
    + rewrite bool_decide_eq_true_2 by reflexivity.
      repeat split; try reflexivity. intros [= ->]. contradiction.
  - rewrite bool_decide_eq_true_2 by reflexivity.
    repeat split; try reflexivity. discriminate.
Qed.

Abbreviation astype' := (astype other_dtype_to_expression).

(** X13. [astype] to the dtype of the series or to one of its aliases returns
    the series itself; a boolean series cannot be cast to [uuid] nor a uuid
    series to [bool], under any of its names: the call raises [ValueError];
    and a string series cast to [uuid] is a [SeriesUuid] whose SQL is
    [cast((<text>) as uuid)]. *)
Theorem X13_astype :
  forall self : Series,
    astype' self (dtype self) = Ok self
    /\ (forall alias, alias ∈ class_dtype_aliases (series_class self) ->
          astype' self alias = Ok self)
    /\ (series_class self = SeriesBoolean ->
        astype' self "uuid" = Raise (ValueError "cannot convert bool to uuid."))
    /\ (series_class self = SeriesUuid ->
        forall t, t ∈ ["bool"; "boolean"; "?"] ->
          astype' self t = Raise (ValueError "cannot convert uuid to bool"))
    /\ (series_class self = SeriesOther "string" ->
        exists r,
          astype' self "uuid" = Ok r
          /\ series_class r = SeriesUuid
          /\ forall tn,
               sql (expression r) tn
               = Ok (esc "cast((" +:+ atext tn (expression self) +:+ esc ") as uuid)")).
Proof.
  intros self. split; [|split; [|split; [|split]]].
  - unfold astype. rewrite bool_decide_eq_true_2 by reflexivity. reflexivity.
  - intros alias Hin. unfold astype. rewrite (bool_decide_eq_true_2 _ Hin).
    rewrite orb_true_r. reflexivity.
  - intros Hs. unfold astype, dtype. rewrite Hs. reflexivity.
  - intros Hs t Ht. unfold astype, dtype. rewrite Hs.
    cbn [class_dtype class_dtype_aliases].
    rewrite !elem_of_cons in Ht. destruct Ht as [->|[->|[->|Ht]]];
      [reflexivity | reflexivity | reflexivity | inversion Ht].
  - intros Hs. unfold astype, dtype. rewrite Hs.
    cbn [class_dtype class_dtype_aliases].
    rewrite bool_decide_eq_false_2 by discriminate.
    rewrite bool_decide_eq_false_2 by (intros H; inversion H).
    cbn [orb].
    change (get_series_type_from_dtype "uuid") with SeriesUuid.
    cbn [dtype_to_expression]. unfold SeriesUuid_dtype_to_expression.
    rewrite bool_decide_eq_false_2 by discriminate.
    rewrite bool_decide_eq_true_2 by reflexivity.
    rewrite (construct_ok K_Expression "cast(({}) as uuid)" [expression self]
               "cast((" [") as uuid)"]) by reflexivity.
    cbn [mbind result_bind]. eexists. split; [reflexivity|]. split; [reflexivity|].
    intros tn. rewrite expression_copy_override, to_sql_woven.
    cbn [weave_text]. unfold segment_text.
    rewrite !bool_decide_eq_false_2 by discriminate.
    rewrite ?append_empty_r. reflexivity.
Qed.

Abbreviation derived_agg' :=
  (_derived_agg_func GroupBy_eq get_window_expression get_dummy_index_series).
Abbreviation window_function' :=
  (window_function GroupBy_eq get_window_expression get_dummy_index_series).

Lemma window_function_expression_ok (self : Series) (f : WindowFunction) :
  exists e, window_function_expression self f = Ok e.
Proof.
  destruct f; cbn [window_function_expression];
    try (eexists; reflexivity).
  - rewrite construct_no_marker; [eexists; reflexivity|].
    apply (no_open_brace_app "ntile("); [reflexivity|].
    apply no_open_brace_app; [apply str_of_Z_no_open_brace | reflexivity].
  - rewrite (construct_ok K_Expression _ [expression self] "nth_value("
               [", " +:+ str_of_Z n +:+ ")"]); [eexists; reflexivity | | reflexivity].
    change ("nth_value({}, " +:+ str_of_Z n +:+ ")")
      with ("nth_value(" +:+ "{}" +:+ ", " +:+ str_of_Z n +:+ ")").
    rewrite split_braces_prefix, split_braces_marker by reflexivity.
    rewrite split_braces_no_open; [reflexivity|].
    apply (no_open_brace_app ", "); [reflexivity|].
    apply no_open_brace_app; [apply str_of_Z_no_open_brace | reflexivity].
Qed.

Lemma derived_agg_over_window (self : Series) (w : GroupBy) (e : Expression) d mc :
  is_Window w = true ->
  match mc with Some n => (n <= 0)%Z | None => True end ->
  derived_agg' self (Some (WrapGroupBy w)) (inr e) d true mc
  = Ok (copy_override self (Some (default (dtype self) d)) None None None None
          (Some (get_window_expression w e)) None None).
Proof.
  intros Hw Hmc. unfold _derived_agg_func, _derived_agg_func_body.
  cbn [negb agg_expression mbind result_bind agg_partition _check_unwrap_groupby].
  rewrite Hw. cbn [andb negb mbind result_bind].
  assert (Hmin : agg_min_count
                   (count GroupBy_eq get_window_expression get_dummy_index_series)
                   self w e true mc = Ok e).
  { unfold agg_min_count. destruct mc as [n|]; [|reflexivity].
    destruct (0 <? n)%Z eqn:Hn; [apply Z.ltb_lt in Hn; lia | reflexivity]. }
  rewrite Hmin. cbn [mbind result_bind]. unfold agg_result. rewrite Hw. reflexivity.
Qed.

(** X14. The window functions ([window_row_number], [window_rank],
    [window_dense_rank], [window_percent_rank], [window_cume_dist],
    [window_ntile], [window_first_value], [window_last_value],
    [window_nth_value]) raise [ValueError] when what they are given is not a
    window: nothing, a plain grouping, or a DataFrame that carries one or
    none. Given a window they always return, with the window expression of
    the function as expression, the dtype of the function ([int64] for the
    ranks and [ntile], [double precision] for the ratios, the dtype of the
    series for the values), and the index, grouping, name and base node of the
    series. *)
Theorem X14_window_functions :
  forall (self : Series) (f : WindowFunction) (window : option WrappedPartition),
    match unwrap_partition window with
    | Some w =>
        if is_Window w then
          exists e,
            window_function_expression self f = Ok e
            /\ window_function' self f window
               = Ok (copy_override self (Some (window_function_dtype self f))
                       None None None None (Some (get_window_expression w e))
                       None None)
        else exists msg, window_function' self f window = Raise (ValueError msg)
    | None => exists msg, window_function' self f window = Raise (ValueError msg)
    end.
Proof.
  intros self f window. unfold window_function, _check_window, _check_unwrap_groupby.
  fold (unwrap_partition window).
  destruct (unwrap_partition window) as [w|]; [|eexists; reflexivity].
  destruct (is_Window w) eqn:Hw; cbn [andb negb]; [|eexists; reflexivity].
  cbn [mbind result_bind].
  destruct (window_function_expression_ok self f) as [e He]. exists e.
  split; [exact He|]. rewrite He. cbn [mbind result_bind].
  rewrite derived_agg_over_window by (exact Hw || exact I). reflexivity.
Qed.

Abbreviation count'' := (count GroupBy_eq get_window_expression get_dummy_index_series).
Abbreviation max' := (max_ GroupBy_eq get_window_expression get_dummy_index_series).
Abbreviation min' := (min_ GroupBy_eq get_window_expression get_dummy_index_series).
Abbreviation median' := (median GroupBy_eq get_window_expression get_dummy_index_series).
Abbreviation mode' := (mode GroupBy_eq get_window_expression get_dummy_index_series).
Abbreviation nunique' := (nunique GroupBy_eq get_window_expression get_dummy_index_series).

(** X15. With [skipna=False] every aggregate fails with
    [NotImplementedError], whatever the partition, the expression and
    [min_count]: [_derived_agg_func] checks it first. Only [nunique] checks
    its partition before, and raises [ValueError] for a window. *)
Theorem X15_skipna_false_is_refused :
  forall (self : Series) (partition : option WrappedPartition)
         (expression' : string + Expression) (d : option string) (mc : option Z),
    let refused := Raise (NotImplementedError "Not skipping n/a is not supported") in
    derived_agg' self partition expression' d false mc = refused
    /\ count'' self partition false = refused
    /\ max' self partition false = refused
    /\ min' self partition false = refused
    /\ median' self partition false = refused
    /\ mode' self partition false = refused
    /\ nunique' self partition false
       = match partition, unwrap_partition partition with
         | None, _ => refused
         | Some _, None =>
             Raise (ValueError ("group_by <class 'NoneType'> not in "
                                +:+ "<class 'bach.partitioning.GroupBy'>"))
         | Some _, Some g =>
             if is_Window g
             then Raise (ValueError
                           "group_by <class 'bach.partitioning.Window'> not supported")
             else refused
         end.
Proof.
  intros self partition expression' d mc refused.
  split; [reflexivity|]. split; [reflexivity|].
  split; [reflexivity|]. split; [reflexivity|].
  split; [|split].
  - unfold median.
    rewrite (construct_ok K_Expression _ [expression self]
               "percentile_disc(0.5) WITHIN GROUP (ORDER BY " [")"]) by reflexivity.
    reflexivity.
  - unfold mode.
    rewrite (construct_ok K_Expression _ [expression self]
               "mode() within group (order by " [")"]) by reflexivity.
    reflexivity.
  - unfold nunique.
    rewrite (construct_ok K_Expression _ [expression self]
               "count(distinct " [")"]) by reflexivity.
    destruct partition as [p|]; [|reflexivity].
    unfold _check_unwrap_groupby. fold (unwrap_partition (Some p)).
    destruct (unwrap_partition (Some p)) as [g|]; [|reflexivity].
    cbn [andb]. destruct (is_Window g); reflexivity.
Qed.

Abbreviation matches' := (grouping_matches GroupBy_eq).

Lemma agg_min_count_ignored (self : Series) (g : GroupBy) (e : Expression) mc :
  match mc with Some n => (n <= 0)%Z | None => True end ->
  agg_min_count count'' self g e true mc = Ok e.
Proof.
  intros Hmc. unfold agg_min_count. destruct mc as [n|]; [|reflexivity].
  destruct (0 <? n)%Z eqn:Hn; [apply Z.ltb_lt in Hn; lia | reflexivity].
Qed.

(** X16. Without a [min_count], or with one that is zero or negative, the
    aggregate is built from the expression as it is: over a window the result
    carries the window expression and keeps index and grouping; over a plain
    grouping that the series does not contradict the result carries the
    expression itself, the index of the grouping and the grouping as pending
    aggregation; and when the series already carries another grouping the call
    raises [ValueError]. The dtype is the one asked for, or that of the
    series. *)
Theorem X16_aggregate_without_min_count :
  forall (self : Series) (partition : option WrappedPartition)
         (expression' : string + Expression) (d : option string) (mc : option Z)
         (g : GroupBy) (e : Expression),
    agg_expression self expression' = Ok e ->
    agg_partition get_dummy_index_series self partition = Ok g ->
    match mc with Some n => (n <= 0)%Z | None => True end ->
    derived_agg' self partition expression' d true mc
    = if is_Window g then
        Ok (copy_override self (Some (default (dtype self) d)) None None None None
              (Some (get_window_expression g e)) None None)
      else if matches' self g then
        Ok (copy_override self (Some (default (dtype self) d)) None None
              (Some (GroupBy_index g)) None (Some e) (Some (Some g)) None)
      else
        Raise (ValueError "passed partition does not match series partition. I'm confused").
Proof.
  intros self partition expression' d mc g e He Hp Hmc.
  unfold _derived_agg_func, _derived_agg_func_body. cbn [negb].
  rewrite He, Hp. cbn [mbind result_bind].
  rewrite agg_min_count_ignored by exact Hmc. cbn [mbind result_bind].
  unfold agg_result, grouping_matches.
  destruct (is_Window g); cbn [negb]; [reflexivity|].
  destruct (group_by self) as [g'|]; [|reflexivity].
  destruct (GroupBy_eq g' g); reflexivity.
Qed.

Lemma aggregate_over_grouping (self : Series) (g : GroupBy) (e : Expression) d :
  is_Window g = false ->
  matches' self g = true ->
  derived_agg' self (Some (WrapGroupBy g)) (inr e) d true None
  = Ok (copy_override self (Some (default (dtype self) d)) None None
          (Some (GroupBy_index g)) None (Some e) (Some (Some g)) None).
Proof.
  intros Hw Hm. unfold _derived_agg_func, _derived_agg_func_body.
  cbn [negb agg_expression mbind result_bind agg_partition _check_unwrap_groupby].
  rewrite Hw. cbn [andb negb mbind result_bind agg_min_count].
  unfold agg_result. rewrite Hw. cbn [negb].
  unfold grouping_matches in Hm.
  destruct (group_by self) as [g'|]; [rewrite Hm|]; reflexivity.
Qed.

(** X17. [nunique] refuses a window with [ValueError], whatever [skipna] is;
    over a plain grouping that the series does not contradict it gives an
    [int64] series with that grouping pending, whose SQL is
    [count(distinct <text>)]. *)
Theorem X17_nunique :
  forall (self : Series) (p : WrappedPartition) (g : GroupBy) (skipna : bool),
    unwrap_partition (Some p) = Some g ->
    if is_Window g then
      nunique' self (Some p) skipna
      = Raise (ValueError "group_by <class 'bach.partitioning.Window'> not supported")
    else
      matches' self g = true ->
      exists r,
        nunique' self (Some p) true = Ok r
        /\ series_class r = SeriesOther "int64"
        /\ group_by r = Some g /\ index r = GroupBy_index g
        /\ name r = name self /\ base_node r = base_node self
        /\ forall tn,
             sql (expression r) tn
             = Ok (esc "count(distinct " +:+ atext tn (expression self) +:+ esc ")").
Proof.
  intros self p g skipna Hg. unfold nunique, _check_unwrap_groupby.
  fold (unwrap_partition (Some p)). rewrite Hg. cbn [andb].
  destruct (is_Window g) eqn:Hw; [reflexivity|].
  intros Hm. cbn [mbind result_bind].
  rewrite (construct_ok K_Expression _ [expression self]
             "count(distinct " [")"]) by reflexivity.
  cbn [mbind result_bind].
  rewrite (aggregate_over_grouping self g _ (Some "int64") Hw Hm).
  eexists. split; [reflexivity|].
  split; [reflexivity|]. split; [reflexivity|]. split; [reflexivity|].
  split; [destruct self; reflexivity|]. split; [destruct self; reflexivity|].
  intros tn. rewrite expression_copy_override, to_sql_woven.
  cbn [weave_text]. unfold segment_text.
  rewrite !bool_decide_eq_false_2 by discriminate.
  rewrite ?append_empty_r. reflexivity.
Qed.

Abbreviation get_column_expression' :=
  (get_column_expression escape_format_string quote_string quote_identifier).
Abbreviation resolved' e tn := (resolve_column_references quote_identifier e tn).
Abbreviation text' := (render escape_format_string quote_string quote_identifier).

(** X18. When the quoted name of a series holds no opening brace,
    [get_column_expression] returns: the resolved expression itself when its
    SQL already is the quoted name, and otherwise that expression followed by
    [ as <quoted name>]. *)
Theorem X18_get_column_expression :
  forall (self : Series) (table_alias : option string),
    no_open_brace (quote_identifier (name self)) = true ->
    let e := resolved' (expression self) table_alias in
    let quoted := quote_identifier (name self) in
    exists X,
      get_column_expression' self table_alias = Ok X
      /\ forall tn,
           sql X tn
           = Ok (if bool_decide (text' table_alias (expression self) = quoted)
                 then quoted
                 else atext tn e +:+ esc (" as " +:+ quoted)).
Proof.
  intros self table_alias Hq e quoted. subst e quoted. unfold get_column_expression.
  rewrite to_sql_render, render_resolve.
  cbn [mbind result_bind]. case_bool_decide as Hsame.
  - eexists. split; [reflexivity|]. intros tn.
    rewrite to_sql_render, render_resolve. rewrite Hsame. reflexivity.
  - rewrite (construct_ok K_Expression _ [resolved' (expression self) table_alias]
               EmptyString [" as " +:+ quote_identifier (name self)]).
    + eexists. split; [reflexivity|]. intros tn. rewrite to_sql_woven.
      cbn [weave_text]. unfold segment_text.
      rewrite (bool_decide_eq_true_2 (EmptyString = EmptyString)) by reflexivity.
      rewrite bool_decide_eq_false_2 by discriminate.
      rewrite ?append_empty_r. reflexivity.
    + change ("{} as " +:+ quote_identifier (name self))
        with ("{}" +:+ " as " +:+ quote_identifier (name self)).
      rewrite split_braces_marker, split_braces_no_open; [reflexivity|].
      apply (no_open_brace_app " as "); [reflexivity | exact Hq].
    + reflexivity.
Qed.

End SeriesExtras.

(** ** Further properties of savepoints *)

Section DictMore.

Context {V : Type}.
Implicit Types (d : list (string * V)) (k : string) (v : V).

Lemma Dict_set_keys_present k v d :
  is_Some (Dict.get k d) -> Dict.keys (Dict.set k v d) = Dict.keys d.
Proof.
  unfold Dict.keys. induction d as [|[k' v'] d IH]; simpl; [intros [? [=]]|].
  destruct (decide (k = k')) as [->|Hne]; simpl; [reflexivity|].
  intros H. rewrite IH; auto.
Qed.

Lemma Dict_set_keys_absent k v d :
  Dict.get k d = None -> Dict.keys (Dict.set k v d) = Dict.keys d ++ [k].
Proof.
  intros H. rewrite Dict_set_absent by exact H. unfold Dict.keys.
  rewrite map_app. reflexivity.
Qed.

Lemma Dict_set_NoDup k v d : NoDup (Dict.keys d) -> NoDup (Dict.keys (Dict.set k v d)).
Proof.
  intros Hnd. destruct (Dict.get k d) eqn:Hget.
  - rewrite Dict_set_keys_present by eauto. exact Hnd.
  - rewrite Dict_set_keys_absent by exact Hget.
    apply NoDup_app. split; [exact Hnd|]. split; [|apply NoDup_singleton].
    intros x Hx Hk. apply list_elem_of_singleton in Hk as ->.
    apply Dict_get_None in Hget. contradiction.
Qed.

Lemma Dict_set_Forall (P : string * V -> Prop) k v d :
  Forall P d -> P (k, v) -> Forall P (Dict.set k v d).
Proof.
  intros Hd Hkv. apply Forall_forall. intros x Hx.
  apply Dict_set_elem in Hx as [->|Hx]; [exact Hkv|].
  rewrite Forall_forall in Hd. auto.
Qed.

Lemma Dict_del_elem k d x : x ∈ Dict.del k d -> x ∈ d.
Proof.
  induction d as [|[k' v'] d IH]; simpl; [auto|].
  destruct (decide (k = k')); rewrite ?elem_of_cons; [auto|].
  intros [->|H]; auto.
Qed.

Lemma Dict_del_keys k d :
  NoDup (Dict.keys d) ->
  Dict.keys (Dict.del k d) = List.filter (fun k' => negb (bool_decide (k' = k))) (Dict.keys d).
Proof.
  unfold Dict.keys. induction d as [|[k' v'] d IH]; simpl; [reflexivity|].
  intros Hnd. apply NoDup_cons in Hnd as [Hk' Hnd].
  destruct (decide (k = k')) as [->|Hne].
  - rewrite bool_decide_eq_true_2 by reflexivity. simpl.
    clear IH. induction d as [|[k2 v2] d IH2]; simpl; [reflexivity|].
    simpl in Hk'. apply not_elem_of_cons in Hk' as [Hne Hk'].
    apply NoDup_cons in Hnd as [_ Hnd].
    rewrite bool_decide_eq_false_2 by congruence. simpl. f_equal. auto.
  - rewrite bool_decide_eq_false_2 by congruence. simpl. f_equal. auto.
Qed.

Lemma Dict_get_del k k' d :
  NoDup (Dict.keys d) ->
  Dict.get k' (Dict.del k d) = if decide (k' = k) then None else Dict.get k' d.
Proof.
  unfold Dict.keys. induction d as [|[k2 v2] d IH]; simpl; intros Hnd.
  - destruct (decide (k' = k)); reflexivity.
  - apply NoDup_cons in Hnd as [Hk2 Hnd].
    destruct (decide (k = k2)) as [->|Hne].
    + destruct (decide (k' = k2)) as [->|Hne2]; [|reflexivity].
      apply Dict_get_None. exact Hk2.
    + simpl. destruct (decide (k' = k2)) as [->|Hne2].
      * rewrite decide_False by congruence. reflexivity.
      * apply IH. exact Hnd.
Qed.

Lemma Dict_del_NoDup k d : NoDup (Dict.keys d) -> NoDup (Dict.keys (Dict.del k d)).
Proof.
  intros Hnd. rewrite Dict_del_keys by exact Hnd.
  apply NoDup_ListNoDup, List.NoDup_filter, NoDup_ListNoDup. exact Hnd.
Qed.

Lemma Dict_elem_get k v d : NoDup (Dict.keys d) -> (k, v) ∈ d -> Dict.get k d = Some v.
Proof.
  induction d as [|[k0 v0] d IH]; intros Hnd Hin; [inversion Hin|].
  cbn [Dict.keys map fst] in Hnd. fold (Dict.keys d) in Hnd.
  apply NoDup_cons in Hnd as [Hk0 Hnd]. cbn [Dict.get].
  apply elem_of_cons in Hin as [[= -> ->]|Hin].
  - rewrite decide_True by reflexivity. reflexivity.
  - destruct (decide (k = k0)) as [->|Hne]; [|apply IH; assumption].
    exfalso. apply Hk0. unfold Dict.keys.
    apply (list_elem_of_fmap_2 fst) in Hin. exact Hin.
Qed.

End DictMore.

Section SavepointsExtras.

Variable DataFrame : Type.
Variable DataFrame_eq : DataFrame -> DataFrame -> bool.
Variable DataFrame_copy : DataFrame -> DataFrame.
Variable base_node : DataFrame -> SqlModel.
Variable quote_identifier : string -> string.
Variable to_sql_materialized_nodes : VirtualNode -> bool -> list (string * string).
Variable Database : Type.
Variable Row : Type.
Variable conn_execute : Database -> string -> result (Database * list Row).

Abbreviation Registry := (Savepoints DataFrame).
Abbreviation Entry := (SavepointEntry DataFrame).
Abbreviation wf := (well_formed DataFrame).
Abbreviation add_ := (add_savepoint DataFrame DataFrame_eq DataFrame_copy).
Abbreviation update_ := (update_savepoint DataFrame).
Abbreviation remove_ := (remove_savepoint DataFrame).
Abbreviation merge_ := (merge DataFrame DataFrame_eq DataFrame_copy).
Abbreviation get_df_ := (get_df DataFrame DataFrame_copy).
Abbreviation execute_ :=
  (execute_sql DataFrame base_node quote_identifier to_sql_materialized_nodes
     Database Row conn_execute).
Abbreviation statements :=
  (Savepoints_to_sql DataFrame base_node to_sql_materialized_nodes).
Abbreviation is_materialized_ := (is_materialized DataFrame).
Abbreviation entry n df m w := (mkSavepointEntry DataFrame n df m w).

Lemma wf_get (self : Registry) (k : string) (e : Entry) :
  wf self -> Dict.get k self = Some e ->
  name_ DataFrame e = k /\ re_match_name k = true.
Proof.
  intros [_ Hall] Hget. apply Dict_get_elem in Hget.
  rewrite Forall_forall in Hall. apply (Hall _ Hget).
Qed.

Lemma wf_set (self : Registry) (k : string) (e : Entry) :
  wf self -> name_ DataFrame e = k -> re_match_name k = true ->
  wf (Dict.set k e self).
Proof.
  intros [Hnd Hall] Hn Hk. split; [apply Dict_set_NoDup; exact Hnd|].
  apply Dict_set_Forall; [exact Hall | split; assumption].
Qed.

Lemma wf_del (self : Registry) (k : string) : wf self -> wf (Dict.del k self).
Proof.
  intros [Hnd Hall]. split; [apply Dict_del_NoDup; exact Hnd|].
  apply Forall_forall. intros x Hx. apply Dict_del_elem in Hx.
  rewrite Forall_forall in Hall. auto.
Qed.

Lemma wf_add (self : Registry) name df m : wf self -> wf (add_ self name df m).1.
Proof.
  intros Hwf. unfold add_savepoint. destruct name as [n|]; [|exact Hwf].
  destruct (re_match_name n) eqn:Hn; cbn [negb]; [|exact Hwf].
  destruct (Dict.get n self) as [existing|]; [destruct (differs _ _ _ _ _); exact Hwf|].
  apply wf_set; [exact Hwf | reflexivity | exact Hn].
Qed.

Lemma wf_update (self : Registry) name m : wf self -> wf (update_ self name m).1.
Proof.
  intros Hwf. unfold update_savepoint.
  destruct (Dict.get name self) as [current|] eqn:Hget; [|exact Hwf].
  destruct (bool_decide _); [exact Hwf|].
  destruct (wf_get _ _ _ Hwf Hget). apply wf_set; assumption.
Qed.

Lemma wf_remove (self : Registry) name : wf self -> wf (remove_ self name).1.
Proof.
  intros Hwf. unfold remove_savepoint.
  destruct (Dict.get name self); [apply wf_del|]; exact Hwf.
Qed.

Lemma wf_merge_loop (items : Registry) :
  forall self : Registry,
    wf self ->
    Forall (fun kv => re_match_name kv.1 = true) items ->
    wf (merge_loop DataFrame DataFrame_eq DataFrame_copy self items).1.
Proof.
  induction items as [|[n e] items IH]; intros self Hwf Hitems; [exact Hwf|].
  apply Forall_cons in Hitems as [Hn Hitems]. cbn [merge_loop merge_step].
  destruct (Dict.get n self) as [existing|] eqn:Hget.
  - destruct (differs _ _ _ _ _); [exact Hwf|].
    apply IH; [|exact Hitems].
    destruct (wf_get _ _ _ Hwf Hget). apply wf_set; assumption.
  - apply IH; [|exact Hitems]. apply wf_set; [exact Hwf | reflexivity | exact Hn].
Qed.

Lemma wf_mark (self : Registry) (engine : Engine) name info :
  wf self -> Dict.get name self = Some info ->
  wf (mark_written DataFrame self name info engine).
Proof.
  intros Hwf Hget. destruct (wf_get _ _ _ Hwf Hget). apply wf_set; assumption.
Qed.

Lemma wf_execute_loop (engine : Engine) (items : list (string * string)) :
  forall st : ExecState DataFrame Database Row,
    wf (st_entries _ _ _ st) ->
    wf (st_entries _ _ _
          (execute_loop DataFrame Database Row conn_execute engine st items).1).
Proof.
  induction items as [|[n s] items IH]; intros st Hwf; [exact Hwf|].
  cbn [execute_loop execute_step].
  destruct (Dict.get n (st_entries _ _ _ st)) as [info|] eqn:Hget; [|exact Hwf].
  destruct (conn_execute _ _) as [[db' rows]|e]; [|exact Hwf].
  apply IH. cbn [st_entries]. apply wf_mark; assumption.
Qed.

(** X19. A [Savepoints] object stays well formed, with distinct names, every
    entry stored under its own name and every name matching the pattern,
    through [add_savepoint], [update_savepoint], [remove_savepoint], [merge]
    with a well-formed object and [execute_sql], whether the call returns or
    raises. *)
Theorem X19_savepoints_stay_well_formed :
  forall self : Registry,
    wf self ->
    (forall name df m, wf (add_ self name df m).1)
    /\ (forall name m, wf (update_ self name m).1)
    /\ (forall name, wf (remove_ self name).1)
    /\ (forall other, wf other -> wf (merge_ self other).1)
    /\ (forall db engine overwrite, wf (execute_ self db engine overwrite).1.1).
Proof.
  intros self Hwf.
  split; [intros; apply wf_add; exact Hwf|].
  split; [intros; apply wf_update; exact Hwf|].
  split; [intros; apply wf_remove; exact Hwf|].
  split.
  - intros other [_ Hother]. apply wf_merge_loop; [exact Hwf|].
    eapply Forall_impl; [exact Hother|]. intros kv [_ H]. exact H.
  - intros db engine overwrite. unfold execute_sql.
    destruct (execute_drops _ _ _ _ _ _ _ _ _ _) as [db1|e]; [|exact Hwf].
    pose proof (wf_execute_loop engine (statements self)
                  (mkExecState DataFrame Database Row self db1 [] []) Hwf) as H.
    destruct (execute_loop _ _ _ _ _ _ _) as [st [[]|e]]; exact H.
Qed.

(** X20. [update_savepoint] raises [KeyError] for a name that is not there
    and changes nothing when the materialization is the one the entry has;
    otherwise it keeps the names and their order, the DataFrame of the entry
    and every other entry, sets the new materialization and empties
    [written_to_db], so that the savepoint is no longer materialized for any
    engine. *)
Theorem X20_update_savepoint :
  forall (self : Registry) (name : string) (m : Materialization),
    match Dict.get name self with
    | None => update_ self name m = (self, Raise (KeyError name))
    | Some current =>
        if bool_decide (materialization DataFrame current = m)
        then update_ self name m = (self, Ok ())
        else
          exists self',
            update_ self name m = (self', Ok ())
            /\ Dict.keys self' = Dict.keys self
            /\ Dict.get name self'
               = Some (entry (name_ DataFrame current) (df_original DataFrame current) m ∅)
            /\ (forall n, n <> name -> Dict.get n self' = Dict.get n self)
            /\ forall engine, is_materialized_ self' engine name = Ok false
    end.
Proof.
  intros self name m. unfold update_savepoint.
  destruct (Dict.get name self) as [current|] eqn:Hget; [|reflexivity].
  case_bool_decide; [reflexivity|].
  eexists. split; [reflexivity|].
  split; [apply Dict_set_keys_present; eauto|].
  split; [apply Dict_get_set_eq|].
  split.
  - intros n Hn. rewrite Dict_get_set. rewrite decide_False by exact Hn. reflexivity.
  - intros engine. unfold is_materialized. rewrite Dict_get_set_eq. cbn.
    rewrite bool_decide_eq_false_2 by (apply not_elem_of_empty). reflexivity.
Qed.

(** X21. [remove_savepoint] raises [KeyError] for a name that is not there;
    otherwise the name is gone, every other entry is as before, [get_df] and a
    second removal of the name raise [KeyError], and adding the name again
    registers a fresh entry with an empty [written_to_db]. *)
Theorem X21_remove_savepoint :
  forall (self : Registry) (name : string),
    NoDup (Dict.keys self) ->
    match Dict.get name self with
    | None => remove_ self name = (self, Raise (KeyError name))
    | Some _ =>
        exists self',
          remove_ self name = (self', Ok ())
          /\ Dict.get name self' = None
          /\ (forall n, n <> name -> Dict.get n self' = Dict.get n self)
          /\ Dict.keys self'
             = List.filter (fun k => negb (bool_decide (k = name))) (Dict.keys self)
          /\ get_df_ self' name = Raise (KeyError name)
          /\ remove_ self' name = (self', Raise (KeyError name))
          /\ forall df m,
               re_match_name name = true ->
               add_ self' (Some name) df m
               = (self' ++ [(name, entry name (DataFrame_copy df) m ∅)], Ok ())
    end.
Proof.
  intros self name Hnd.
  destruct (Dict.get name self) as [e|] eqn:Hget;
    [|unfold remove_savepoint; rewrite Hget; reflexivity].
  assert (Hgone : Dict.get name (Dict.del name self) = None).
  { rewrite Dict_get_del by exact Hnd. rewrite decide_True; reflexivity. }
  exists (Dict.del name self).
  split; [unfold remove_savepoint; rewrite Hget; reflexivity|].
  split; [exact Hgone|].
  split.
  { intros n Hn. rewrite Dict_get_del by exact Hnd.
    rewrite decide_False by exact Hn. reflexivity. }
  split; [apply Dict_del_keys; exact Hnd|].
  split; [unfold get_df; rewrite Hgone; reflexivity|].
  split; [unfold remove_savepoint; rewrite Hgone; reflexivity|].
  intros df m Hname. unfold add_savepoint. rewrite Hname, Hgone. cbn [negb].
  rewrite Dict_set_absent by exact Hgone. reflexivity.
Qed.

Abbreviation merge_loop_ := (merge_loop DataFrame DataFrame_eq DataFrame_copy).
Abbreviation merged := (merged_entry DataFrame DataFrame_copy).
Abbreviation compatible_ := (compatible DataFrame DataFrame_eq).
Abbreviation differs_ := (differs DataFrame DataFrame_eq).

Lemma merged_none (n : string) (mine : option Entry) : merged n mine None = mine.
Proof. destruct mine; reflexivity. Qed.

Lemma merge_step_ok (self : Registry) (n : string) (e : Entry) :
  match Dict.get n self with
  | Some existing =>
      differs_ existing (df_original DataFrame e) (materialization DataFrame e) = false
  | None => True
  end ->
  exists x,
    merged n (Dict.get n self) (Some e) = Some x
    /\ merge_step DataFrame DataFrame_eq DataFrame_copy self (n, e)
       = (Dict.set n x self, Ok ()).
Proof.
  intros Hc. cbn [merge_step]. destruct (Dict.get n self) as [existing|].
  - rewrite Hc. eexists. split; reflexivity.
  - eexists. split; reflexivity.
Qed.

Lemma merge_loop_ok (items : Registry) :
  forall self : Registry,
    NoDup (Dict.keys items) ->
    compatible_ self items ->
    exists self',
      merge_loop_ self items = (self', Ok ())
      /\ forall n, Dict.get n self' = merged n (Dict.get n self) (Dict.get n items).
Proof.
  induction items as [|[n0 e0] items IH]; intros self Hnd Hc.
  - exists self. split; [reflexivity|]. intros n. cbn. rewrite merged_none. reflexivity.
  - cbn [Dict.keys map fst] in Hnd. fold (Dict.keys items) in Hnd.
    apply NoDup_cons in Hnd as [Hn0 Hnd].
    unfold compatible in Hc. apply Forall_cons in Hc as [Hc0 Hc].
    destruct (merge_step_ok self n0 e0 Hc0) as (x & Hx & Hstep).
    cbn [merge_loop]. cbn [fst snd] in Hstep. rewrite Hstep.
    destruct (IH (Dict.set n0 x self) Hnd) as (self' & Hloop & Hget).
    { unfold compatible. apply Forall_forall. intros [n e] Hin.
      rewrite Forall_forall in Hc. specialize (Hc _ Hin). cbn [fst snd] in *.
      rewrite Dict_get_set. rewrite decide_False; [exact Hc|].
      intros ->. apply Hn0. unfold Dict.keys.
      apply (list_elem_of_fmap_2 fst) in Hin. exact Hin. }
    exists self'. split; [exact Hloop|]. intros n. rewrite Hget, Dict_get_set.
    cbn [Dict.get]. destruct (decide (n = n0)) as [->|Hne].
    + apply Dict_get_None in Hn0. rewrite Hn0, merged_none. symmetry. exact Hx.
    + reflexivity.
Qed.

Lemma merge_loop_conflict (items : Registry) :
  forall (self : Registry) (n : string) (e existing : Entry),
    NoDup (Dict.keys items) ->
    (n, e) ∈ items ->
    Dict.get n self = Some existing ->
    differs_ existing (df_original DataFrame e) (materialization DataFrame e) = true ->
    exists self' msg, merge_loop_ self items = (self', Raise (ValueError msg)).
Proof.
  induction items as [|[n0 e0] items IH]; intros self n e existing Hnd Hin Hget Hd.
  - inversion Hin.
  - cbn [Dict.keys map fst] in Hnd. fold (Dict.keys items) in Hnd.
    apply NoDup_cons in Hnd as [Hn0 Hnd]. cbn [merge_loop].
    destruct (merge_step DataFrame DataFrame_eq DataFrame_copy self (n0, e0))
      as [self1 [[]|err]] eqn:Hstep.
    + apply elem_of_cons in Hin as [[= -> ->]|Hin].
      * cbn [merge_step] in Hstep. rewrite Hget, Hd in Hstep. discriminate.
      * assert (Hne : n <> n0).
        { intros ->. apply Hn0. unfold Dict.keys.
          apply (list_elem_of_fmap_2 fst) in Hin. exact Hin. }
        apply (IH self1 n e existing Hnd Hin); [|exact Hd].
        cbn [merge_step] in Hstep.
        destruct (Dict.get n0 self) as [ex0|];
          [destruct (differs_ ex0 _ _); [discriminate|]|];
          injection Hstep as <-; rewrite Dict_get_set, decide_False by exact Hne;
          exact Hget.
    + cbn [merge_step] in Hstep.
      destruct (Dict.get n0 self) as [ex0|];
        [destruct (differs_ ex0 _ _)|]; try discriminate.
      injection Hstep as <- <-. eexists. eexists. reflexivity.
Qed.

(** X22. [merge] with another object whose entries do not conflict returns,
    and afterwards every name holds: the entry of [self] with the
    [written_to_db] of both united, when both have it; the entry of [self]
    when only [self] has it; a copy of the other's entry with its
    [written_to_db] when only the other has it. When an entry of the other
    object differs from the entry of the same name the call raises
    [ValueError]. Merging an object into itself changes no entry. *)
Theorem X22_merge :
  forall self other : Registry,
    NoDup (Dict.keys other) ->
    (compatible_ self other ->
     exists self',
       merge_ self other = (self', Ok ())
       /\ forall n, Dict.get n self' = merged n (Dict.get n self) (Dict.get n other))
    /\ (forall n e existing,
          (n, e) ∈ other -> Dict.get n self = Some existing ->
          differs_ existing (df_original DataFrame e) (materialization DataFrame e) = true ->
          exists self' msg, merge_ self other = (self', Raise (ValueError msg)))
    /\ ((forall df, DataFrame_eq df df = true) ->
        exists self',
          merge_ other other = (self', Ok ())
          /\ forall n, Dict.get n self' = Dict.get n other).
Proof.
  intros self other Hnd. split; [|split].
  - intros Hc. apply merge_loop_ok; assumption.
  - intros n e existing Hin Hget Hd. eapply merge_loop_conflict; eassumption.
  - intros Hrefl.
    destruct (merge_loop_ok other other Hnd) as (self' & Hm & Hget).
    { unfold compatible. apply Forall_forall. intros [n e] Hin. cbn [fst snd].
      destruct (Dict.get n other) as [ex|] eqn:Hex; [|exact I].
      assert (ex = e) as ->.
      { pose proof (Dict_elem_get _ _ _ Hnd Hin) as He.
        rewrite Hex in He. injection He as ->. reflexivity. }
      unfold differs. rewrite Hrefl. rewrite bool_decide_eq_true_2 by reflexivity.
      reflexivity. }
    exists self'. split; [exact Hm|]. intros n. rewrite Hget.
    destruct (Dict.get n other) as [[nm df m w]|]; [|reflexivity].
    cbn. rewrite union_idemp_L. reflexivity.
Qed.

Abbreviation State := (ExecState DataFrame Database Row).
Abbreviation execute_loop_ := (execute_loop DataFrame Database Row conn_execute).
Abbreviation marked_ := (marked DataFrame).
Abbreviation created_object_ := (created_object DataFrame).
Abbreviation is_query_ := (is_query DataFrame).
Abbreviation entries_ := (st_entries DataFrame Database Row).
Abbreviation created_ := (st_created DataFrame Database Row).
Abbreviation fetched_ := (st_data DataFrame Database Row).

Lemma flat_map_agree {A B} (f g : A -> list B) (l : list A) :
  Forall (fun x => f x = g x) l -> flat_map f l = flat_map g l.
Proof.
  induction 1 as [|x l Hx _ IH]; [reflexivity|]. cbn. rewrite Hx, IH. reflexivity.
Qed.

Lemma execute_step_ok (engine : Engine) (st : State) (n s : string) (info : Entry) :
  Dict.get n (entries_ st) = Some info ->
  is_ok (conn_execute (st_db _ _ _ st) s) = true ->
  exists db' rows,
    execute_step DataFrame Database Row conn_execute engine st (n, s)
    = (mkExecState DataFrame Database Row
         (Dict.set n (marked_ engine info) (entries_ st)) db'
         (created_ st ++ created_object_ (entries_ st) n)
         (if is_query_ (entries_ st) n then Dict.set n rows (fetched_ st)
          else fetched_ st),
       Ok ()).
Proof.
  intros Hget Hok. cbn [execute_step]. unfold created_object, is_query. rewrite Hget.
  destruct (conn_execute _ s) as [[db' rows]|e]; [|discriminate].
  exists db', rows. unfold mark_written, marked.
  destruct (materialization DataFrame info); cbn; rewrite ?app_nil_r; reflexivity.
Qed.

Lemma execute_loop_ok (engine : Engine) (items : list (string * string)) :
  forall st : State,
    NoDup (Dict.keys items) ->
    Forall (fun n => is_Some (Dict.get n (entries_ st))) (Dict.keys items) ->
    Forall (fun item => forall db, is_ok (conn_execute db item.2) = true) items ->
    exists st',
      execute_loop_ engine st items = (st', Ok ())
      /\ Dict.keys (entries_ st') = Dict.keys (entries_ st)
      /\ (forall n, Dict.get n (entries_ st')
                    = if bool_decide (n ∈ Dict.keys items)
                      then marked_ engine <$> Dict.get n (entries_ st)
                      else Dict.get n (entries_ st))
      /\ created_ st'
         = created_ st ++ flat_map (created_object_ (entries_ st)) (Dict.keys items)
      /\ (forall n, is_Some (Dict.get n (fetched_ st'))
                    <-> is_Some (Dict.get n (fetched_ st))
                        \/ (n ∈ Dict.keys items /\ is_query_ (entries_ st) n = true)).
Proof.
  induction items as [|[n0 s0] items IH]; intros st Hnd Hreg Hdb.
  - exists st. split; [reflexivity|]. split; [reflexivity|].
    split; [intros n; rewrite bool_decide_eq_false_2 by apply not_elem_of_nil; reflexivity|].
    split; [cbn; rewrite app_nil_r; reflexivity|].
    intros n. split; [auto|]. intros [H|[H _]]; [exact H|]. inversion H.
  - cbn [Dict.keys map fst] in Hnd, Hreg. fold (Dict.keys items) in Hnd, Hreg.
    apply NoDup_cons in Hnd as [Hn0 Hnd].
    apply Forall_cons in Hreg as [[info Hinfo] Hreg].
    apply Forall_cons in Hdb as [Hdb0 Hdb]. cbn [snd] in Hdb0.
    destruct (execute_step_ok engine st n0 s0 info Hinfo (Hdb0 _)) as (db' & rows & Hstep).
    cbn [execute_loop]. rewrite Hstep.
    set (st1 := mkExecState DataFrame Database Row _ db' _ _).
    assert (Hother : forall n, n <> n0 -> Dict.get n (entries_ st1) = Dict.get n (entries_ st)).
    { intros n Hn. unfold st1. cbn [st_entries]. rewrite Dict_get_set.
      rewrite decide_False by exact Hn. reflexivity. }
    assert (Hrest : Forall (fun n => n <> n0) (Dict.keys items)).
    { apply Forall_forall. intros n Hin ->. exact (Hn0 Hin). }
    destruct (IH st1 Hnd) as (st' & Hloop & Hkeys & Hget & Hcreated & Hdata).
    { rewrite Forall_forall in Hreg, Hrest. apply Forall_forall. intros n Hin.
      rewrite Hother by (apply Hrest; exact Hin). apply Hreg. exact Hin. }
    { exact Hdb. }
    exists st'. split; [exact Hloop|]. split; [|split; [|split]].
    + rewrite Hkeys. unfold st1. cbn [st_entries].
      apply Dict_set_keys_present. rewrite Hinfo. eauto.
    + intros n. rewrite Hget. cbn [Dict.keys map fst]. fold (Dict.keys items).
      destruct (decide (n = n0)) as [->|Hne].
      * rewrite bool_decide_eq_false_2 by exact Hn0.
        rewrite bool_decide_eq_true_2 by (apply elem_of_cons; left; reflexivity).
        unfold st1. cbn [st_entries]. rewrite Dict_get_set_eq, Hinfo. reflexivity.
      * rewrite (Hother n Hne). case_bool_decide as Hin.
        -- rewrite bool_decide_eq_true_2 by (apply elem_of_cons; right; exact Hin).
           reflexivity.
        -- rewrite bool_decide_eq_false_2; [reflexivity|].
           intros [?|?]%elem_of_cons; [contradiction|]. apply Hin. assumption.
    + rewrite Hcreated. unfold st1 at 1. cbn [st_created flat_map Dict.keys map fst].
      fold (Dict.keys items). rewrite <- app_assoc. f_equal. f_equal.
      apply flat_map_agree. eapply Forall_impl; [exact Hrest|].
      intros n Hn. cbn beta. unfold created_object. rewrite (Hother n Hn). reflexivity.
    + intros n. rewrite Hdata. cbn [Dict.keys map fst]. fold (Dict.keys items).
      rewrite elem_of_cons. unfold st1 at 1. cbn [st_data].
      destruct (decide (n = n0)) as [->|Hne].
      * split.
        -- intros [H|[H _]]; [|contradiction].
           destruct (is_query_ (entries_ st) n0) eqn:Hq; [right; auto|left; exact H].
        -- intros [H|[_ Hq]].
           ++ left. destruct (is_query_ (entries_ st) n0); [|exact H].
              rewrite Dict_get_set_eq. eauto.
           ++ left. rewrite Hq. rewrite Dict_get_set_eq. eauto.
      * assert (Hq : is_query_ (entries_ st1) n = is_query_ (entries_ st) n).
        { unfold is_query. rewrite (Hother n Hne). reflexivity. }
        rewrite Hq.
        assert (Hd : is_Some (Dict.get n (if is_query_ (entries_ st) n0
                                         then Dict.set n0 rows (fetched_ st)
                                         else fetched_ st))
                     <-> is_Some (Dict.get n (fetched_ st))).
        { destruct (is_query_ (entries_ st) n0); [|reflexivity].
          rewrite Dict_get_set, decide_False by exact Hne. reflexivity. }
        rewrite Hd. split.
        -- intros [H|[H1 H2]]; [left; exact H | right; split; [right; exact H1 | exact H2]].
        -- intros [H|[[H1|H1] H2]]; [left; exact H | contradiction | right; auto].
Qed.

(** X23. When the statements of [to_sql] have distinct names, each the name
    of a savepoint, and the database accepts every one of them,
    [execute_sql] without [overwrite] returns. The names and their order are
    kept; every savepoint that has a statement gets [engine.url] added to its
    [written_to_db] and is then materialized for that engine, every other
    entry is as before; [created] lists the tables and views in the order of
    the statements; and [data] has a key for exactly the queries. *)
Theorem X23_execute_sql_success :
  forall (self : Registry) (db : Database) (engine : Engine),
    NoDup (Dict.keys (statements self)) ->
    Forall (fun n => is_Some (Dict.get n self)) (Dict.keys (statements self)) ->
    Forall (fun item => forall db', is_ok (conn_execute db' item.2) = true)
      (statements self) ->
    exists self' db' res,
      execute_ self db engine false = (self', db', Ok res)
      /\ Dict.keys self' = Dict.keys self
      /\ (forall n, Dict.get n self'
                    = if bool_decide (n ∈ Dict.keys (statements self))
                      then marked_ engine <$> Dict.get n self
                      else Dict.get n self)
      /\ (forall n, n ∈ Dict.keys (statements self) ->
                    is_materialized_ self' engine n = Ok true)
      /\ created Row res
         = flat_map (created_object_ self) (Dict.keys (statements self))
      /\ (forall n, is_Some (Dict.get n (data_ Row res))
                    <-> n ∈ Dict.keys (statements self) /\ is_query_ self n = true).
Proof.
  intros self db engine Hnd Hreg Hdb. unfold execute_sql. cbn [execute_drops].
  destruct (execute_loop_ok engine (statements self)
              (mkExecState DataFrame Database Row self db [] []) Hnd Hreg Hdb)
    as (st' & Hloop & Hkeys & Hget & Hcreated & Hdata).
  rewrite Hloop. eexists _, _, _. split; [reflexivity|].
  cbn [st_entries st_created st_data created data_] in *.
  split; [exact Hkeys|]. split; [exact Hget|]. split; [|split].
  - intros n Hin. unfold is_materialized. rewrite Hget.
    rewrite bool_decide_eq_true_2 by exact Hin.
    rewrite Forall_forall in Hreg. destruct (Hreg n Hin) as [info ->].
    cbn. rewrite bool_decide_eq_true_2; [reflexivity|].
    apply elem_of_union. right. apply elem_of_singleton. reflexivity.
  - exact Hcreated.
  - intros n. rewrite Hdata. cbn [Dict.get]. split.
    + intros [[? [=]]|H]; exact H.
    + auto.
Qed.

Abbreviation combined_graph := (_get_combined_graph DataFrame base_node).
Abbreviation reference_of := (entry_reference DataFrame base_node).
Abbreviation names_ := (names DataFrame).
Abbreviation all_ := (all DataFrame).
Abbreviation ref_key e := ("ref_" +:+ name_ DataFrame e).

Lemma ref_key_inj (a b : string) : "ref_" +:+ a = "ref_" +:+ b -> a = b.
Proof. intros H. injection H as H. exact H. Qed.

Lemma references_fold (entries : list Entry) :
  forall acc : list (string * SqlModel),
    NoDup (Dict.keys acc ++ map (fun e => ref_key e) entries) ->
    fold_left (fun refs e =>
                 Dict.set (ref_key e) (base_node (df_original DataFrame e)) refs)
      entries acc
    = acc ++ map (fun e => (ref_key e, base_node (df_original DataFrame e))) entries.
Proof.
  induction entries as [|e entries IH]; intros acc Hnd; [cbn; rewrite app_nil_r; reflexivity|].
  cbn [fold_left map]. cbn [map] in Hnd.
  rewrite Dict_set_absent.
  - rewrite IH.
    + rewrite <- app_assoc. reflexivity.
    + unfold Dict.keys. rewrite map_app, <- app_assoc. exact Hnd.
  - apply Dict_get_None. apply NoDup_app in Hnd as (_ & Hdis & _).
    intros Hin. apply (Hdis _ Hin). apply elem_of_cons. left. reflexivity.
Qed.

Lemma materialization_step (graph : VirtualNode) (e : Entry) :
  set_materialization
    (set_materialization_name graph (ref_key e) (name_ DataFrame e))
    (ref_key e) (materialization DataFrame e)
  = mkVirtualNode (node_name graph) (node_sql graph) (node_materialization graph)
      (map (fun kr : string * Reference =>
              if decide (kr.1 = ref_key e)
              then (kr.1, mkReference (ref_node kr.2) (Some (name_ DataFrame e))
                            (Some (materialization DataFrame e)))
              else kr)
         (node_references graph)).
Proof.
  unfold set_materialization, set_materialization_name. cbn. f_equal.
  rewrite map_map. apply map_ext. intros [k r]. cbn [fst snd].
  destruct (decide (k = ref_key e)) as [Hk|Hk].
  - rewrite decide_True by exact Hk. reflexivity.
  - rewrite decide_False by exact Hk. reflexivity.
Qed.

Lemma materialization_fold (entries : list Entry) :
  forall graph : VirtualNode,
    fold_left (fun graph e =>
                 set_materialization
                   (set_materialization_name graph (ref_key e) (name_ DataFrame e))
                   (ref_key e) (materialization DataFrame e))
      entries graph
    = mkVirtualNode (node_name graph) (node_sql graph) (node_materialization graph)
        (map (fun kr : string * Reference =>
                fold_left (fun (kr : string * Reference) e =>
                             if decide (kr.1 = ref_key e)
                             then (kr.1, mkReference (ref_node kr.2)
                                           (Some (name_ DataFrame e))
                                           (Some (materialization DataFrame e)))
                             else kr)
                  entries kr)
           (node_references graph)).
Proof.
  induction entries as [|e entries IH]; intros graph.
  - cbn. rewrite map_id. destruct graph; reflexivity.
  - cbn [fold_left]. rewrite materialization_step, IH. cbn. rewrite map_map. reflexivity.
Qed.

Lemma reference_untouched (entries : list Entry) :
  forall (n : string) (r : Reference),
    n ∉ map (name_ DataFrame) entries ->
    fold_left (fun (kr : string * Reference) e =>
                 if decide (kr.1 = ref_key e)
                 then (kr.1, mkReference (ref_node kr.2) (Some (name_ DataFrame e))
                               (Some (materialization DataFrame e)))
                 else kr)
      entries ("ref_" +:+ n, r)
    = ("ref_" +:+ n, r).
Proof.
  induction entries as [|e entries IH]; intros n r Hn; [reflexivity|].
  cbn [map] in Hn. apply not_elem_of_cons in Hn as [Hne Hn].
  cbn [fold_left fst]. rewrite decide_False; [apply IH; exact Hn|].
  intros H. apply ref_key_inj in H. contradiction.
Qed.

Lemma reference_set (entries : list Entry) :
  forall (e : Entry) (r : Reference),
    NoDup (map (name_ DataFrame) entries) ->
    e ∈ entries ->
    fold_left (fun (kr : string * Reference) e =>
                 if decide (kr.1 = ref_key e)
                 then (kr.1, mkReference (ref_node kr.2) (Some (name_ DataFrame e))
                               (Some (materialization DataFrame e)))
                 else kr)
      entries (ref_key e, r)
    = (ref_key e, mkReference (ref_node r) (Some (name_ DataFrame e))
                    (Some (materialization DataFrame e))).
Proof.
  induction entries as [|e0 entries IH]; intros e r Hnd Hin; [inversion Hin|].
  cbn [map] in Hnd. apply NoDup_cons in Hnd as [Hfresh Hnd].
  cbn [fold_left fst snd]. apply elem_of_cons in Hin as [->|Hin].
  - rewrite decide_True by reflexivity. apply reference_untouched. exact Hfresh.
  - rewrite decide_False; [apply IH; assumption|].
    intros H. apply ref_key_inj in H. apply Hfresh. rewrite <- H.
    apply (list_elem_of_fmap_2 (name_ DataFrame)). exact Hin.
Qed.

(** X24. When no two savepoints carry the same name, the combined graph is a
    virtual node whose SQL is [select * from {{ref_<name>}}, ...] over the
    savepoints in their order, and that holds one reference per savepoint, in
    that order: under [ref_<name>], to the base node of its DataFrame, with
    the name of the savepoint as materialization name and its materialization
    as materialization. *)
Theorem X24_combined_graph :
  forall self : Registry,
    NoDup (names_ self) ->
    node_references (combined_graph self) = map reference_of (all_ self)
    /\ node_sql (combined_graph self)
       = "select * from "
         +:+ join_with ", " (map (fun n => "{{" +:+ ("ref_" +:+ n) +:+ "}}") (names_ self))
    /\ node_materialization (combined_graph self) = VIRTUAL_NODE
    /\ Dict.keys (node_references (combined_graph self))
       = map (fun n => "ref_" +:+ n) (names_ self).
Proof.
  intros self Hnd. unfold names, all in *.
  assert (Hrefs :
    node_references (combined_graph self) = map reference_of (Dict.values self)
    /\ node_sql (combined_graph self)
       = "select * from "
         +:+ join_with ", "
               (map (fun n => "{{" +:+ ("ref_" +:+ n) +:+ "}}")
                  (map (name_ DataFrame) (Dict.values self)))
    /\ node_materialization (combined_graph self) = VIRTUAL_NODE).
  { unfold _get_combined_graph. rewrite materialization_fold.
    rewrite (references_fold (Dict.values self) []).
    - cbn [app node_references node_sql node_materialization _get_virtual_node].
      split; [|split; [|reflexivity]].
      + rewrite !map_map. apply map_ext_in. intros e Hin. apply list_elem_of_In in Hin.
        cbn [fst snd]. rewrite (reference_set _ e _ Hnd Hin). reflexivity.
      + unfold Dict.keys. rewrite !map_map. reflexivity.
    - cbn [Dict.keys map app]. rewrite <- (map_map (name_ DataFrame) (String.append "ref_")).
      apply NoDup_fmap_2; [|exact Hnd]. intros a b. apply ref_key_inj. }
  destruct Hrefs as (Hr & Hs & Hm).
  split; [exact Hr|]. split; [exact Hs|]. split; [exact Hm|].
  rewrite Hr. unfold Dict.keys. rewrite !map_map. reflexivity.
Qed.

End SavepointsExtras.

(** ** The further properties on concrete inputs *)

Module ExtraExamples.

Import Sample.

Abbreviation sql_text e tn :=
  (to_sql escape_format_string quote_string quote_identifier e tn).
Abbreviation registry := (Savepoints DataFrame).
Abbreviation fresh n df m := (mkSavepointEntry DataFrame n df m ∅).


(** [flag | flag]: X9 at the boolean column. *)
Lemma X9_witness_or :
  (exists r,
     binary_operation Op_or bool_1 (VSeries bool_1) = Ok r
     /\ series_class r = SeriesBoolean
     /\ sql_text (expression r) None
        = Ok ("(" +:+ dq +:+ "flag" +:+ dq +:+ ") OR (" +:+ dq +:+ "flag" +:+ dq +:+ ")"))
  /\ binary_operation Op_or bool_1 (VSeries uuid_1)
     = Raise (TypeError "boolean operator 'OR' not supported between bool and uuid.")
  /\ binary_operation Op_or bool_1 (VBool true)
     = Raise (AttributeError "'bool' object has no attribute 'dtype'").
Proof.
  destruct (X9_boolean_operators escape_format_string quote_string quote_identifier
              Op_or "OR" bool_1 eq_refl eq_refl) as (Hsame & Hother & Hconst).
  split; [|split].
  - destruct (Hsame bool_1 eq_refl eq_refl) as (r & Hr & Hc & Hsql).
    exists r. split; [exact Hr|]. split; [exact Hc|]. rewrite Hsql. vm_compute. reflexivity.
  - rewrite (Hother uuid_1 eq_refl) by discriminate. reflexivity.
  - apply Hconst.
Defined.

(** [id == id]: X10 at the uuid column. *)
Lemma X10_witness_eq :
  exists r,
    binary_operation Op_eq uuid_1 (VSeries uuid_1) = Ok r
    /\ series_class r = SeriesBoolean
    /\ sql_text (expression r) None
       = Ok ("(" +:+ dq +:+ "id" +:+ dq +:+ ") = (" +:+ dq +:+ "id" +:+ dq +:+ ")").
Proof.
  destruct (X10_uuid_comparators escape_format_string quote_string quote_identifier
              Op_eq "=" uuid_1 uuid_1 eq_refl eq_refl eq_refl) as (r & Hr & Hc & Hsql).
  exists r. split; [exact Hr|]. split; [exact Hc|]. rewrite Hsql. vm_compute. reflexivity.
Defined.

(** An aggregate over the grouping on [flag] with [min_count=0]: X16. *)
Lemma X16_witness_grouping :
  _derived_agg_func GroupBy_eq get_window_expression get_dummy_index_series bool_1
    (Some (WrapGroupBy group_flag)) (inr (expression bool_1)) None true (Some 0%Z)
  = Ok (copy_override bool_1 (Some "bool") None None (Some (GroupBy_index group_flag))
          None (Some (expression bool_1)) (Some (Some group_flag)) None).
Proof.
  exact (X16_aggregate_without_min_count GroupBy_eq get_window_expression
           get_dummy_index_series bool_1 (Some (WrapGroupBy group_flag))
           (inr (expression bool_1)) None (Some 0%Z) group_flag (expression bool_1)
           eq_refl eq_refl (Z.le_refl 0)).
Defined.

(** [flag.nunique(group)]: X17 at the grouping on [flag], and at the window. *)
Lemma X17_witness_grouping :
  exists r,
    nunique GroupBy_eq get_window_expression get_dummy_index_series bool_1
      (Some (WrapGroupBy group_flag)) true = Ok r
    /\ series_class r = SeriesOther "int64"
    /\ group_by r = Some group_flag
    /\ sql_text (expression r) None = Ok ("count(distinct " +:+ dq +:+ "flag" +:+ dq +:+ ")").
Proof.
  destruct (X17_nunique GroupBy_eq get_window_expression get_dummy_index_series
              escape_format_string quote_string quote_identifier bool_1
              (WrapGroupBy group_flag) group_flag true eq_refl eq_refl)
    as (r & Hr & Hc & Hg & _ & _ & _ & Hsql).
  exists r. split; [exact Hr|]. split; [exact Hc|]. split; [exact Hg|].
  rewrite Hsql. vm_compute. reflexivity.
Defined.

(** The column of [flag] under the table alias [t]: X18. *)
Lemma X18_witness_alias :
  exists X,
    get_column_expression escape_format_string quote_string quote_identifier bool_1
      (Some "t") = Ok X
    /\ sql_text X None
       = Ok (dq +:+ "t" +:+ dq +:+ "." +:+ dq +:+ "flag" +:+ dq
             +:+ " as " +:+ dq +:+ "flag" +:+ dq).
Proof.
  destruct (X18_get_column_expression escape_format_string quote_string quote_identifier
              bool_1 (Some "t") eq_refl) as (X & HX & Hsql).
  exists X. split; [exact HX|]. rewrite Hsql. vm_compute. reflexivity.
Defined.

Lemma savepoints_abc_well_formed : well_formed DataFrame savepoints_abc.
Proof.
  split.
  - apply (bool_decide_unpack _). vm_compute. exact I.
  - apply (bool_decide_unpack _). vm_compute. exact I.
Defined.

Lemma savepoints_abc_distinct : NoDup (Dict.keys savepoints_abc).
Proof. apply (bool_decide_unpack _). vm_compute. exact I. Defined.

(** The savepoints [a], [b] and [c] stay well formed: X19. *)
Lemma X19_witness_abc :
  well_formed DataFrame savepoints_abc
  /\ well_formed DataFrame (remove_savepoint DataFrame savepoints_abc "b").1
  /\ well_formed DataFrame
       (merge DataFrame DataFrame_eq DataFrame_copy savepoints_broken savepoints_abc).1
  /\ well_formed DataFrame
       (execute_sql DataFrame df_base_node quote_identifier to_sql_materialized_nodes
          (list string) string conn_execute savepoints_abc [] engine true).1.1.
Proof.
  destruct (X19_savepoints_stay_well_formed DataFrame DataFrame_eq DataFrame_copy
              df_base_node quote_identifier to_sql_materialized_nodes
              (list string) string conn_execute savepoints_abc
              savepoints_abc_well_formed) as (_ & _ & Hremove & _ & Hexecute).
  destruct (X19_savepoints_stay_well_formed DataFrame DataFrame_eq DataFrame_copy
              df_base_node quote_identifier to_sql_materialized_nodes
              (list string) string conn_execute savepoints_broken)
    as (_ & _ & _ & Hmerge & _).
  { split; apply (bool_decide_unpack _); vm_compute; exact I. }
  split; [exact savepoints_abc_well_formed|].
  split; [apply Hremove|].
  split; [apply Hmerge; exact savepoints_abc_well_formed | apply Hexecute].
Defined.

(** Removing [b] from the savepoints [a], [b] and [c]: X21. *)
Lemma X21_witness_remove_b :
  exists after : registry,
    remove_savepoint DataFrame savepoints_abc "b" = (after, Ok ())
    /\ Dict.keys after = ["a"; "c"]
    /\ get_df DataFrame DataFrame_copy after "b" = Raise (KeyError "b")
    /\ remove_savepoint DataFrame after "b" = (after, Raise (KeyError "b"))
    /\ add_savepoint DataFrame DataFrame_eq DataFrame_copy after (Some "b") df_b QUERY
       = (after ++ [("b", fresh "b" df_b QUERY)], Ok ()).
Proof.
  destruct (X21_remove_savepoint DataFrame DataFrame_eq DataFrame_copy savepoints_abc "b"
              savepoints_abc_distinct)
    as (after & Hremove & _ & _ & Hkeys & Hget & Hagain & Hadd).
  exists after. split; [exact Hremove|].
  split; [rewrite Hkeys; vm_compute; reflexivity|].
  split; [exact Hget|]. split; [exact Hagain|]. apply Hadd. reflexivity.
Defined.

(** Merging the savepoints [a], [b] and [c] into themselves, and into
    savepoints whose [b] is another DataFrame: X22. *)
Lemma X22_witness_abc :
  (exists after msg,
     merge DataFrame DataFrame_eq DataFrame_copy savepoints_broken savepoints_abc
     = (after, Raise (ValueError msg)))
  /\ (exists after,
        merge DataFrame DataFrame_eq DataFrame_copy savepoints_abc savepoints_abc
        = (after, Ok ())
        /\ forall n, Dict.get n after = Dict.get n savepoints_abc).
Proof.
  destruct (X22_merge DataFrame DataFrame_eq DataFrame_copy savepoints_broken
              savepoints_abc savepoints_abc_distinct) as (_ & Hconflict & Hself).
  split.
  - apply (Hconflict "b" (fresh "b" df_b TABLE) (fresh "b" df_broken TABLE)).
    + apply Dict_get_elem. reflexivity.
    + reflexivity.
    + reflexivity.
  - apply Hself. intros df. unfold DataFrame_eq.
    rewrite !bool_decide_eq_true_2 by reflexivity. reflexivity.
Defined.

(** [execute_sql] on the savepoints [a], [b] and [c]: X23. *)
Lemma X23_witness_abc :
  exists (after : registry) (db : list string) (res : SqlExecutionResult string),
    execute_sql DataFrame df_base_node quote_identifier to_sql_materialized_nodes
      (list string) string conn_execute savepoints_abc [] engine false
    = (after, db, Ok res)
    /\ Dict.keys after = ["a"; "b"; "c"]
    /\ created string res = [mkCreatedObject "b" TABLE; mkCreatedObject "c" VIEW]
    /\ is_materialized DataFrame after engine "c" = Ok true
    /\ is_Some (Dict.get "a" (data_ string res))
    /\ ~ is_Some (Dict.get "b" (data_ string res)).
Proof.
  destruct (X23_execute_sql_success DataFrame df_base_node quote_identifier
              to_sql_materialized_nodes (list string) string conn_execute
              savepoints_abc [] engine)
    as (after & db & res & Hrun & Hkeys & _ & Hmat & Hcreated & Hdata).
  { apply (bool_decide_unpack _). vm_compute. exact I. }
  { apply (bool_decide_unpack _). vm_compute. exact I. }
  { vm_compute. repeat (constructor; [intros; reflexivity|]). constructor. }
  exists after, db, res. split; [exact Hrun|].
  split; [rewrite Hkeys; vm_compute; reflexivity|].
  split; [rewrite Hcreated; vm_compute; reflexivity|].
  split; [apply Hmat; apply (bool_decide_unpack _); vm_compute; exact I|].
  split.
  - apply Hdata. split; [apply (bool_decide_unpack _); vm_compute; exact I | reflexivity].
  - intros H. apply Hdata in H as [_ H]. discriminate H.
Defined.

(** The combined graph of the savepoints [a], [b] and [c]: X24. *)
Lemma X24_witness_abc :
  node_sql (_get_combined_graph DataFrame df_base_node savepoints_abc)
  = "select * from {{ref_a}}, {{ref_b}}, {{ref_c}}"
  /\ node_references (_get_combined_graph DataFrame df_base_node savepoints_abc)
     = [("ref_a", mkReference (mkSqlModel "node_a") (Some "a") (Some QUERY));
        ("ref_b", mkReference (mkSqlModel "node_b") (Some "b") (Some TABLE));
        ("ref_c", mkReference (mkSqlModel "node_c") (Some "c") (Some VIEW))].
Proof.
  destruct (X24_combined_graph DataFrame df_base_node savepoints_abc)
    as (Hrefs & Hsql & _ & _).
  { apply (bool_decide_unpack _). vm_compute. exact I. }
  split; [rewrite Hsql | rewrite Hrefs]; vm_compute; reflexivity.
Defined.

(** A name that holds braces makes [get_column_expression] fail: the quoted
    name reaches [construct] as part of the format string. *)
Example get_column_expression_braces :
  get_column_expression escape_format_string quote_string quote_identifier
    (mkSeries SeriesBoolean (mkEngine "pg") node_1 [] "{}"
       (raw K_Expression "1") None None) None
  = Raise (ValueError ("For each {} in the fmt there should be an Expression provided. "
                       +:+ "Found {}: 2, provided expressions: 1")).
Proof. vm_compute. reflexivity. Qed.

End ExtraExamples.
